(** * Stylisti: the rule-based style engine ([StyleAIEngine])

    A shallow embedding of the scoring engine of the outfit tracker
    (class [StyleAIEngine]) and of the data it reads ([Outfit],
    [OutfitTags], [OutfitRatings], [AIAnalysis], [OutfitRecommendation]).

    - JavaScript numbers are IEEE-754 binary64 values.  They are modelled
      by [spec_float] with the operations of the standard library's
      executable specification ([SFadd], [SFsub], [SFmul], [SFdiv],
      [SFcompare]) at precision 53 and maximal exponent 1024, so every
      score below is the very double the engine computes.
    - Strings are [string]; arrays are [list]s; optional fields are
      [option]s.
    - [Math.random] and [Date.now] are read from an explicit [World]
      threaded by a state monad.
    - Property reads on a missing object raise [TypeError]; the run-time
      view of [analyzeOutfit] lives in the error monad [sum string]. *)

From Stdlib Require Import ZArith List String Ascii Bool Lia.
From Stdlib Require Import Permutation Sorted.
From Stdlib Require Import Reals Lra.
From Stdlib Require Import Floats.SpecFloat.
From Stdlib Require Floats.FloatOps.
From ExtLib Require Import Structures.Monad Data.Monads.StateMonad
  Data.Monads.EitherMonad.
Import ListNotations.
Import MonadNotation.

Local Open Scope string_scope.
Local Open Scope monad_scope.

(* ===================================================================== *)
(** ** JavaScript numbers *)
(* ===================================================================== *)

Module Num.

Definition prec : Z := 53.
Definition emax : Z := 1024.

Definition number := spec_float.

(** An integer as a double (exact below 2^53, rounded above). *)
Definition ofZ (z : Z) : number := binary_normalize prec emax z 0 false.
Definition ofNat (n : nat) : number := ofZ (Z.of_nat n).

Definition add : number -> number -> number := SFadd prec emax.
Definition sub : number -> number -> number := SFsub prec emax.
Definition mul : number -> number -> number := SFmul prec emax.
Definition div : number -> number -> number := SFdiv prec emax.

(** The decimal literal [n/d] with [d] a power of ten: the double
    nearest to the rational, as the parser of the language rounds it. *)
Definition lit (n d : Z) : number := div (ofZ n) (ofZ d).

(** [a < b], [a >= b], [a > b]: false as soon as one side is NaN. *)
Definition ltb (a b : number) : bool := SFltb a b.
Definition leb (a b : number) : bool := SFleb a b.
Definition geb (a b : number) : bool := SFleb b a.
Definition gtb (a b : number) : bool := SFltb b a.

(** [Math.max(a, b)] and [Math.min(a, b)]: NaN is contagious and
    [+0] is larger than [-0]. *)
Definition Math_max (a b : number) : number :=
  match SFcompare a b with
  | None => S754_nan
  | Some Lt => b
  | Some Gt => a
  | Some Eq => match a with S754_zero true => b | _ => a end
  end.

Definition Math_min (a b : number) : number :=
  match SFcompare a b with
  | None => S754_nan
  | Some Lt => a
  | Some Gt => b
  | Some Eq => match a with S754_zero false => b | _ => a end
  end.

Definition zero : number := ofZ 0.
Definition one : number := ofZ 1.
Definition three : number := ofZ 3.
Definition c0_2 : number := lit 2 10.
Definition c0_3 : number := lit 3 10.
Definition c0_4 : number := lit 4 10.
Definition c0_5 : number := lit 5 10.
Definition c0_6 : number := lit 6 10.
Definition c0_7 : number := lit 7 10.
Definition c0_8 : number := lit 8 10.
Definition c0_9 : number := lit 9 10.

End Num.

Import Num.

(* ===================================================================== *)
(** ** [Math.round] *)
(* ===================================================================== *)

(** [Math.round(x)] is the integer nearest to [x], a tie going upwards:
    [floor(x + 1/2)], computed exactly.  The result of a finite [x] is
    given as the integer it is; [None] stands for a NaN or an infinity,
    which [Math.round] returns unchanged. *)
Definition Math_round (x : number) : option Z :=
  match x with
  | S754_zero _ => Some 0%Z
  | S754_finite s m e =>
    let z := cond_Zopp s (Zpos m) in
    Some (if (0 <=? e)%Z then z * 2 ^ e
          else (2 * z + 2 ^ (- e)) / 2 ^ (1 - e))%Z
  | _ => None
  end.

(* ===================================================================== *)
(** ** Strings and arrays *)
(* ===================================================================== *)

(** [String.prototype.toLowerCase] on the ASCII letters; the tags of the
    application are ASCII words.  Characters outside ASCII are left as
    they are, so the few that JavaScript maps to an ASCII letter (the
    Kelvin sign U+212A becomes k) are outside this model. *)
Definition lower_ascii (c : ascii) : ascii :=
  let n := nat_of_ascii c in
  if Nat.leb 65 n && Nat.leb n 90 then ascii_of_nat (n + 32) else c.

Fixpoint toLowerCase (s : string) : string :=
  match s with
  | EmptyString => EmptyString
  | String c s' => String (lower_ascii c) (toLowerCase s')
  end.

(** [s.includes(sub)]: [sub] occurs in [s] as a contiguous substring. *)
Fixpoint str_includes (s sub : string) : bool :=
  if String.prefix sub s then true
  else match s with
       | EmptyString => false
       | String _ s' => str_includes s' sub
       end.

(** [arr.includes(x)] on an array of strings. *)
Definition includes (arr : list string) (x : string) : bool :=
  existsb (String.eqb x) arr.

(** [arr.push(x)]. *)
Definition push {A} (arr : list A) (x : A) : list A := arr ++ [x].

(* ===================================================================== *)
(** ** Data model (types/outfit.ts) *)
(* ===================================================================== *)

Inductive EffortLevel := low | medium | high.

Record OutfitTags := {
  occasion : list string;
  season : list string;
  style : list string;
  mood : string;
  colors : list string;
  garments : list string;
  formalityLevel : option Z;
  effortLevel : option EffortLevel
}.

Record WeatherData := {
  temperature : Z;
  condition : string;
  precipitation : bool;
  humidity : option Z;
  windSpeed : option Z
}.

Record OutfitContext := {
  weather : WeatherData;
  location : option string;
  duration : option string;
  eventType : option string
}.

(** The four ratings, as the whole numbers from 1 to 10 the tool
    describes.  The tool does not check them: ratings that are fractional
    are treated in [NumberRatings] below. *)
Record OutfitRatings := {
  confidence : Z;
  comfort : Z;
  success : Z;
  repeatLikelihood : Z;
  receivedCompliments : option bool;
  feltAppropriate : option bool
}.

Record AIAnalysis := {
  styleCoherence : number;
  colorHarmony : number;
  occasionAppropriateness : number;
  summary : string;
  suggestedImprovements : option (list string);
  confidenceFactors : option (list string)
}.

(** [id] is spelled [outfit_id] here, and [rec_id] in a recommendation. *)
Record Outfit := {
  outfit_id : string;
  timestamp : Z;
  photoPaths : list string;
  tags : OutfitTags;
  context : OutfitContext;
  ratings : option OutfitRatings;
  notes : option string;
  aiAnalysis : option AIAnalysis;
  createdAt : Z;
  updatedAt : Z
}.

(** The identifier [`rec-${Date.now()}-${Math.random().toString(36).substr(2, 9)}`]
    is kept as the two values it is printed from. *)
Record RecId := { rec_ms : Z; rec_salt : number }.

Record OutfitRecommendation := {
  rec_id : RecId;
  score : number;
  reasoning : list string;
  weatherScore : number;
  occasionScore : number;
  personalScore : number;
  confidenceScore : number
}.

(** The argument object of the [get_outfit_recommendations] tool, which
    the server hands to the engine unchanged; every property is optional. *)
Record WeatherArgs := {
  wa_temperature : option Z;
  wa_condition : option string;
  wa_precipitation : option bool
}.

Record RecommendationContext := {
  ctx_occasion : option string;
  ctx_weather : option WeatherArgs;
  ctx_mood_preference : option string;
  ctx_style_preference : option (list string);
  ctx_time_of_day : option string;
  ctx_duration : option string;
  ctx_limit : option Z
}.

Definition empty_context : RecommendationContext :=
  {| ctx_occasion := None; ctx_weather := None; ctx_mood_preference := None;
     ctx_style_preference := None; ctx_time_of_day := None;
     ctx_duration := None; ctx_limit := None |}.

(** [StylePattern] and [PatternInsight]; the fields typed by string
    literals are strings. *)
Record PatternInsight := {
  insight_category : string;
  insight_trend : string;
  insight_value : number;
  insight_description : string;
  insight_significance : string
}.

Record StylePattern := {
  patternType : string;
  timeFrame : string;
  insights : list PatternInsight;
  pattern_recommendations : list string
}.

(** The argument object of the [analyze_style_patterns] tool; every
    property is optional. *)
Record PatternCriteria := {
  time_period : option string;
  analysis_type : option string;
  focus_category : option string
}.

(** [v || d] for an optional string: [d] replaces an absent value and the
    empty string. *)
Definition or_default (v : option string) (d : string) : string :=
  match v with
  | Some s => if String.eqb s "" then d else s
  | None => d
  end.

(* ===================================================================== *)
(** ** The ambient world: [Math.random], [Date.now], [Array.prototype.sort] *)
(* ===================================================================== *)

(** The engine reads two external sources.  Each is an oracle indexed by
    the number of reads made so far, so that a run is a function of the
    world it starts in. *)
Record World := {
  random_src : nat -> number;
  random_reads : nat;
  clock_src : nat -> Z;
  clock_reads : nat
}.

Definition IO : Type -> Type := state World.

Definition Math_random : IO number :=
  mkState (fun w =>
    (random_src w (random_reads w),
     {| random_src := random_src w; random_reads := S (random_reads w);
        clock_src := clock_src w; clock_reads := clock_reads w |})).

Definition Date_now : IO Z :=
  mkState (fun w =>
    (clock_src w (clock_reads w),
     {| random_src := random_src w; random_reads := random_reads w;
        clock_src := clock_src w; clock_reads := S (clock_reads w) |})).

(** [arr.sort(comparefn)].  The language requires a stable sort, and for a
    consistent comparator the stable sorted arrangement is unique, so the
    built-in is modelled by stable insertion: [x] moves behind [y] exactly
    when [comparefn(x, y) > 0] (a NaN is read as [+0]). *)
Fixpoint sort_insert {A} (comparefn : A -> A -> number) (x : A) (l : list A)
  : list A :=
  match l with
  | [] => [x]
  | y :: l' =>
    if gtb (comparefn x y) zero then y :: sort_insert comparefn x l'
    else x :: y :: l'
  end.

Definition Array_sort {A} (comparefn : A -> A -> number) (arr : list A)
  : list A :=
  fold_right (sort_insert comparefn) [] arr.

(** [obj[key]] on an object literal used as a string-keyed table. *)
Fixpoint lookup {A} (obj : list (string * A)) (key : string) : option A :=
  match obj with
  | [] => None
  | (k, v) :: obj' => if String.eqb k key then Some v else lookup obj' key
  end.

(* ===================================================================== *)
(** ** The engine: pure helpers *)
(* ===================================================================== *)

Module StyleAIEngine.

(** [checkStyleConflicts]: the table of incompatible pairs and the loop
    that counts the pairs whose two members are both among [styles]. *)
Definition conflicts : list (string * string) :=
  [ ("formal", "casual"); ("minimalist", "bohemian"); ("edgy", "romantic") ].

Definition checkStyleConflicts (styles : list string) : nat :=
  fold_left
    (fun conflictCount conflict =>
       if includes styles (fst conflict) && includes styles (snd conflict)
       then S conflictCount
       else conflictCount)
    conflicts 0.

Definition calculateStyleCoherence (outfit : Outfit) : number :=
  let styles := style (tags outfit) in
  if Nat.eqb (List.length styles) 0 then c0_5
  else
    let conflicts := checkStyleConflicts styles in
    let baseScore := c0_8 in
    let penalty := mul (ofNat conflicts) c0_2 in
    Math_max zero (Math_min one (sub baseScore penalty)).

Definition neutrals : list string :=
  [ "black"; "white"; "gray"; "navy"; "beige"; "brown" ].

Definition calculateColorHarmony (colors : list string) : number :=
  if Nat.eqb (List.length colors) 0 then c0_5
  else if Nat.eqb (List.length colors) 1 then c0_9
  else
    let neutralCount :=
      List.length
        (filter
           (fun color =>
              existsb (fun neutral => str_includes (toLowerCase color) neutral)
                      neutrals)
           colors) in
    let neutralRatio := div (ofNat neutralCount) (ofNat (List.length colors)) in
    add c0_5 (mul neutralRatio c0_4).

Definition calculateOccasionFit (outfit : Outfit) : number :=
  let occasions := occasion (tags outfit) in
  if Nat.eqb (List.length occasions) 0 then c0_5 else c0_8.

Definition msg_excellent : string :=
  "Excellent outfit choice! Great style coherence and perfect for the occasion.".
Definition msg_good : string :=
  "Good outfit with room for minor improvements.".
Definition msg_adjust : string :=
  "Consider adjusting some elements for better overall harmony.".

Definition generateAnalysisSummary (style color occasion : number) : string :=
  let overall := div (add (add style color) occasion) three in
  if geb overall c0_8 then msg_excellent
  else if geb overall c0_6 then msg_good
  else msg_adjust.

Definition msg_accessories : string :=
  "Consider choosing accessories that better match your overall style".
Definition msg_limit_colors : string :=
  "Try limiting to 2-3 main colors for better harmony".
Definition msg_simplify : string :=
  "Simplify the outfit by removing one accessory".

Definition generateImprovements (outfit : Outfit) (style color : number)
  : list string :=
  let improvements := [] in
  let improvements :=
    if ltb style c0_6 then push improvements msg_accessories
    else improvements in
  let improvements :=
    if ltb color c0_6 then push improvements msg_limit_colors
    else improvements in
  let improvements :=
    if Nat.ltb 6 (List.length (garments (tags outfit)))
    then push improvements msg_simplify
    else improvements in
  improvements.

Definition msg_classic : string :=
  "Classic style choices tend to boost confidence".
Definition msg_dark : string :=
  "Dark colors create a polished, confident appearance".
Definition msg_work : string :=
  "Professional appropriate outfit builds workplace confidence".

Definition identifyConfidenceFactors (outfit : Outfit) : list string :=
  let factors := [] in
  let factors :=
    if includes (style (tags outfit)) "classic" then push factors msg_classic
    else factors in
  let factors :=
    if existsb (fun color => includes ["navy"; "black"] color)
               (colors (tags outfit))
    then push factors msg_dark
    else factors in
  let factors :=
    if includes (occasion (tags outfit)) "work" then push factors msg_work
    else factors in
  factors.

Definition analyzeOutfit (outfit : Outfit) : AIAnalysis :=
  let styleCoherence := calculateStyleCoherence outfit in
  let colorHarmony := calculateColorHarmony (colors (tags outfit)) in
  let occasionAppropriateness := calculateOccasionFit outfit in
  let summary :=
    generateAnalysisSummary styleCoherence colorHarmony occasionAppropriateness in
  let suggestedImprovements :=
    generateImprovements outfit styleCoherence colorHarmony in
  let confidenceFactors := identifyConfidenceFactors outfit in
  {| styleCoherence := styleCoherence;
     colorHarmony := colorHarmony;
     occasionAppropriateness := occasionAppropriateness;
     summary := summary;
     suggestedImprovements := Some suggestedImprovements;
     confidenceFactors := Some confidenceFactors |}.

(** *** [generateRatingInsights] *)

Definition msg_no_ratings : string := "No ratings provided yet.".
Definition msg_conf_high : string :=
  "High confidence outfit - great style choice!".
Definition msg_conf_low : string :=
  "Consider what made you feel less confident about this outfit.".
Definition msg_comf_high : string :=
  "Very comfortable - perfect for active days.".
Definition msg_comf_low : string :=
  "Low comfort - consider fabric and fit adjustments.".
Definition msg_save : string :=
  "Highly successful outfit - save this combination!".
Definition msg_tradeoff : string :=
  "Style over comfort trade-off - consider more comfortable alternatives.".

Definition generateRatingInsights (outfit : Outfit) : list string :=
  match ratings outfit with
  | None => [msg_no_ratings]
  | Some r =>
    let insights := [] in
    let confidence := confidence r in
    let comfort := comfort r in
    let success := success r in
    let insights :=
      if (confidence >=? 8)%Z then push insights msg_conf_high
      else if (confidence <=? 4)%Z then push insights msg_conf_low
      else insights in
    let insights :=
      if (comfort >=? 8)%Z then push insights msg_comf_high
      else if (comfort <=? 4)%Z then push insights msg_comf_low
      else insights in
    let insights :=
      if (success >=? 8)%Z then push insights msg_save else insights in
    let insights :=
      if (confidence >? comfort)%Z then push insights msg_tradeoff
      else insights in
    insights
  end.


(** *** [generateRecommendations] *)

Definition approaches : list string :=
  [ "high_confidence_historical"; "weather_optimized"; "occasion_perfect";
    "comfort_focused"; "style_exploration" ].

Definition reasoningMap : list (string * list string) :=
  [ ("high_confidence_historical",
     [ "Based on your highest-rated outfits";
       "Proven confidence booster";
       "Similar weather conditions performed well" ]);
    ("weather_optimized",
     [ "Perfect for current weather conditions";
       "Breathable fabrics for comfort";
       "Appropriate layering options" ]);
    ("occasion_perfect",
     [ "Ideal for the planned occasion";
       "Meets dress code requirements";
       "Professional yet approachable" ]);
    ("comfort_focused",
     [ "Maximum comfort for all-day wear";
       "Soft, stretchy fabrics";
       "Easy movement and flexibility" ]);
    ("style_exploration",
     [ "Try something new within your style range";
       "Subtle variation on your usual look";
       "Low-risk style experiment" ]) ].

Definition generateRecommendationReasoning
  (approach : string) (context : RecommendationContext) : list string :=
  match lookup reasoningMap approach with
  | Some reasoning => reasoning
  | None => [ "General recommendation based on your preferences" ]
  end.

(** [Math.random() * 0.3 + 0.7] *)
Definition random_score : IO number :=
  r <- Math_random ;;
  ret (add (mul r c0_3) c0_7).

Definition generateSingleRecommendation
  (context : RecommendationContext) (approach : string)
  : IO OutfitRecommendation :=
  baseScore <- random_score ;;
  let reasoning := generateRecommendationReasoning approach context in
  ms <- Date_now ;;
  salt <- Math_random ;;
  weatherScore <- random_score ;;
  occasionScore <- random_score ;;
  personalScore <- random_score ;;
  confidenceScore <- random_score ;;
  ret {| rec_id := {| rec_ms := ms; rec_salt := salt |};
         score := baseScore;
         reasoning := reasoning;
         weatherScore := weatherScore;
         occasionScore := occasionScore;
         personalScore := personalScore;
         confidenceScore := confidenceScore |}.

(** The [for] loop over [approaches], pushing one recommendation per
    approach. *)
Fixpoint recommend_each (context : RecommendationContext)
  (pending : list string) (recommendations : list OutfitRecommendation)
  : IO (list OutfitRecommendation) :=
  match pending with
  | [] => ret recommendations
  | approach :: pending' =>
    rec <- generateSingleRecommendation context approach ;;
    recommend_each context pending' (push recommendations rec)
  end.

Definition generateRecommendations (context : RecommendationContext)
  : IO (list OutfitRecommendation) :=
  recommendations <- recommend_each context approaches [] ;;
  ret (Array_sort (fun a b => sub (score b) (score a)) recommendations).

(** *** [analyzeStylePatterns] *)

Definition analyzeStylePatterns (criteria : PatternCriteria) : StylePattern :=
  let patternType := or_default (analysis_type criteria) "confidence_trends" in
  let timeFrame := or_default (time_period criteria) "month" in
  let insights :=
    [ {| insight_category := "Color Preferences";
         insight_trend := "increasing";
         insight_value := lit 75 100;
         insight_description := "Growing preference for neutral tones";
         insight_significance := "medium" |};
      {| insight_category := "Formality Level";
         insight_trend := "stable";
         insight_value := c0_6;
         insight_description := "Consistent smart-casual style preference";
         insight_significance := "high" |} ] in
  let recommendations :=
    [ "Try incorporating one bold color per outfit";
      "Experiment with textured neutrals for visual interest";
      "Consider investing in quality basics" ] in
  {| patternType := patternType;
     timeFrame := timeFrame;
     insights := insights;
     pattern_recommendations := recommendations |}.

End StyleAIEngine.

(* ===================================================================== *)
(** ** The run-time view of [analyzeOutfit] *)
(* ===================================================================== *)

(** The interfaces above are erased at run time: the engine receives a
    plain object, and a property that the interface requires may still be
    [undefined].  Reading a property of [undefined] (here [.style],
    [.length], [.includes], [.some], [.filter]) raises a [TypeError].
    [Runtime] replays [analyzeOutfit] on such objects, in the error monad:
    [inl e] is a thrown [e], [inr v] a normal return. *)
Module Runtime.

Import StyleAIEngine.

Definition Completion : Type -> Type := sum string.

Record JsTags := {
  js_occasion : option (list string);
  js_season : option (list string);
  js_style : option (list string);
  js_mood : option string;
  js_colors : option (list string);
  js_garments : option (list string);
  js_formalityLevel : option Z;
  js_effortLevel : option EffortLevel
}.

(** Only [tags] is read by [analyzeOutfit]; [ratings] is kept because it
    is the optional property the sibling entry point reads. *)
Record JsOutfit := {
  js_tags : option JsTags;
  js_ratings : option OutfitRatings
}.

(** [v.p] for some property [p]: [v] must be an object. *)
Definition deref {A} (v : option A) : Completion A :=
  match v with
  | Some a => inr a
  | None => inl "TypeError"
  end.

Definition calculateStyleCoherence (outfit : JsOutfit) : Completion number :=
  tags <- deref (js_tags outfit) ;;
  styles <- deref (js_style tags) ;;
  if Nat.eqb (List.length styles) 0 then ret c0_5
  else
    let conflicts := checkStyleConflicts styles in
    let baseScore := c0_8 in
    let penalty := mul (ofNat conflicts) c0_2 in
    ret (Math_max zero (Math_min one (sub baseScore penalty))).

Definition calculateColorHarmony (colors : option (list string))
  : Completion number :=
  colors <- deref colors ;;
  ret (StyleAIEngine.calculateColorHarmony colors).

Definition calculateOccasionFit (outfit : JsOutfit) : Completion number :=
  tags <- deref (js_tags outfit) ;;
  occasions <- deref (js_occasion tags) ;;
  if Nat.eqb (List.length occasions) 0 then ret c0_5 else ret c0_8.

Definition generateImprovements (outfit : JsOutfit) (style color : number)
  : Completion (list string) :=
  let improvements := [] in
  let improvements :=
    if ltb style c0_6 then push improvements msg_accessories
    else improvements in
  let improvements :=
    if ltb color c0_6 then push improvements msg_limit_colors
    else improvements in
  tags <- deref (js_tags outfit) ;;
  garments <- deref (js_garments tags) ;;
  let improvements :=
    if Nat.ltb 6 (List.length garments) then push improvements msg_simplify
    else improvements in
  ret improvements.

Definition identifyConfidenceFactors (outfit : JsOutfit)
  : Completion (list string) :=
  let factors := [] in
  tags <- deref (js_tags outfit) ;;
  style <- deref (js_style tags) ;;
  let factors :=
    if includes style "classic" then push factors msg_classic else factors in
  colors <- deref (js_colors tags) ;;
  let factors :=
    if existsb (fun color => includes ["navy"; "black"] color) colors
    then push factors msg_dark
    else factors in
  occasion <- deref (js_occasion tags) ;;
  let factors :=
    if includes occasion "work" then push factors msg_work else factors in
  ret factors.

Definition analyzeOutfit (outfit : JsOutfit) : Completion AIAnalysis :=
  styleCoherence <- calculateStyleCoherence outfit ;;
  tags <- deref (js_tags outfit) ;;
  colorHarmony <- calculateColorHarmony (js_colors tags) ;;
  occasionAppropriateness <- calculateOccasionFit outfit ;;
  let summary :=
    generateAnalysisSummary styleCoherence colorHarmony occasionAppropriateness in
  suggestedImprovements <-
    generateImprovements outfit styleCoherence colorHarmony ;;
  confidenceFactors <- identifyConfidenceFactors outfit ;;
  ret {| styleCoherence := styleCoherence;
         colorHarmony := colorHarmony;
         occasionAppropriateness := occasionAppropriateness;
         summary := summary;
         suggestedImprovements := Some suggestedImprovements;
         confidenceFactors := Some confidenceFactors |}.

Definition generateRatingInsights (outfit : JsOutfit) : Completion (list string) :=
  match js_ratings outfit with
  | None => ret [msg_no_ratings]
  | Some r =>
    let insights := [] in
    let confidence := confidence r in
    let comfort := comfort r in
    let success := success r in
    let insights :=
      if (confidence >=? 8)%Z then push insights msg_conf_high
      else if (confidence <=? 4)%Z then push insights msg_conf_low
      else insights in
    let insights :=
      if (comfort >=? 8)%Z then push insights msg_comf_high
      else if (comfort <=? 4)%Z then push insights msg_comf_low
      else insights in
    let insights :=
      if (success >=? 8)%Z then push insights msg_save else insights in
    let insights :=
      if (confidence >? comfort)%Z then push insights msg_tradeoff
      else insights in
    ret insights
  end.

(** The object that a value of the interface [Outfit] is at run time:
    every required property present, every optional one as given. *)
Definition of_tags (t : OutfitTags) : JsTags :=
  {| js_occasion := Some (occasion t);
     js_season := Some (season t);
     js_style := Some (style t);
     js_mood := Some (mood t);
     js_colors := Some (colors t);
     js_garments := Some (garments t);
     js_formalityLevel := formalityLevel t;
     js_effortLevel := effortLevel t |}.

Definition of_outfit (o : Outfit) : JsOutfit :=
  {| js_tags := Some (of_tags (tags o)); js_ratings := ratings o |}.

End Runtime.

(** A concrete outfit to run the engine on. *)
Definition sunny : WeatherData :=
  {| temperature := 70; condition := "sunny"; precipitation := false;
     humidity := None; windSpeed := None |}.

Definition mkTags (occasion style colors garments : list string) : OutfitTags :=
  {| occasion := occasion; season := []; style := style; mood := "";
     colors := colors; garments := garments;
     formalityLevel := None; effortLevel := None |}.

Definition mkOutfit (t : OutfitTags) (r : option OutfitRatings) : Outfit :=
  {| outfit_id := "o1"; timestamp := 0; photoPaths := []; tags := t;
     context := {| weather := sunny; location := None; duration := None;
                   eventType := None |};
     ratings := r; notes := None; aiAnalysis := None;
     createdAt := 0; updatedAt := 0 |}.

Definition emptyOutfit : Outfit := mkOutfit (mkTags [] [] [] []) None.

Definition withStyle (styles : list string) : Outfit :=
  mkOutfit (mkTags [] styles [] []) None.

Definition withColors (colors : list string) : Outfit :=
  mkOutfit (mkTags [] [] colors []) None.

Definition mkRatings (confidence comfort success : Z) : OutfitRatings :=
  {| confidence := confidence; comfort := comfort; success := success;
     repeatLikelihood := 5; receivedCompliments := None;
     feltAppropriate := None |}.

(* ===================================================================== *)
(** ** Ratings as the numbers they are at run time *)
(* ===================================================================== *)

(** The [rate_outfit] tool declares its ratings as numbers from 1 to 10,
    not as whole numbers, and the server stores what it receives, so a
    rating may be fractional.  [NumberRatings] replays
    [generateRatingInsights] on ratings that are doubles, with the
    comparisons of doubles against the literals 8 and 4; a comparison
    with a NaN is false. *)
Module NumberRatings.

Import StyleAIEngine.

Record Ratings := {
  rated_confidence : number;
  rated_comfort : number;
  rated_success : number
}.

(** Only [ratings] is read. *)
Record RatedOutfit := { rated : option Ratings }.

Definition generateRatingInsights (outfit : RatedOutfit) : list string :=
  match rated outfit with
  | None => [msg_no_ratings]
  | Some r =>
    let insights := [] in
    let confidence := rated_confidence r in
    let comfort := rated_comfort r in
    let success := rated_success r in
    let insights :=
      if geb confidence (ofZ 8) then push insights msg_conf_high
      else if leb confidence (ofZ 4) then push insights msg_conf_low
      else insights in
    let insights :=
      if geb comfort (ofZ 8) then push insights msg_comf_high
      else if leb comfort (ofZ 4) then push insights msg_comf_low
      else insights in
    let insights :=
      if geb success (ofZ 8) then push insights msg_save else insights in
    let insights :=
      if gtb confidence comfort then push insights msg_tradeoff
      else insights in
    insights
  end.

(** Whole-number ratings, as doubles. *)
Definition of_ratings (r : OutfitRatings) : Ratings :=
  {| rated_confidence := ofZ (confidence r);
     rated_comfort := ofZ (comfort r);
     rated_success := ofZ (success r) |}.

Definition of_outfit (o : Outfit) : RatedOutfit :=
  {| rated := option_map of_ratings (ratings o) |}.

End NumberRatings.

(* ===================================================================== *)
(** ** The server: what the tool handlers print (server.ts) *)
(* ===================================================================== *)

Module StyleMCPServer.

Import StyleAIEngine.

(** [Math.round(x * 100)], the number printed in front of a "%". *)
Definition percent (x : number) : option Z := Math_round (mul x (ofZ 100)).

(** [arr.slice(start, end)] for indices within the 32-bit range. *)
Definition slice {A} (arr : list A) (start stop : nat) : list A :=
  firstn (stop - start) (skipn start arr).

(** [arr.slice(start)]. *)
Definition slice_from {A} (arr : list A) (start : nat) : list A := skipn start arr.

(** [arr.map((x, index) => f(x, index))]. *)
Fixpoint map_from {A B} (f : A -> nat -> B) (index : nat) (arr : list A) : list B :=
  match arr with
  | [] => []
  | x :: arr' => f x index :: map_from f (S index) arr'
  end.

Definition Array_map {A B} (f : A -> nat -> B) (arr : list A) : list B :=
  map_from f 0 arr.

(** [handleLogOutfit]: the values interpolated in the "AI Analysis" block
    of the reply, in the order of the template. *)
Record AnalysisBlock := {
  shown_styleCoherence : option Z;
  shown_colorHarmony : option Z;
  shown_occasionFit : option Z;
  shown_summary : string
}.

Definition analysisBlock (aiAnalysis : AIAnalysis) : AnalysisBlock :=
  {| shown_styleCoherence := percent (styleCoherence aiAnalysis);
     shown_colorHarmony := percent (colorHarmony aiAnalysis);
     shown_occasionFit := percent (occasionAppropriateness aiAnalysis);
     shown_summary := summary aiAnalysis |}.

(** [handleGetRecommendations]: one entry of [formattedRecs], as the
    values its template interpolates: [index + 1], [rec.reasoning[0]]
    ([None] when the array is empty), the score percentage,
    [rec.reasoning.slice(1)] and the weather and personal percentages. *)
Record RecommendationEntry := {
  entry_number : nat;
  entry_title : option string;
  entry_score : option Z;
  entry_reasons : list string;
  entry_weather : option Z;
  entry_personal : option Z
}.

Definition formatRecommendation (rec : OutfitRecommendation) (index : nat)
  : RecommendationEntry :=
  {| entry_number := index + 1;
     entry_title := nth_error (reasoning rec) 0;
     entry_score := percent (score rec);
     entry_reasons := slice_from (reasoning rec) 1;
     entry_weather := percent (weatherScore rec);
     entry_personal := percent (personalScore rec) |}.

Definition handleGetRecommendations (args : RecommendationContext)
  : IO (list RecommendationEntry) :=
  recommendations <- generateRecommendations args ;;
  let formattedRecs := Array_map formatRecommendation (slice recommendations 0 5) in
  ret formattedRecs.

(** [handleSearchOutfits]: the rating shown for one outfit,
    [Math.round((confidence + comfort + success) / 3)] or the text
    "Not rated". *)
Definition avgRating (outfit : Outfit) : string + option Z :=
  match ratings outfit with
  | Some r =>
    inr (Math_round (div (add (add (ofZ (confidence r)) (ofZ (comfort r)))
                              (ofZ (success r)))
                         three))
  | None => inl "Not rated"
  end.

End StyleMCPServer.

(* ===================================================================== *)
(** ** The database: ratings of an outfit (database/sqlite.ts) *)
(* ===================================================================== *)

Module OutfitDatabase.

Import StyleAIEngine.

(** The argument object of the [rate_outfit] tool, with the properties
    and types its input schema declares; only [outfit_id] is required.
    Ratings are whole numbers, as everywhere in this development. *)
Record RateOutfitArgs := {
  arg_outfit_id : string;
  arg_confidence : option Z;
  arg_comfort : option Z;
  arg_success : option Z;
  arg_repeat_likelihood : option Z;
  arg_received_compliments : option bool;
  arg_felt_appropriate : option bool;
  arg_feedback_notes : option string
}.

(** [args[name]] for a property holding a number, and for one holding a
    boolean; a name the object does not have gives [undefined]. *)
Definition number_property (args : RateOutfitArgs) (name : string) : option Z :=
  if String.eqb name "confidence" then arg_confidence args
  else if String.eqb name "comfort" then arg_comfort args
  else if String.eqb name "success" then arg_success args
  else if String.eqb name "repeat_likelihood" then arg_repeat_likelihood args
  else None.

Definition boolean_property (args : RateOutfitArgs) (name : string) : option bool :=
  if String.eqb name "received_compliments" then arg_received_compliments args
  else if String.eqb name "felt_appropriate" then arg_felt_appropriate args
  else None.

(** [ToNumber] of a value that is a number or [null]: the relational
    operators read [null] as [+0]. *)
Definition ToNumber (v : option Z) : Z :=
  match v with
  | Some n => n
  | None => 0%Z
  end.

(** The object [rowToOutfit] builds for [ratings] when
    [row.confidence_rating] is truthy; a NULL column is read as [null]. *)
Record StoredRatings := {
  stored_confidence : Z;
  stored_comfort : option Z;
  stored_success : option Z;
  stored_repeatLikelihood : option Z;
  stored_receivedCompliments : option bool;
  stored_feltAppropriate : option bool
}.

(** *** The season column *)

(** [JSON.stringify] of an array of strings: the elements between double
    quotes, separated by commas, within brackets.  Inside an element the
    double quote and the backslash are escaped by a backslash, the control
    characters are written as a backslash and one of b, t, n, f, r, or as
    a backslash and u00 with two hexadecimal digits, and every other
    character stands for itself. *)
Definition double_quote : string := String (ascii_of_nat 34) EmptyString.
Definition backslash : string := String (ascii_of_nat 92) EmptyString.

Definition hex_digit (n : nat) : string :=
  String.substring n 1 "0123456789abcdef".

Definition JSON_quote_char (c : ascii) : string :=
  let n := nat_of_ascii c in
  if Nat.eqb n 34 then backslash ++ double_quote
  else if Nat.eqb n 92 then backslash ++ backslash
  else if Nat.eqb n 8 then backslash ++ "b"
  else if Nat.eqb n 9 then backslash ++ "t"
  else if Nat.eqb n 10 then backslash ++ "n"
  else if Nat.eqb n 12 then backslash ++ "f"
  else if Nat.eqb n 13 then backslash ++ "r"
  else if Nat.ltb n 32
       then backslash ++ "u00" ++ hex_digit (Nat.div n 16) ++ hex_digit (Nat.modulo n 16)
  else String c EmptyString.

Fixpoint JSON_quote_chars (s : string) : string :=
  match s with
  | EmptyString => EmptyString
  | String c s' => JSON_quote_char c ++ JSON_quote_chars s'
  end.

Definition JSON_quote (s : string) : string :=
  double_quote ++ JSON_quote_chars s ++ double_quote.

Definition JSON_stringify (arr : list string) : string :=
  "[" ++ String.concat "," (map JSON_quote arr) ++ "]".

(** [getCurrentSeason], given [new Date().getMonth()], from 0 to 11. *)
Definition getCurrentSeason (month : nat) : string :=
  if Nat.leb 2 month && Nat.leb month 4 then "spring"
  else if Nat.leb 5 month && Nat.leb month 7 then "summer"
  else if Nat.leb 8 month && Nat.leb month 10 then "fall"
  else "winter".

(** [createOutfit]: the [season] tag of the new outfit, from [data.season]
    (absent, a string, or an array), and the text stored in the column
    [season]. *)
Definition createOutfit_season (season : option (string + list string)) (month : nat)
  : list string :=
  match season with
  | Some (inr arr) => arr
  | Some (inl s) => if String.eqb s "" then [getCurrentSeason month] else [s]
  | None => [getCurrentSeason month]
  end.

Definition createOutfit_season_column (season : option (string + list string))
  (month : nat) : string :=
  JSON_stringify (createOutfit_season season month).

(** [searchOutfits]: the condition [season = ?] that a truthy
    [criteria.season] adds to the query, on the text of the column. *)
Definition searchOutfits_season (criteria_season : option string)
  (season_column : string) : bool :=
  match criteria_season with
  | Some s => if String.eqb s "" then true else String.eqb season_column s
  | None => true
  end.

Section Table.

(** The columns of [outfits] that the rating statements neither read nor
    write (photo paths, tags, context, notes, analysis, creation date). *)
Variable Columns : Type.

(** A row of [outfits].  An INTEGER column is [None] when NULL.  The TEXT
    column [ratings_feedback] is kept as the object it encodes: its two
    optional flags, a property being absent where [JSON.stringify] found
    it undefined. *)
Record OutfitRow := {
  row_id : string;
  row_columns : Columns;
  confidence_rating : option Z;
  comfort_rating : option Z;
  success_rating : option Z;
  repeat_likelihood : option Z;
  ratings_feedback : option (option bool * option bool);
  updated_at : Z
}.

(** The outfit [rowToOutfit] returns: its [id], its [ratings], and the
    properties decoded from the other columns. *)
Record StoredOutfit := {
  stored_id : string;
  stored_columns : Columns;
  stored_ratings : option StoredRatings
}.

Definition rowToOutfit (row : OutfitRow) : StoredOutfit :=
  {| stored_id := row_id row;
     stored_columns := row_columns row;
     stored_ratings :=
       match confidence_rating row with
       | Some confidence =>
         if (confidence =? 0)%Z then None
         else
           let feedback :=
             match ratings_feedback row with
             | Some flags => flags
             | None => (None, None)
             end in
           Some {| stored_confidence := confidence;
                   stored_comfort := comfort_rating row;
                   stored_success := success_rating row;
                   stored_repeatLikelihood := repeat_likelihood row;
                   stored_receivedCompliments := fst feedback;
                   stored_feltAppropriate := snd feedback |}
       | None => None
       end |}.

(** [SELECT * FROM outfits WHERE id = ?], first row. *)
Definition getOutfit (id : string) (table : list OutfitRow) : option StoredOutfit :=
  match find (fun row => String.eqb (row_id row) id) table with
  | Some row => Some (rowToOutfit row)
  | None => None
  end.

(** [UPDATE outfits SET ... WHERE id = ?]; an undefined parameter is
    stored as NULL. *)
Definition updateOutfitRatings (id : string) (ratings : RateOutfitArgs) (now : Z)
  (table : list OutfitRow) : list OutfitRow :=
  map (fun row =>
         if String.eqb (row_id row) id then
           {| row_id := row_id row;
              row_columns := row_columns row;
              confidence_rating := number_property ratings "confidence";
              comfort_rating := number_property ratings "comfort";
              success_rating := number_property ratings "success";
              repeat_likelihood := number_property ratings "repeatLikelihood";
              ratings_feedback :=
                Some (boolean_property ratings "receivedCompliments",
                      boolean_property ratings "feltAppropriate");
              updated_at := now |}
         else row)
      table.

(** [generateRatingInsights] on an outfit read back from the table. *)
Definition generateRatingInsights (outfit : StoredOutfit) : list string :=
  match stored_ratings outfit with
  | None => [msg_no_ratings]
  | Some r =>
    let insights := [] in
    let confidence := stored_confidence r in
    let comfort := ToNumber (stored_comfort r) in
    let success := ToNumber (stored_success r) in
    let insights :=
      if (confidence >=? 8)%Z then push insights msg_conf_high
      else if (confidence <=? 4)%Z then push insights msg_conf_low
      else insights in
    let insights :=
      if (comfort >=? 8)%Z then push insights msg_comf_high
      else if (comfort <=? 4)%Z then push insights msg_comf_low
      else insights in
    let insights :=
      if (success >=? 8)%Z then push insights msg_save else insights in
    let insights :=
      if (confidence >? comfort)%Z then push insights msg_tradeoff
      else insights in
    insights
  end.

(** [handleRateOutfit]: the update, the read, the error of an unknown
    outfit, and the insights that the reply lists. *)
Definition handleRateOutfit (args : RateOutfitArgs) (now : Z) (table : list OutfitRow)
  : (string + list string) * list OutfitRow :=
  let table := updateOutfitRatings (arg_outfit_id args) args now table in
  match getOutfit (arg_outfit_id args) table with
  | None => (inl ("Outfit with ID " ++ arg_outfit_id args ++ " not found"), table)
  | Some outfit => (inr (generateRatingInsights outfit), table)
  end.

End Table.

Arguments row_id {Columns}.
Arguments row_columns {Columns}.
Arguments confidence_rating {Columns}.
Arguments comfort_rating {Columns}.
Arguments success_rating {Columns}.
Arguments repeat_likelihood {Columns}.
Arguments ratings_feedback {Columns}.
Arguments updated_at {Columns}.
Arguments stored_id {Columns}.
Arguments stored_columns {Columns}.
Arguments stored_ratings {Columns}.
Arguments rowToOutfit {Columns}.
Arguments getOutfit {Columns}.
Arguments updateOutfitRatings {Columns}.
Arguments generateRatingInsights {Columns}.
Arguments handleRateOutfit {Columns}.

End OutfitDatabase.

(* ===================================================================== *)
(** ** Rounding theory for the double operations *)
(* ===================================================================== *)

(** The operations of [SpecFloat] compute; to reason about them for all
    inputs they are related to the real numbers.  The central fact is
    that rounding never crosses a representable number: if the exact
    result lies between two doubles, so does the rounded one. *)
Module FloatTheory.

Local Open Scope Z_scope.

(** [bpow e] is [2^e] and [F2R m e] is [m * 2^e], as real numbers. *)
Definition bpow (e : Z) : R := powerRZ 2 e.
Definition F2R (m e : Z) : R := (IZR m * bpow e)%R.

Lemma bpow_pos e : (0 < bpow e)%R.
Proof. apply powerRZ_lt; lra. Qed.

Lemma bpow_add a b : bpow (a + b) = (bpow a * bpow b)%R.
Proof. apply powerRZ_add; lra. Qed.

Lemma bpow_0 : bpow 0 = 1%R.
Proof. reflexivity. Qed.

Lemma bpow_1 : bpow 1 = 2%R.
Proof. unfold bpow; simpl; lra. Qed.

Lemma bpow_succ e : bpow (e + 1) = (2 * bpow e)%R.
Proof. rewrite bpow_add, bpow_1; lra. Qed.

Lemma bpow_IZR n : 0 <= n -> bpow n = IZR (2 ^ n).
Proof.
  intros Hn. pattern n. apply natlike_ind; [reflexivity | | exact Hn].
  intros x Hx IH. unfold Z.succ. rewrite bpow_succ, IH, Z.pow_add_r by lia.
  rewrite mult_IZR. change (2 ^ 1) with 2. lra.
Qed.

Lemma bpow_le a b : a <= b -> (bpow a <= bpow b)%R.
Proof.
  intros H. replace b with (a + (b - a)) by lia.
  rewrite bpow_add, (bpow_IZR (b - a)) by lia.
  assert (1 <= 2 ^ (b - a)) by (apply Z.pow_le_mono_r with (a := 2) (b := 0) (c := b - a) ; lia).
  apply IZR_le in H0. pose proof (bpow_pos a). nra.
Qed.

Lemma bpow_lt a b : a < b -> (bpow a < bpow b)%R.
Proof.
  intros H. apply Rlt_le_trans with (bpow (a + 1)); [|apply bpow_le; lia].
  rewrite bpow_succ. pose proof (bpow_pos a). lra.
Qed.

Lemma bpow_lt_inv a b : (bpow a < bpow b)%R -> a < b.
Proof.
  intros H. destruct (Z_lt_le_dec a b) as [|Hle]; [assumption|].
  apply bpow_le in Hle. lra.
Qed.

Lemma F2R_shift m e n : 0 <= n -> F2R (m * 2 ^ n) e = F2R m (e + n).
Proof.
  intros Hn. unfold F2R. rewrite mult_IZR, (Z.add_comm e n), bpow_add, <- bpow_IZR by lia. ring.
Qed.

Lemma F2R_le m1 m2 e : m1 <= m2 -> (F2R m1 e <= F2R m2 e)%R.
Proof. intros H. apply IZR_le in H. unfold F2R. pose proof (bpow_pos e). nra. Qed.

Lemma F2R_lt m1 m2 e : m1 < m2 -> (F2R m1 e < F2R m2 e)%R.
Proof. intros H. apply IZR_lt in H. unfold F2R. pose proof (bpow_pos e). nra. Qed.

Lemma F2R_lt_inv m1 m2 e : (F2R m1 e < F2R m2 e)%R -> m1 < m2.
Proof.
  intros H. destruct (Z_lt_le_dec m1 m2) as [|Hle]; [assumption|].
  apply (F2R_le _ _ e) in Hle. lra.
Qed.

Lemma F2R_le_inv m1 m2 e : (F2R m1 e <= F2R m2 e)%R -> m1 <= m2.
Proof.
  intros H. destruct (Z_le_gt_dec m1 m2) as [|Hgt]; [assumption|].
  apply Z.gt_lt, (F2R_lt _ _ e) in Hgt. lra.
Qed.

Lemma F2R_succ m e : F2R (m + 1) e = (F2R m e + bpow e)%R.
Proof. unfold F2R. rewrite plus_IZR. ring. Qed.

(** digits *)
Lemma digits2_pos_bounds p :
  2 ^ (Zpos (digits2_pos p) - 1) <= Zpos p < 2 ^ Zpos (digits2_pos p).
Proof.
  induction p as [p IH | p IH |]; simpl digits2_pos.
  - rewrite Pos2Z.inj_succ. replace (Z.succ (Zpos (digits2_pos p)) - 1) with (Z.succ (Zpos (digits2_pos p) - 1)) by lia.
    rewrite !Z.pow_succ_r by lia. lia.
  - rewrite Pos2Z.inj_succ. replace (Z.succ (Zpos (digits2_pos p)) - 1) with (Z.succ (Zpos (digits2_pos p) - 1)) by lia.
    rewrite !Z.pow_succ_r by lia. lia.
  - simpl. lia.
Qed.

Lemma Zdigits2_bounds m : 0 < m ->
  2 ^ (Zdigits2 m - 1) <= m < 2 ^ Zdigits2 m.
Proof. destruct m; try lia. intros _. apply digits2_pos_bounds. Qed.

Lemma Zdigits2_pos m : 0 < m -> 0 < Zdigits2 m.
Proof. destruct m; simpl; lia. Qed.

Lemma Zdigits2_unique m d : 0 < m -> 2 ^ (d - 1) <= m < 2 ^ d -> Zdigits2 m = d.
Proof.
  intros Hm [H1 H2]. pose proof (Zdigits2_bounds m Hm) as [H3 H4].
  assert (0 < d).
  { destruct (Z_lt_le_dec 0 d) as [|Hd]; [assumption|].
    destruct (Z.eq_dec d 0) as [->|Hd0].
    - rewrite Z.pow_0_r in H2. lia.
    - rewrite Z.pow_neg_r in H2 by lia. lia. }
  pose proof (Zdigits2_pos m Hm).
  destruct (Z_lt_le_dec (Zdigits2 m) d).
  - assert (2 ^ Zdigits2 m <= 2 ^ (d - 1)) by (apply Z.pow_le_mono_r; lia). lia.
  - destruct (Z_lt_le_dec d (Zdigits2 m)); [|lia].
    assert (2 ^ d <= 2 ^ (Zdigits2 m - 1)) by (apply Z.pow_le_mono_r; lia). lia.
Qed.

Lemma F2R_digits m e : 0 < m -> (bpow (Zdigits2 m + e - 1) <= F2R m e < bpow (Zdigits2 m + e))%R.
Proof.
  intros Hm. pose proof (Zdigits2_bounds m Hm) as [H1 H2]. pose proof (Zdigits2_pos m Hm).
  replace (Zdigits2 m + e - 1) with ((Zdigits2 m - 1) + e) by lia.
  rewrite !bpow_add, (bpow_IZR (Zdigits2 m - 1)), (bpow_IZR (Zdigits2 m)) by lia. unfold F2R.
  apply IZR_le in H1. apply IZR_lt in H2. pose proof (bpow_pos e). split.
  - apply Rmult_le_compat_r; [left; assumption | exact H1].
  - apply Rmult_lt_compat_r; [assumption | exact H2].
Qed.

Definition inexact (l : SpecFloat.location) : bool :=
  match l with loc_Exact => false | _ => true end.

(** [v] lies in the cell [[m*2^e, (m+1)*2^e)], on its left end exactly
    when the location says so. *)
Definition bracket (v : R) (m e : Z) (l : SpecFloat.location) : Prop :=
  if inexact l then (F2R m e < v < F2R (m + 1) e)%R else v = F2R m e.

Lemma F2R_xO p e : F2R (Zpos p~0) e = F2R (Zpos p) (e + 1).
Proof. unfold F2R. rewrite bpow_succ, Pos2Z.inj_xO, mult_IZR. ring. Qed.

Lemma F2R_xI p e : F2R (Zpos p~1) e = (F2R (Zpos p) (e + 1) + bpow e)%R.
Proof. unfold F2R. rewrite bpow_succ, Pos2Z.inj_xI, plus_IZR, mult_IZR. ring. Qed.

Lemma F2R_0 e : F2R 0 e = 0%R.
Proof. unfold F2R. ring. Qed.

Lemma F2R_1 e : F2R 1 e = bpow e.
Proof. unfold F2R. ring. Qed.

Lemma shr_1_bracket v mrs e :
  0 <= shr_m mrs ->
  bracket v (shr_m mrs) e (loc_of_shr_record mrs) ->
  bracket v (shr_m (shr_1 mrs)) (e + 1) (loc_of_shr_record (shr_1 mrs))
  /\ shr_m (shr_1 mrs) = shr_m mrs / 2.
Proof.
  destruct mrs as [m r s]. simpl shr_m. intros Hm.
  pose proof (bpow_pos e) as Hb. pose proof (bpow_succ e) as Hs.
  destruct m as [|[p|p|]|p]; try lia; unfold bracket;
    destruct r, s; cbn [shr_1 shr_m loc_of_shr_record inexact orb];
    rewrite ?F2R_succ, ?F2R_xO, ?F2R_xI, ?F2R_0, ?F2R_1;
    rewrite ?Hs; intros Hv;
    (split; [ try lra | ]).
  all: try reflexivity.
  all: try (apply Z.div_unique with 1; lia).
  all: try (apply Z.div_unique with 0; lia).
Qed.

Lemma pow2_xI n : 2 ^ Zpos n~1 = 2 * 2 ^ Zpos n * 2 ^ Zpos n.
Proof.
  rewrite (Pos2Z.inj_xI n). replace (2 * Zpos n + 1) with (1 + Zpos n + Zpos n) by lia.
  rewrite !Z.pow_add_r by lia. reflexivity.
Qed.

Lemma pow2_xO n : 2 ^ Zpos n~0 = 2 ^ Zpos n * 2 ^ Zpos n.
Proof.
  rewrite (Pos2Z.inj_xO n). replace (2 * Zpos n) with (Zpos n + Zpos n) by lia.
  rewrite !Z.pow_add_r by lia. reflexivity.
Qed.

Lemma iter_shr_1_bracket v n : forall mrs e,
  0 <= shr_m mrs ->
  bracket v (shr_m mrs) e (loc_of_shr_record mrs) ->
  bracket v (shr_m (iter_pos shr_1 n mrs)) (e + Zpos n)
          (loc_of_shr_record (iter_pos shr_1 n mrs))
  /\ shr_m (iter_pos shr_1 n mrs) = shr_m mrs / 2 ^ Zpos n.
Proof.
  induction n as [n IH | n IH |]; intros mrs e Hm Hb; cbn [iter_pos].
  - destruct (shr_1_bracket v mrs e Hm Hb) as [B1 E1].
    assert (H1 : 0 <= shr_m (shr_1 mrs)) by (rewrite E1; apply Z.div_pos; lia).
    destruct (IH _ _ H1 B1) as [B2 E2].
    assert (H2 : 0 <= shr_m (iter_pos shr_1 n (shr_1 mrs)))
      by (rewrite E2; apply Z.div_pos; [assumption | apply Z.pow_pos_nonneg; lia]).
    destruct (IH _ _ H2 B2) as [B3 E3].
    split.
    + replace (e + Zpos n~1) with (e + 1 + Zpos n + Zpos n) by lia. exact B3.
    + rewrite E3, E2, E1.
      assert (0 < 2 ^ Zpos n) by (apply Z.pow_pos_nonneg; lia).
      rewrite !Z.div_div by lia. rewrite pow2_xI. f_equal. ring.
  - destruct (IH _ _ Hm Hb) as [B2 E2].
    assert (H2 : 0 <= shr_m (iter_pos shr_1 n mrs))
      by (rewrite E2; apply Z.div_pos; [assumption | apply Z.pow_pos_nonneg; lia]).
    destruct (IH _ _ H2 B2) as [B3 E3].
    split.
    + replace (e + Zpos n~0) with (e + Zpos n + Zpos n) by lia. exact B3.
    + rewrite E3, E2.
      assert (0 < 2 ^ Zpos n) by (apply Z.pow_pos_nonneg; lia).
      rewrite !Z.div_div by lia. rewrite pow2_xO. reflexivity.
  - destruct (shr_1_bracket v mrs e Hm Hb) as [B1 E1]. split; assumption.
Qed.

Lemma loc_of_shr_record_of_loc m l :
  loc_of_shr_record (shr_record_of_loc m l) = l.
Proof. destruct l as [|[]]; reflexivity. Qed.

Lemma shr_m_record_of_loc m l : shr_m (shr_record_of_loc m l) = m.
Proof. destruct l as [|[]]; reflexivity. Qed.

Lemma round_nearest_even_cases m l :
  round_nearest_even m l = m \/
  (inexact l = true /\ round_nearest_even m l = m + 1).
Proof.
  destruct l as [|[]]; cbn; auto.
  destruct (Z.even m); auto.
Qed.

Lemma iter_xO_shift d : forall m, Zpos (Pos.iter xO m d) = Zpos m * 2 ^ Zpos d.
Proof.
  induction d using Pos.peano_ind; intros m.
  - cbn [Pos.iter]. rewrite (Pos2Z.inj_xO m). change (2 ^ 1) with 2. ring.
  - rewrite Pos.iter_succ, (Pos2Z.inj_xO (Pos.iter xO m d)), IHd, Pos2Z.inj_succ, Z.pow_succ_r by lia. ring.
Qed.

Lemma shl_align_spec m e e' :
  let '(m', e'') := shl_align m e e' in
  e'' = Z.min e e' /\ Zpos m' = Zpos m * 2 ^ (e - e'').
Proof.
  unfold shl_align. destruct (e' - e) as [|d|d] eqn:Ed.
  - split; [lia|]. replace (e - e) with 0 by lia. lia.
  - split; [lia|]. replace (e - e) with 0 by lia. lia.
  - split; [lia|]. rewrite iter_xO_shift. f_equal. f_equal. lia.
Qed.

Lemma Zdigits2_shift m k : 0 < m -> 0 <= k -> Zdigits2 (m * 2 ^ k) = Zdigits2 m + k.
Proof.
  intros Hm Hk. pose proof (Zdigits2_bounds m Hm) as [H1 H2].
  pose proof (Zdigits2_pos m Hm).
  assert (0 < 2 ^ k) by (apply Z.pow_pos_nonneg; lia).
  apply Zdigits2_unique; [lia|].
  replace (Zdigits2 m + k - 1) with ((Zdigits2 m - 1) + k) by lia.
  rewrite !Z.pow_add_r by lia. split; nia.
Qed.

Lemma new_location_inexact nb k :
  inexact (new_location nb k) = negb (k =? 0).
Proof.
  unfold new_location, new_location_even, new_location_odd.
  destruct (Z.even nb), (k =? 0); reflexivity.
Qed.

Section Rounding.

Variables prec emax : Z.
Hypothesis prec_pos : 0 < prec.
Hypothesis prec_lt_emax : prec < emax.

Local Abbreviation fexp := (SpecFloat.fexp prec emax).
Local Abbreviation emin := (SpecFloat.emin prec emax).

Lemma fexp_mono a b : a <= b -> fexp a <= fexp b.
Proof. unfold SpecFloat.fexp. lia. Qed.

Lemma fexp_ge_emin a : emin <= fexp a.
Proof. unfold SpecFloat.fexp. lia. Qed.

Lemma shr_fexp_bracket v m e l :
  0 <= m -> e <= fexp (Zdigits2 m + e) -> bracket v m e l ->
  exists mrs,
    shr_fexp prec emax m e l = (mrs, fexp (Zdigits2 m + e)) /\
    shr_m mrs = m / 2 ^ (fexp (Zdigits2 m + e) - e) /\
    bracket v (shr_m mrs) (fexp (Zdigits2 m + e)) (loc_of_shr_record mrs).
Proof.
  intros Hm He Hb. unfold shr_fexp, shr.
  destruct (fexp (Zdigits2 m + e) - e) as [|n|n] eqn:En; try lia.
  - exists (shr_record_of_loc m l).
    rewrite shr_m_record_of_loc, loc_of_shr_record_of_loc.
    replace (fexp (Zdigits2 m + e)) with e by lia.
    rewrite Z.div_1_r. auto.
  - pose proof (iter_shr_1_bracket v n (shr_record_of_loc m l) e) as H.
    rewrite shr_m_record_of_loc, loc_of_shr_record_of_loc in H.
    destruct (H Hm Hb) as [B E].
    exists (iter_pos shr_1 n (shr_record_of_loc m l)).
    replace (fexp (Zdigits2 m + e)) with (e + Zpos n) by lia.
    repeat split; assumption.
Qed.

(** What [binary_round_aux] builds from the rounded mantissa. *)
Definition pack (sx : bool) (m e : Z) : spec_float :=
  match m with
  | Z0 => S754_zero sx
  | Zpos p => if e <=? emax - prec then S754_finite sx p e else S754_infinity sx
  | Zneg _ => S754_nan
  end.

Lemma shr_fexp_exact_id m e :
  fexp (Zdigits2 m + e) <= e ->
  shr_fexp prec emax m e loc_Exact = (shr_record_of_loc m loc_Exact, e).
Proof.
  intros H. unfold shr_fexp, shr.
  destruct (fexp (Zdigits2 m + e) - e) eqn:En; try lia; reflexivity.
Qed.

Lemma pow2_digits n : 0 <= n -> Zdigits2 (2 ^ n) = n + 1.
Proof.
  intros Hn. apply Zdigits2_unique.
  - apply Z.pow_pos_nonneg; lia.
  - replace (n + 1 - 1) with n by lia. split; [lia|].
    apply Z.pow_lt_mono_r; lia.
Qed.

Lemma digits_le_prec m : 0 < m -> m < 2 ^ prec -> Zdigits2 m <= prec.
Proof.
  intros Hm Hlt. pose proof (Zdigits2_bounds m Hm) as [H1 _].
  destruct (Z_le_gt_dec (Zdigits2 m) prec) as [|Hgt]; [assumption|].
  assert (2 ^ prec <= 2 ^ (Zdigits2 m - 1)) by (apply Z.pow_le_mono_r; lia). lia.
Qed.

Lemma digits_ge_prec m : 2 ^ (prec - 1) <= m -> prec <= Zdigits2 m.
Proof.
  intros Hge.
  assert (Hm : 0 < m) by (pose proof (Z.pow_pos_nonneg 2 (prec - 1)); lia).
  pose proof (Zdigits2_bounds m Hm) as [_ H2].
  destruct (Z_le_gt_dec prec (Zdigits2 m)) as [|Hgt]; [assumption|].
  assert (2 ^ Zdigits2 m <= 2 ^ (prec - 1)) by (apply Z.pow_le_mono_r; lia). lia.
Qed.

Theorem binary_round_aux_spec sx mx ex lx v :
  0 < mx -> ex <= fexp (Zdigits2 mx + ex) -> bracket v mx ex lx ->
  let e0 := fexp (Zdigits2 mx + ex) in
  let m0 := mx / 2 ^ (e0 - ex) in
  exists m e,
    binary_round_aux prec emax sx mx ex lx = pack sx m e /\
    0 <= m /\
    (0 < m -> fexp (Zdigits2 m + e) = e) /\
    (e0 <= e) /\
    (F2R m0 e0 <= v < F2R (m0 + 1) e0)%R /\
    (F2R m e = F2R m0 e0 \/ (F2R m0 e0 < v)%R /\ F2R m e = F2R (m0 + 1) e0).
Proof.
  intros Hmx Hex Hb e0 m0.
  destruct (shr_fexp_bracket v mx ex lx) as (mrs & E1 & Em & B1); try lia; try assumption.
  fold e0 in E1, Em, B1. fold m0 in Em. rewrite Em in B1.
  unfold binary_round_aux. rewrite E1, Em.
  set (l1 := loc_of_shr_record mrs) in *.
  set (m1 := round_nearest_even m0 l1).
  pose proof (Zdigits2_bounds mx Hmx) as [Hd1 Hd2].
  pose proof (Zdigits2_pos mx Hmx) as Hdpos.
  assert (Hn : 0 <= e0 - ex) by lia.
  assert (Hpn : 0 < 2 ^ (e0 - ex)) by (apply Z.pow_pos_nonneg; lia).
  assert (Hm0 : 0 <= m0) by (apply Z.div_pos; lia).
  assert (Hm0lt : m0 < 2 ^ prec).
  { apply Z.div_lt_upper_bound; [assumption|].
    rewrite <- Z.pow_add_r by lia.
    apply Z.lt_le_trans with (1 := Hd2).
    apply Z.pow_le_mono_r; [lia|]. unfold e0, SpecFloat.fexp. lia. }
  assert (Hm0ge : emin < e0 -> 2 ^ (prec - 1) <= m0).
  { intros Hlt. apply Z.div_le_lower_bound; [assumption|].
    rewrite <- Z.pow_add_r by lia.
    apply Z.le_trans with (2 := Hd1).
    apply Z.pow_le_mono_r; [lia|]. unfold e0, SpecFloat.fexp in *. lia. }
  assert (Hcell : (F2R m0 e0 <= v < F2R (m0 + 1) e0)%R).
  { unfold bracket in B1. destruct (inexact l1); [lra|].
    rewrite B1, F2R_succ. pose proof (bpow_pos e0). lra. }
  assert (Hm1 : m1 = m0 \/ ((F2R m0 e0 < v)%R /\ m1 = m0 + 1)).
  { destruct (round_nearest_even_cases m0 l1) as [H|[Hi H]]; [left; exact H|].
    right. split; [|exact H]. unfold bracket in B1. rewrite Hi in B1. lra. }
  assert (He0 : emin <= e0) by apply fexp_ge_emin.
  destruct (Z_lt_le_dec m1 (2 ^ prec)) as [Hlt|Hge].
  - (* no carry *)
    exists m1, e0.
    assert (Hfe : fexp (Zdigits2 m1 + e0) <= e0).
    { destruct (Z.eq_dec m1 0) as [->|Hnz].
      - cbn [Zdigits2]. unfold SpecFloat.fexp. lia.
      - pose proof (digits_le_prec m1 ltac:(lia) Hlt). unfold SpecFloat.fexp. lia. }
    rewrite shr_fexp_exact_id by assumption. cbn [shr_record_of_loc shr_m].
    refine (conj _ (conj _ (conj _ (conj _ (conj Hcell _))))); try lia.
    + unfold pack. destruct m1; reflexivity.
    + intros Hpos. apply Z.le_antisymm; [assumption|].
      destruct (Z.eq_dec e0 emin) as [->|Hne]; [apply fexp_ge_emin|].
      assert (prec <= Zdigits2 m1) by (apply digits_ge_prec; lia).
      unfold SpecFloat.fexp. lia.
    + destruct Hm1 as [->|[Hv ->]]; [left; reflexivity | right; split; [assumption|reflexivity]].
  - (* the mantissa reached 2^prec *)
    assert (E : m1 = 2 ^ prec) by lia.
    assert (Hpp : 0 < 2 ^ (prec - 1)) by (apply Z.pow_pos_nonneg; lia).
    assert (Hp2 : 2 ^ prec = 2 * 2 ^ (prec - 1)).
    { replace prec with (Z.succ (prec - 1)) at 1 by lia. apply Z.pow_succ_r. lia. }
    exists (2 ^ (prec - 1)), (e0 + 1).
    assert (Hsh : shr_fexp prec emax m1 e0 loc_Exact
                  = (shr_1 (shr_record_of_loc m1 loc_Exact), e0 + 1)).
    { unfold shr_fexp, shr. rewrite E, pow2_digits by lia.
      replace (fexp (prec + 1 + e0) - e0) with 1 by (unfold SpecFloat.fexp; lia).
      reflexivity. }
    rewrite Hsh.
    assert (Hs1 : shr_m (shr_1 (shr_record_of_loc m1 loc_Exact)) = 2 ^ (prec - 1)).
    { destruct (shr_1_bracket (F2R m1 e0) (shr_record_of_loc m1 loc_Exact) e0) as [_ Hq].
      - cbn. lia.
      - cbn. reflexivity.
      - rewrite Hq. cbn [shr_record_of_loc shr_m]. rewrite E, Hp2.
        rewrite Z.mul_comm, Z.div_mul by lia. reflexivity. }
    rewrite Hs1.
    assert (HF : F2R (2 ^ (prec - 1)) (e0 + 1) = F2R m1 e0).
    { rewrite E, Hp2. unfold F2R. rewrite bpow_succ, mult_IZR. ring. }
    refine (conj _ (conj _ (conj _ (conj _ (conj Hcell _))))); try lia.
    + unfold pack. destruct (2 ^ (prec - 1)); try lia; reflexivity.
    + intros _. replace (prec - 1) with (prec - 1) by lia.
      rewrite pow2_digits by lia. unfold SpecFloat.fexp. lia.
    + rewrite HF. destruct Hm1 as [H|[Hv H]]; [lia|]. right. split; [assumption|].
      rewrite H. reflexivity.
Qed.

(** A positive dyadic that sits on its own grid: every double does. *)
Definition repr (m e : Z) : Prop := 0 < m /\ fexp (Zdigits2 m + e) <= e.

Lemma bracket_ge v m e l : bracket v m e l -> (F2R m e <= v)%R.
Proof. unfold bracket. destruct (inexact l); lra. Qed.

Lemma bracket_lt v m e l : bracket v m e l -> (v < F2R (m + 1) e)%R.
Proof.
  unfold bracket. destruct (inexact l); [lra|]. intros ->.
  rewrite F2R_succ. pose proof (bpow_pos e). lra.
Qed.

(** Comparing magnitudes gives a comparison of binades. *)
Lemma digits_le_of_F2R_le m1 e1 m2 e2 :
  0 < m1 -> 0 < m2 -> (F2R m1 e1 <= F2R m2 e2)%R ->
  Zdigits2 m1 + e1 <= Zdigits2 m2 + e2.
Proof.
  intros H1 H2 Hle.
  pose proof (F2R_digits m1 e1 H1) as [L1 _].
  pose proof (F2R_digits m2 e2 H2) as [_ U2].
  assert (Hlt : (bpow (Zdigits2 m1 + e1 - 1) < bpow (Zdigits2 m2 + e2))%R) by lra.
  apply bpow_lt_inv in Hlt. lia.
Qed.

Lemma F2R_on_grid m e e0 : e0 <= e -> F2R m e = F2R (m * 2 ^ (e - e0)) e0.
Proof.
  intros H. rewrite F2R_shift by lia. f_equal. lia.
Qed.

Lemma canonical_exp_le m e mG eG :
  0 < m -> fexp (Zdigits2 m + e) = e -> repr mG eG ->
  (F2R m e <= F2R mG eG)%R -> e <= eG.
Proof.
  intros Hm Hc [HG1 HG2] Hle.
  pose proof (digits_le_of_F2R_le _ _ _ _ Hm HG1 Hle).
  pose proof (fexp_mono _ _ H). lia.
Qed.

(** Rounding never crosses a representable number. *)
Theorem binary_round_aux_bounds sx mx ex lx v :
  0 < mx -> ex <= fexp (Zdigits2 mx + ex) -> bracket v mx ex lx ->
  exists m e,
    binary_round_aux prec emax sx mx ex lx = pack sx m e /\
    0 <= m /\
    (0 < m -> fexp (Zdigits2 m + e) = e) /\
    (forall mG eG, repr mG eG -> (v <= F2R mG eG)%R -> (F2R m e <= F2R mG eG)%R) /\
    (forall mG eG, repr mG eG -> (F2R mG eG <= v)%R -> (F2R mG eG <= F2R m e)%R).
Proof.
  intros Hmx Hex Hb.
  destruct (binary_round_aux_spec sx mx ex lx v Hmx Hex Hb)
    as (m & e & Hr & Hm & Hc & He & Hcell & Hval).
  set (e0 := fexp (Zdigits2 mx + ex)) in *.
  set (m0 := mx / 2 ^ (e0 - ex)) in *.
  exists m, e. refine (conj Hr (conj Hm (conj Hc (conj _ _)))).
  - intros mG eG [HG1 HG2] Hle.
    destruct Hval as [-> | [Hlt ->]]; [lra|].
    assert (HD : Zdigits2 mx + ex <= Zdigits2 mG + eG).
    { apply digits_le_of_F2R_le; try assumption.
      apply bracket_ge in Hb. lra. }
    assert (He0 : e0 <= eG) by (pose proof (fexp_mono _ _ HD); unfold e0; lia).
    rewrite (F2R_on_grid mG eG e0 He0) in *.
    apply F2R_le. assert (m0 < mG * 2 ^ (eG - e0)) by (apply (F2R_lt_inv _ _ e0); lra). lia.
  - intros mG eG [HG1 HG2] Hge.
    apply Rle_trans with (F2R m0 e0); [|destruct Hval as [-> | [Hlt ->]]; [lra|apply F2R_le; lia]].
    pose proof (Zdigits2_bounds mx Hmx) as [Hd1 Hd2].
    pose proof (Zdigits2_pos mx Hmx) as Hdpos.
    assert (Hup : (v < bpow (Zdigits2 mx + ex))%R).
    { apply bracket_lt in Hb. apply Rlt_le_trans with (1 := Hb).
      rewrite bpow_add, bpow_IZR by lia. unfold F2R.
      apply Rmult_le_compat_r; [left; apply bpow_pos|]. apply IZR_le. lia. }
    assert (HD : Zdigits2 mG + eG <= Zdigits2 mx + ex).
    { pose proof (F2R_digits mG eG HG1) as [L _].
      assert (Hlt : (bpow (Zdigits2 mG + eG - 1) < bpow (Zdigits2 mx + ex))%R) by lra.
      apply bpow_lt_inv in Hlt. lia. }
    assert (Hpn : 0 < 2 ^ (e0 - ex)) by (apply Z.pow_pos_nonneg; lia).
    destruct (Z.eq_dec (Zdigits2 mG + eG) (Zdigits2 mx + ex)) as [Heq|Hne].
    + assert (He0 : e0 <= eG) by (unfold e0; rewrite <- Heq; lia).
      rewrite (F2R_on_grid mG eG e0 He0) in *.
      apply F2R_le. assert (mG * 2 ^ (eG - e0) < m0 + 1) by (apply (F2R_lt_inv _ _ e0); lra). lia.
    + pose proof (F2R_digits mG eG HG1) as [_ U].
      destruct (Z_lt_le_dec (e0 - ex) (Zdigits2 mx)) as [Hn|Hn].
      * apply Rle_trans with (bpow (Zdigits2 mx + ex - 1)).
        { left. apply Rlt_le_trans with (1 := U). apply bpow_le. lia. }
        replace (Zdigits2 mx + ex - 1) with ((Zdigits2 mx - 1 - (e0 - ex)) + e0) by lia.
        rewrite bpow_add, bpow_IZR by lia. unfold F2R.
        apply Rmult_le_compat_r; [left; apply bpow_pos|]. apply IZR_le.
        apply Z.div_le_lower_bound; [assumption|].
        rewrite <- Z.pow_add_r by lia.
        replace (e0 - ex + (Zdigits2 mx - 1 - (e0 - ex))) with (Zdigits2 mx - 1) by lia.
        assumption.
      * exfalso.
        assert (E0 : e0 = emin) by (unfold e0, SpecFloat.fexp in *; lia).
        assert (HeG : emin <= eG) by (pose proof (fexp_ge_emin (Zdigits2 mG + eG)); lia).
        assert (L : (bpow eG <= F2R mG eG)%R).
        { unfold F2R. rewrite <- (Rmult_1_l (bpow eG)) at 1.
          apply Rmult_le_compat_r; [left; apply bpow_pos|]. apply IZR_le. lia. }
        assert (L2 : (bpow (Zdigits2 mx + ex) <= bpow eG)%R) by (apply bpow_le; lia).
        lra.
Qed.

(** [binary_round] first brings the mantissa onto the grid of its
    binade, then rounds; the value it starts from is exact. *)
Theorem binary_round_bounds sx mx ex :
  exists m e,
    binary_round prec emax sx mx ex = pack sx m e /\
    0 <= m /\
    (0 < m -> fexp (Zdigits2 m + e) = e) /\
    (forall mG eG, repr mG eG -> (F2R (Zpos mx) ex <= F2R mG eG)%R ->
                   (F2R m e <= F2R mG eG)%R) /\
    (forall mG eG, repr mG eG -> (F2R mG eG <= F2R (Zpos mx) ex)%R ->
                   (F2R mG eG <= F2R m e)%R).
Proof.
  unfold binary_round.
  pose proof (shl_align_spec mx ex (fexp (Zpos (digits2_pos mx) + ex))) as H.
  destruct (shl_align mx ex (fexp (Zpos (digits2_pos mx) + ex))) as [mz ez].
  destruct H as [Hez Hmz].
  change (Zpos (digits2_pos mx)) with (Zdigits2 (Zpos mx)) in *.
  assert (Hd : Zdigits2 (Zpos mz) + ez = Zdigits2 (Zpos mx) + ex).
  { rewrite Hmz, Zdigits2_shift by lia. lia. }
  assert (Hv : F2R (Zpos mx) ex = F2R (Zpos mz) ez).
  { rewrite Hmz, F2R_shift by lia. f_equal. lia. }
  rewrite Hv.
  apply binary_round_aux_bounds; try assumption; try lia.
  - rewrite Hd. lia.
  - reflexivity.
Qed.

(** *** Non-negative doubles and their order *)

Definition nonneg_double (x : spec_float) : bool :=
  match x with
  | S754_zero false => true
  | S754_finite false m e => bounded prec emax m e
  | _ => false
  end.

Definition SF2R (x : spec_float) : R :=
  match x with
  | S754_finite s m e => F2R (cond_Zopp s (Zpos m)) e
  | _ => 0%R
  end.

Lemma bounded_canonical m e :
  bounded prec emax m e = true ->
  fexp (Zdigits2 (Zpos m) + e) = e /\ e <= emax - prec.
Proof.
  unfold bounded, canonical_mantissa. rewrite andb_true_iff, Z.eqb_eq, Z.leb_le.
  auto.
Qed.

Lemma bounded_repr m e : bounded prec emax m e = true -> repr (Zpos m) e.
Proof. intros H. apply bounded_canonical in H. split; lia. Qed.

Lemma F2R_pos m e : 0 < m -> (0 < F2R m e)%R.
Proof.
  intros H. unfold F2R. apply Rmult_lt_0_compat; [apply IZR_lt; lia | apply bpow_pos].
Qed.

Lemma canonical_exp_lt m1 e1 m2 e2 :
  fexp (Zdigits2 (Zpos m1) + e1) = e1 -> fexp (Zdigits2 (Zpos m2) + e2) = e2 ->
  e1 < e2 -> (F2R (Zpos m1) e1 < F2R (Zpos m2) e2)%R.
Proof.
  intros C1 C2 Hlt.
  assert (HD : Zdigits2 (Zpos m1) + e1 < Zdigits2 (Zpos m2) + e2).
  { destruct (Z_lt_le_dec (Zdigits2 (Zpos m1) + e1) (Zdigits2 (Zpos m2) + e2)) as [|Hle];
      [assumption|].
    pose proof (fexp_mono _ _ Hle). lia. }
  pose proof (F2R_digits (Zpos m1) e1 ltac:(lia)) as [_ U].
  pose proof (F2R_digits (Zpos m2) e2 ltac:(lia)) as [L _].
  assert (bpow (Zdigits2 (Zpos m1) + e1) <= bpow (Zdigits2 (Zpos m2) + e2 - 1))%R
    by (apply bpow_le; lia).
  lra.
Qed.

Lemma SFcompare_nonneg x y :
  nonneg_double x = true -> nonneg_double y = true ->
  match SFcompare x y with
  | Some Lt => (SF2R x < SF2R y)%R
  | Some Eq => SF2R x = SF2R y
  | Some Gt => (SF2R y < SF2R x)%R
  | None => False
  end.
Proof.
  destruct x as [[]| | |[] m1 e1], y as [[]| | |[] m2 e2]; try discriminate;
    cbn [nonneg_double SFcompare SF2R cond_Zopp]; intros H1 H2;
    try reflexivity; try (apply F2R_pos; lia).
  apply bounded_canonical in H1, H2. destruct H1 as [C1 _], H2 as [C2 _].
  destruct (Z.compare_spec e1 e2) as [->|Hlt|Hgt].
  - change (Pos.compare_cont Eq m1 m2) with (Pos.compare m1 m2).
    destruct (Pos.compare_spec m1 m2) as [->|H|H].
    + reflexivity.
    + apply F2R_lt. lia.
    + apply F2R_lt. lia.
  - apply canonical_exp_lt; assumption.
  - apply canonical_exp_lt; assumption.
Qed.

Lemma SFleb_nonneg x y :
  nonneg_double x = true -> nonneg_double y = true ->
  (SFleb x y = true <-> (SF2R x <= SF2R y)%R).
Proof.
  intros H1 H2. pose proof (SFcompare_nonneg x y H1 H2) as H.
  unfold SFleb. destruct (SFcompare x y) as [[]|]; try contradiction;
    split; intros; try reflexivity; try discriminate; lra.
Qed.

Lemma SFltb_nonneg x y :
  nonneg_double x = true -> nonneg_double y = true ->
  (SFltb x y = true <-> (SF2R x < SF2R y)%R).
Proof.
  intros H1 H2. pose proof (SFcompare_nonneg x y H1 H2) as H.
  unfold SFltb. destruct (SFcompare x y) as [[]|]; try contradiction;
    split; intros; try reflexivity; try discriminate; lra.
Qed.

(** *** What a rounding returns, between two doubles *)

Lemma pack_nonneg_le m e mG eG :
  0 <= m -> (0 < m -> fexp (Zdigits2 m + e) = e) ->
  repr mG eG -> eG <= emax - prec ->
  (F2R m e <= F2R mG eG)%R ->
  nonneg_double (pack false m e) = true /\ SF2R (pack false m e) = F2R m e.
Proof.
  intros Hm Hc HG HeG Hle. destruct m as [|p|p]; try lia.
  - cbn. unfold F2R. split; [reflexivity | ring].
  - assert (He : e <= eG) by (apply (canonical_exp_le (Zpos p) e mG eG); auto; lia).
    unfold pack. replace (e <=? emax - prec) with true by (symmetry; apply Z.leb_le; lia).
    cbn [nonneg_double SF2R cond_Zopp]. split; [|reflexivity].
    unfold bounded, canonical_mantissa. rewrite andb_true_iff, Z.eqb_eq, Z.leb_le.
    split; [apply Hc; lia | lia].
Qed.

Lemma emin_le_0 : emin <= 0.
Proof. unfold SpecFloat.emin. lia. Qed.

Lemma SF2R_nonneg x : nonneg_double x = true -> (0 <= SF2R x)%R.
Proof.
  destruct x as [[]| | |[] m e]; try discriminate; cbn; intros _; try lra.
  left. apply F2R_pos. lia.
Qed.

(** *** Multiplication *)

Theorem SFmul_nonneg_le x m2 e2 mG eG :
  nonneg_double x = true ->
  bounded prec emax m2 e2 = true -> Zdigits2 (Zpos m2) = prec ->
  repr mG eG -> eG <= emax - prec ->
  (SF2R x * F2R (Zpos m2) e2 <= F2R mG eG)%R ->
  nonneg_double (SFmul prec emax x (S754_finite false m2 e2)) = true /\
  (SF2R (SFmul prec emax x (S754_finite false m2 e2)) <= F2R mG eG)%R.
Proof.
  intros Hx Hy Hd HG HeG Hle.
  destruct x as [[]| | |[] m1 e1]; try discriminate; cbn [SFmul xorb].
  - cbn. split; [reflexivity|]. left. apply F2R_pos. apply HG.
  - cbn [SF2R cond_Zopp] in Hle.
    assert (Hv : (F2R (Zpos m1) e1 * F2R (Zpos m2) e2)%R = F2R (Zpos (m1 * m2)) (e1 + e2)).
    { unfold F2R. rewrite Pos2Z.inj_mul, mult_IZR, bpow_add. ring. }
    rewrite Hv in Hle.
    destruct (binary_round_aux_bounds false (Zpos (m1 * m2)) (e1 + e2)
                loc_Exact (F2R (Zpos (m1 * m2)) (e1 + e2)))
      as (m & e & Hr & Hm & Hc & Hup & _); try lia.
    + (* enough digits *)
      pose proof (Zdigits2_bounds (Zpos m1) ltac:(lia)) as [A1 _].
      pose proof (Zdigits2_bounds (Zpos m2) ltac:(lia)) as [A2 _].
      pose proof (Zdigits2_pos (Zpos m1) ltac:(lia)) as P1.
      assert (Hdd : Zdigits2 (Zpos m1) + prec - 1 <= Zdigits2 (Zpos (m1 * m2))).
      { destruct (Z_le_gt_dec (Zdigits2 (Zpos m1) + prec - 1) (Zdigits2 (Zpos (m1 * m2))))
          as [|Hgt]; [assumption|exfalso].
        pose proof (Zdigits2_bounds (Zpos (m1 * m2)) ltac:(lia)) as [_ B].
        assert (2 ^ Zdigits2 (Zpos (m1 * m2)) <= 2 ^ (Zdigits2 (Zpos m1) - 1 + (prec - 1)))
          by (apply Z.pow_le_mono_r; lia).
        rewrite Z.pow_add_r in H by lia. rewrite Hd in A2.
        rewrite Pos2Z.inj_mul in B, H.
        assert (2 ^ (Zdigits2 (Zpos m1) - 1) * 2 ^ (prec - 1) <= Zpos m1 * Zpos m2).
        { apply Z.mul_le_mono_nonneg; try assumption; apply Z.pow_nonneg; lia. }
        lia. }
      unfold SpecFloat.fexp. lia.
    + reflexivity.
    + rewrite Hr.
      destruct (pack_nonneg_le m e mG eG Hm Hc HG HeG (Hup _ _ HG Hle)) as [N V].
      rewrite V. split; [exact N | exact (Hup _ _ HG Hle)].
Qed.

(** *** Addition *)

Lemma SFadd_finite_value m1 e1 m2 e2 :
  exists p,
    SFadd prec emax (S754_finite false m1 e1) (S754_finite false m2 e2)
    = binary_round prec emax false p (Z.min e1 e2) /\
    F2R (Zpos p) (Z.min e1 e2) = (F2R (Zpos m1) e1 + F2R (Zpos m2) e2)%R.
Proof.
  cbn [SFadd cond_Zopp].
  pose proof (shl_align_spec m1 e1 (Z.min e1 e2)) as H1.
  pose proof (shl_align_spec m2 e2 (Z.min e1 e2)) as H2.
  destruct (shl_align m1 e1 (Z.min e1 e2)) as [a ea].
  destruct (shl_align m2 e2 (Z.min e1 e2)) as [b eb].
  destruct H1 as [E1 A], H2 as [E2 B]. cbn [fst].
  exists (a + b)%positive. split; [reflexivity|].
  rewrite Pos2Z.inj_add. unfold F2R. rewrite plus_IZR, A, B, !mult_IZR.
  rewrite <- !bpow_IZR by lia.
  replace (bpow e1) with (bpow (e1 - ea) * bpow (Z.min e1 e2))%R
    by (rewrite <- bpow_add; f_equal; lia).
  replace (bpow e2) with (bpow (e2 - eb) * bpow (Z.min e1 e2))%R
    by (rewrite <- bpow_add; f_equal; lia).
  ring.
Qed.

Theorem SFadd_nonneg_between x y mL eL mU eU :
  nonneg_double x = true -> nonneg_double y = true ->
  repr mL eL -> repr mU eU -> eU <= emax - prec ->
  (F2R mL eL <= SF2R x + SF2R y <= F2R mU eU)%R ->
  nonneg_double (SFadd prec emax x y) = true /\
  (F2R mL eL <= SF2R (SFadd prec emax x y) <= F2R mU eU)%R.
Proof.
  intros Hx Hy HL HU HeU Hb.
  pose proof (F2R_pos mL eL (proj1 HL)) as HLpos.
  destruct x as [[]| | |[] m1 e1]; try discriminate;
    destruct y as [[]| | |[] m2 e2]; try discriminate.
  - cbn in Hb. lra.
  - cbn [SFadd]. split; [assumption|]. cbn [SF2R] in *. lra.
  - cbn [SFadd]. split; [assumption|]. cbn [SF2R] in *. lra.
  - destruct (SFadd_finite_value m1 e1 m2 e2) as (p & -> & Hv).
    cbn [SF2R cond_Zopp] in Hb. rewrite <- Hv in Hb.
    destruct (binary_round_bounds false p (Z.min e1 e2))
      as (m & e & -> & Hm & Hc & Hup & Hlo).
    destruct (pack_nonneg_le m e mU eU Hm Hc HU HeU (Hup _ _ HU (proj2 Hb))) as [N V].
    rewrite V. split; [exact N|]. split; [apply Hlo | apply Hup]; tauto.
Qed.

(** *** Division, away from underflow *)

Theorem SFdiv_pos_le m1 e1 m2 e2 mG eG :
  Zdigits2 (Zpos m1) <= prec ->
  emin <= Zdigits2 (Zpos m1) + e1 - (Zdigits2 (Zpos m2) + e2) - prec ->
  repr mG eG -> eG <= emax - prec ->
  (F2R (Zpos m1) e1 / F2R (Zpos m2) e2 <= F2R mG eG)%R ->
  let q := SFdiv prec emax (S754_finite false m1 e1) (S754_finite false m2 e2) in
  nonneg_double q = true /\ (SF2R q <= F2R mG eG)%R.
Proof.
  intros Hd1 Hnu HG HeG Hle q. subst q. cbn [SFdiv xorb].
  unfold SFdiv_core_binary.
  set (d1 := Zdigits2 (Zpos m1)) in *. set (d2 := Zdigits2 (Zpos m2)) in *.
  pose proof (Zdigits2_bounds (Zpos m1) ltac:(lia)) as [A1 B1].
  pose proof (Zdigits2_bounds (Zpos m2) ltac:(lia)) as [A2 B2].
  pose proof (Zdigits2_pos (Zpos m1) ltac:(lia)) as P1.
  pose proof (Zdigits2_pos (Zpos m2) ltac:(lia)) as P2.
  fold d1 d2 in A1, B1, A2, B2, P1, P2.
  assert (He' : Z.min (fexp (d1 + e1 - (d2 + e2))) (e1 - e2) = d1 + e1 - (d2 + e2) - prec)
    by (unfold SpecFloat.fexp; lia).
  rewrite He'. set (e' := d1 + e1 - (d2 + e2) - prec).
  assert (Hs : e1 - e2 - e' = prec + d2 - d1) by (unfold e'; lia).
  rewrite Hs.
  destruct (prec + d2 - d1) as [|s|s] eqn:Es; try lia.
  rewrite Z.shiftl_mul_pow2 by lia. rewrite <- Es.
  set (m' := Zpos m1 * 2 ^ (prec + d2 - d1)).
  pose proof (Z_div_mod_eq_full m' (Zpos m2)) as Hdm.
  pose proof (Z.mod_pos_bound m' (Zpos m2) ltac:(lia)) as Hr.
  unfold Z.div, Z.modulo in Hdm, Hr.
  destruct (Z.div_eucl m' (Zpos m2)) as [qq r].
  assert (Hpw : 0 < 2 ^ (prec + d2 - d1)) by (apply Z.pow_pos_nonneg; lia).
  assert (Hm'lo : 2 ^ (prec - 1) * 2 ^ d2 <= m').
  { unfold m'. rewrite <- Z.pow_add_r by lia.
    replace (prec - 1 + d2) with ((d1 - 1) + (prec + d2 - d1)) by lia.
    rewrite Z.pow_add_r by lia. nia. }
  assert (Hpp : 0 < 2 ^ (prec - 1)) by (apply Z.pow_pos_nonneg; lia).
  assert (Hq : 2 ^ (prec - 1) <= qq) by nia.
  set (v := (F2R (Zpos m1) e1 / F2R (Zpos m2) e2)%R) in *.
  assert (Hv : v = ((IZR qq + IZR r / IZR (Zpos m2)) * bpow e')%R).
  { unfold v, F2R.
    assert (IZR (Zpos m2) <> 0)%R by (apply not_0_IZR; lia).
    pose proof (bpow_pos e2). pose proof (bpow_pos e').
    replace (bpow e1) with (bpow (prec + d2 - d1) * bpow e' * bpow e2)%R
      by (rewrite <- !bpow_add; f_equal; unfold e'; lia).
    rewrite (bpow_IZR (prec + d2 - d1)) by lia.
    apply (f_equal IZR) in Hdm. rewrite plus_IZR, mult_IZR in Hdm.
    unfold m' in Hdm. rewrite mult_IZR in Hdm.
    field_simplify_eq; [|split; lra]. rewrite Hdm. ring. }
  assert (Hbr : bracket v qq e' (new_location (Zpos m2) r)).
  { unfold bracket. rewrite new_location_inexact.
    assert (0 < IZR (Zpos m2))%R by (apply IZR_lt; lia).
    pose proof (bpow_pos e').
    destruct (Z.eqb_spec r 0) as [->|Hr0]; cbn [negb].
    - rewrite Hv. unfold F2R, Rdiv. ring.
    - rewrite Hv, F2R_succ. unfold F2R.
      assert (0 < IZR r / IZR (Zpos m2) < 1)%R.
      { assert (0 < IZR r)%R by (apply IZR_lt; lia).
        assert (IZR r < IZR (Zpos m2))%R by (apply IZR_lt; lia).
        split; [apply Rdiv_lt_0_compat; assumption|].
        apply Rmult_lt_reg_r with (IZR (Zpos m2)); [assumption|].
        unfold Rdiv. rewrite Rmult_assoc, Rinv_l by lra. lra. }
      split; nra. }
  destruct (binary_round_aux_bounds false qq e'
              (new_location (Zpos m2) r) v)
    as (m & e & Hres & Hm & Hc & Hup & _); try assumption; try lia.
  - pose proof (digits_ge_prec qq Hq). unfold SpecFloat.fexp. lia.
  - rewrite Hres.
    destruct (pack_nonneg_le m e mG eG Hm Hc HG HeG (Hup _ _ HG Hle)) as [N V].
    rewrite V. split; [exact N | exact (Hup _ _ HG Hle)].
Qed.

(** *** Integers below [2^prec] are doubles *)

Theorem ofZ_exact z :
  0 < z < 2 ^ prec ->
  exists m e,
    binary_normalize prec emax z 0 false = S754_finite false m e /\
    bounded prec emax m e = true /\
    F2R (Zpos m) e = IZR z.
Proof.
  intros [Hz1 Hz2]. destruct z as [|p|p]; try lia. cbn [binary_normalize].
  destruct (binary_round_bounds false p 0)
    as (m & e & Hres & Hm & Hc & Hup & Hlo).
  assert (HG : repr (Zpos p) 0).
  { split; [lia|]. pose proof (digits_le_prec (Zpos p) ltac:(lia) Hz2).
    pose proof emin_le_0. unfold SpecFloat.fexp. lia. }
  pose proof (Hup _ _ HG (Rle_refl _)) as U.
  pose proof (Hlo _ _ HG (Rle_refl _)) as L.
  assert (E : F2R m e = F2R (Zpos p) 0) by lra.
  assert (Hmpos : 0 < m).
  { destruct (Z.eq_dec m 0) as [->|]; [|lia].
    rewrite F2R_0 in E. pose proof (F2R_pos (Zpos p) 0 ltac:(lia)). lra. }
  destruct (pack_nonneg_le m e (Zpos p) 0 Hm Hc HG ltac:(lia) U) as [N V].
  rewrite Hres in *. destruct m as [|m|m]; try lia.
  unfold pack in *.
  destruct (e <=? emax - prec); [|discriminate].
  exists m, e. split; [reflexivity|]. split; [exact N|].
  rewrite E. unfold F2R. rewrite bpow_0. ring.
Qed.

(** *** Subtraction: the sign of a difference of two positive doubles *)

Definition pos_double (x : spec_float) : bool :=
  match x with
  | S754_finite false m e => bounded prec emax m e
  | _ => false
  end.

Lemma pos_double_nonneg x : pos_double x = true -> nonneg_double x = true.
Proof. destruct x as [| | |[] m e]; try discriminate. exact (fun H => H). Qed.

Lemma binary_round_nonzero sx p e :
  emin <= e ->
  exists m e', binary_round prec emax sx p e = pack sx (Zpos m) e'.
Proof.
  intros He.
  destruct (binary_round_bounds sx p e) as (m & e' & Hr & Hm & _ & _ & Hlo).
  assert (HG : repr 1 e).
  { split; [lia|]. cbn [Zdigits2 digits2_pos]. unfold SpecFloat.fexp. lia. }
  assert (H1 : (F2R 1 e <= F2R (Zpos p) e)%R) by (apply F2R_le; lia).
  pose proof (Hlo _ _ HG H1) as L.
  pose proof (F2R_pos 1 e ltac:(lia)).
  destruct m as [|m|m]; try lia.
  - rewrite F2R_0 in L. lra.
  - exists m, e'. exact Hr.
Qed.

Lemma SFltb_zero_pack sx m e :
  SFltb (S754_zero false) (pack sx (Zpos m) e) = negb sx.
Proof.
  unfold pack. destruct (e <=? emax - prec), sx; reflexivity.
Qed.

Theorem SFsub_pos_sign x y :
  pos_double x = true -> pos_double y = true ->
  SFltb (S754_zero false) (SFsub prec emax x y) = true <-> (SF2R y < SF2R x)%R.
Proof.
  destruct x as [| | |[] m1 e1]; try discriminate;
    destruct y as [| | |[] m2 e2]; try discriminate.
  cbn [pos_double SF2R cond_Zopp]. intros B1 B2.
  apply bounded_canonical in B1, B2. destruct B1 as [C1 _], B2 as [C2 _].
  cbn [SFsub cond_Zopp].
  pose proof (shl_align_spec m1 e1 (Z.min e1 e2)) as H1.
  pose proof (shl_align_spec m2 e2 (Z.min e1 e2)) as H2.
  destruct (shl_align m1 e1 (Z.min e1 e2)) as [a ea].
  destruct (shl_align m2 e2 (Z.min e1 e2)) as [b eb].
  destruct H1 as [E1 A], H2 as [E2 B]. cbn [fst].
  assert (Hez : emin <= Z.min e1 e2).
  { pose proof (fexp_ge_emin (Zdigits2 (Zpos m1) + e1)).
    pose proof (fexp_ge_emin (Zdigits2 (Zpos m2) + e2)). lia. }
  assert (Hv : (F2R (Zpos m1) e1 - F2R (Zpos m2) e2)%R
               = F2R (Zpos a - Zpos b) (Z.min e1 e2)).
  { unfold F2R. rewrite minus_IZR, A, B, !mult_IZR.
    rewrite <- !bpow_IZR by lia.
    replace (bpow e1) with (bpow (e1 - ea) * bpow (Z.min e1 e2))%R
      by (rewrite <- bpow_add; f_equal; lia).
    replace (bpow e2) with (bpow (e2 - eb) * bpow (Z.min e1 e2))%R
      by (rewrite <- bpow_add; f_equal; lia).
    ring. }
  destruct (Zpos a - Zpos b) as [|p|p] eqn:Ez; cbn [binary_normalize].
  - rewrite F2R_0 in Hv. split; [discriminate | lra].
  - destruct (binary_round_nonzero false p (Z.min e1 e2) Hez) as (m & e' & ->).
    rewrite SFltb_zero_pack. cbn [negb].
    pose proof (F2R_pos (Zpos p) (Z.min e1 e2) ltac:(lia)).
    split; [lra | reflexivity].
  - destruct (binary_round_nonzero true p (Z.min e1 e2) Hez) as (m & e' & ->).
    rewrite SFltb_zero_pack. cbn [negb].
    assert ((F2R (Zneg p) (Z.min e1 e2) < 0)%R).
    { unfold F2R. pose proof (bpow_pos (Z.min e1 e2)).
      assert (IZR (Zneg p) < 0)%R by (apply IZR_lt; lia). nra. }
    split; [discriminate | lra].
Qed.

End Rounding.

End FloatTheory.

(* ===================================================================== *)
(** ** The doubles of the engine *)
(* ===================================================================== *)

Module Double.

Import FloatTheory.
Local Open Scope Z_scope.

Lemma prec_pos : 0 < prec.
Proof. reflexivity. Qed.

Lemma prec_lt_emax : prec < emax.
Proof. reflexivity. Qed.

(** The real number a double stands for. *)
Definition val (x : number) : R := SF2R x.

(** Zero or a positive finite double, in canonical form. *)
Definition nonneg (x : number) : bool := nonneg_double prec emax x.

(** A positive finite double, in canonical form. *)
Definition positive (x : number) : bool := pos_double prec emax x.

(** What [Math.random] may return: a double [x] with [0 <= x < 1]. *)
Definition unit_double (x : number) : bool := nonneg x && ltb x one.

(** The literals of the engine, as mantissa and exponent. *)
Lemma zero_eq : zero = S754_zero false.
Proof. reflexivity. Qed.

Lemma one_eq : one = S754_finite false 4503599627370496 (-52).
Proof. reflexivity. Qed.

Lemma c0_3_eq : c0_3 = S754_finite false 5404319552844595 (-54).
Proof. reflexivity. Qed.

Lemma c0_4_eq : c0_4 = S754_finite false 7205759403792794 (-54).
Proof. reflexivity. Qed.

Lemma c0_5_eq : c0_5 = S754_finite false 4503599627370496 (-53).
Proof. reflexivity. Qed.

Lemma c0_6_eq : c0_6 = S754_finite false 5404319552844595 (-53).
Proof. reflexivity. Qed.

Lemma c0_7_eq : c0_7 = S754_finite false 6305039478318694 (-53).
Proof. reflexivity. Qed.

Lemma c0_8_eq : c0_8 = S754_finite false 7205759403792794 (-53).
Proof. reflexivity. Qed.

Lemma c0_9_eq : c0_9 = S754_finite false 8106479329266893 (-53).
Proof. reflexivity. Qed.

(** Each literal is the double nearest to its decimal value [n/d]: the
    error [|m * 2^e - n/d|] is at most half a unit in the last place. *)
Definition nearest_to (n d : Z) (x : number) : bool :=
  match x with
  | S754_finite false m e => 2 * Z.abs (d * Zpos m - n * 2 ^ (- e)) <=? d
  | _ => false
  end.

Lemma literals_nearest :
  nearest_to 2 10 c0_2 = true /\ nearest_to 3 10 c0_3 = true /\
  nearest_to 4 10 c0_4 = true /\ nearest_to 5 10 c0_5 = true /\
  nearest_to 6 10 c0_6 = true /\ nearest_to 7 10 c0_7 = true /\
  nearest_to 8 10 c0_8 = true /\ nearest_to 9 10 c0_9 = true.
Proof. repeat split; vm_compute; reflexivity. Qed.

(** The processor's own binary64 arithmetic, reached through the kernel's
    primitive floats, returns the same doubles as the executable
    specification on the operations the counterexamples rest on. *)
Definition hw (op : PrimFloat.float -> PrimFloat.float -> PrimFloat.float)
  (a b : number) : number :=
  FloatOps.Prim2SF (op (FloatOps.SF2Prim a) (FloatOps.SF2Prim b)).

Lemma hardware_agrees :
  hw PrimFloat.div (ofZ 8) (ofZ 10) = c0_8 /\
  hw PrimFloat.div (ofZ 2) (ofZ 10) = c0_2 /\
  hw PrimFloat.div (ofZ 6) (ofZ 10) = c0_6 /\
  hw PrimFloat.mul (ofNat 1) c0_2 = mul (ofNat 1) c0_2 /\
  hw PrimFloat.mul (ofNat 3) c0_2 = mul (ofNat 3) c0_2 /\
  hw PrimFloat.sub c0_8 (mul (ofNat 1) c0_2) = sub c0_8 (mul (ofNat 1) c0_2) /\
  hw PrimFloat.sub c0_8 (mul (ofNat 3) c0_2) = sub c0_8 (mul (ofNat 3) c0_2) /\
  PrimFloat.leb (FloatOps.SF2Prim (sub c0_8 (mul (ofNat 1) c0_2)))
                (FloatOps.SF2Prim c0_6) = false /\
  PrimFloat.ltb (FloatOps.SF2Prim (sub c0_8 (mul (ofNat 3) c0_2)))
                (FloatOps.SF2Prim c0_2) = true.
Proof. repeat split; vm_compute; reflexivity. Qed.

(** Comparing and adding dyadic numbers through a common exponent. *)
Lemma F2R_le_aligned m1 e1 m2 e2 :
  (m1 * 2 ^ (e1 - Z.min e1 e2) <=? m2 * 2 ^ (e2 - Z.min e1 e2)) = true ->
  (F2R m1 e1 <= F2R m2 e2)%R.
Proof.
  intros H. apply Z.leb_le in H.
  rewrite (F2R_on_grid m1 e1 (Z.min e1 e2)), (F2R_on_grid m2 e2 (Z.min e1 e2)) by lia.
  apply F2R_le. exact H.
Qed.

Lemma F2R_plus_aligned m1 e1 m2 e2 :
  (F2R m1 e1 + F2R m2 e2)%R
  = F2R (m1 * 2 ^ (e1 - Z.min e1 e2) + m2 * 2 ^ (e2 - Z.min e1 e2)) (Z.min e1 e2).
Proof.
  rewrite (F2R_on_grid m1 e1 (Z.min e1 e2)), (F2R_on_grid m2 e2 (Z.min e1 e2)) by lia.
  unfold F2R. rewrite plus_IZR. ring.
Qed.

Lemma val_one : val one = 1%R.
Proof.
  rewrite one_eq. unfold val, SF2R, F2R. cbn [cond_Zopp].
  change 4503599627370496 with (2 ^ 52).
  rewrite <- bpow_IZR, <- bpow_add by lia. reflexivity.
Qed.

Lemma unit_double_spec r :
  unit_double r = true -> nonneg r = true /\ (0 <= val r < 1)%R.
Proof.
  unfold unit_double. rewrite andb_true_iff. intros [Hn Hlt].
  split; [exact Hn|]. split.
  - apply (SF2R_nonneg prec emax). exact Hn.
  - rewrite <- val_one. apply (SFltb_nonneg prec emax); auto.
Qed.

Lemma nonneg_positive x : nonneg x = true -> (0 < val x)%R -> positive x = true.
Proof.
  destruct x as [[]| | |[] m e]; try discriminate; cbn; try lra.
  intros H _. exact H.
Qed.

Lemma positive_nonneg x : positive x = true -> nonneg x = true.
Proof. apply pos_double_nonneg. Qed.

(** [a >= b] and [a < b] on doubles that are not negative are the order
    of the reals. *)
Lemma geb_val a b :
  nonneg a = true -> nonneg b = true -> (geb a b = true <-> (val b <= val a)%R).
Proof. intros Ha Hb. unfold geb. apply (SFleb_nonneg prec emax); assumption. Qed.

Lemma ltb_val a b :
  nonneg a = true -> nonneg b = true -> (ltb a b = true <-> (val a < val b)%R).
Proof. intros Ha Hb. unfold ltb. apply (SFltb_nonneg prec emax); assumption. Qed.

(** *** [Math.random() * 0.3 + 0.7] stays within [0.7, 1] *)

Theorem random_score_range r :
  unit_double r = true ->
  positive (add (mul r c0_3) c0_7) = true /\
  (val c0_7 <= val (add (mul r c0_3) c0_7) <= 1)%R.
Proof.
  intros Hr. apply unit_double_spec in Hr. destruct Hr as [Hn [H0 H1]].
  rewrite c0_3_eq, c0_7_eq.
  assert (HG3 : repr prec emax 5404319552844595 (-54)) by (apply bounded_repr; reflexivity).
  assert (HG7 : repr prec emax 6305039478318694 (-53)) by (apply bounded_repr; reflexivity).
  assert (HG1 : repr prec emax 4503599627370496 (-52)) by (apply bounded_repr; reflexivity).
  pose proof (F2R_pos 5404319552844595 (-54) ltac:(lia)) as P3.
  pose proof (F2R_pos 6305039478318694 (-53) ltac:(lia)) as P7.
  destruct (SFmul_nonneg_le prec emax prec_pos r 5404319552844595 (-54)
              5404319552844595 (-54)) as [Nm Um]; try reflexivity; try assumption.
  { unfold emax, prec. lia. }
  { unfold val in *. nra. }
  fold (mul r (S754_finite false 5404319552844595 (-54))) in Nm, Um.
  set (p := mul r (S754_finite false 5404319552844595 (-54))) in *.
  pose proof (SF2R_nonneg prec emax p Nm) as P0.
  destruct (SFadd_nonneg_between prec emax prec_pos p (S754_finite false 6305039478318694 (-53))
              6305039478318694 (-53) 4503599627370496 (-52)) as [Na [La Ua]];
    try reflexivity; try assumption.
  { unfold emax, prec. lia. }
  { cbn [SF2R cond_Zopp]. split; [lra|].
    apply Rle_trans with (F2R 5404319552844595 (-54) + F2R 6305039478318694 (-53))%R; [lra|].
    rewrite F2R_plus_aligned. apply F2R_le_aligned. reflexivity. }
  fold (add p (S754_finite false 6305039478318694 (-53))) in Na, La, Ua.
  split.
  - apply nonneg_positive; [exact Na|]. unfold val. lra.
  - unfold val. cbn [SF2R cond_Zopp]. split; [exact La|].
    rewrite <- val_one, one_eq. exact Ua.
Qed.

(** *** Array lengths are doubles *)

Lemma ofNat_0 : ofNat 0 = S754_zero false.
Proof. reflexivity. Qed.

Lemma ofNat_exact n :
  (0 < n)%nat -> Z.of_nat n < 2 ^ 53 ->
  exists m e,
    ofNat n = S754_finite false m e /\
    bounded prec emax m e = true /\
    F2R (Zpos m) e = IZR (Z.of_nat n).
Proof.
  intros H0 H1. apply (ofZ_exact prec emax prec_pos prec_lt_emax).
  unfold prec. lia.
Qed.

(** *** [0.5 + (k / n) * 0.4] stays within [0.5, 0.9] *)

Lemma ratio_range k n :
  (k <= n)%nat -> (0 < n)%nat -> Z.of_nat n < 2 ^ 53 ->
  nonneg (div (ofNat k) (ofNat n)) = true /\
  (val (div (ofNat k) (ofNat n)) <= 1)%R.
Proof.
  intros Hkn Hn Hlt.
  destruct (ofNat_exact n Hn Hlt) as (m2 & e2 & -> & B2 & V2).
  destruct (Nat.eq_dec k 0) as [->|Hk].
  - rewrite ofNat_0. cbn. split; [reflexivity | lra].
  - destruct (ofNat_exact k ltac:(lia) ltac:(lia)) as (m1 & e1 & -> & B1 & V1).
    pose proof (bounded_canonical prec emax m1 e1 B1) as [C1 _].
    pose proof (F2R_digits (Zpos m1) e1 ltac:(lia)) as [_ U1].
    pose proof (F2R_digits (Zpos m2) e2 ltac:(lia)) as [L2 _].
    assert (Hk1 : (1 <= IZR (Z.of_nat k))%R) by (apply IZR_le; lia).
    assert (Hn1 : (IZR (Z.of_nat n) < bpow 53)%R).
    { rewrite bpow_IZR by lia. apply IZR_lt. exact Hlt. }
    assert (D1 : 0 < Zdigits2 (Zpos m1) + e1).
    { apply bpow_lt_inv. rewrite bpow_0. lra. }
    assert (D2 : Zdigits2 (Zpos m2) + e2 - 1 < 53).
    { apply bpow_lt_inv. lra. }
    assert (HG : repr prec emax 1 0).
    { split; [lia|]. cbn [Zdigits2 digits2_pos]. unfold fexp, emin, emax, prec. lia. }
    destruct (SFdiv_pos_le prec emax prec_pos m1 e1 m2 e2 1 0) as [N U];
      try assumption.
    + unfold fexp, emin, emax, prec in *. lia.
    + unfold emin, emax, prec. lia.
    + unfold emax, prec. lia.
    + rewrite V1, V2. unfold F2R. rewrite bpow_0, Rmult_1_r.
      assert (0 < IZR (Z.of_nat n))%R by (apply IZR_lt; lia).
      assert (IZR (Z.of_nat k) <= IZR (Z.of_nat n))%R by (apply IZR_le; lia).
      apply Rmult_le_reg_r with (IZR (Z.of_nat n)); [assumption|].
      unfold Rdiv. rewrite Rmult_assoc, Rinv_l by lra. lra.
    + split; [exact N|]. unfold val, div.
      unfold F2R in U. rewrite bpow_0 in U. lra.
Qed.

Theorem harmony_range k n :
  (k <= n)%nat -> (0 < n)%nat -> Z.of_nat n < 2 ^ 53 ->
  nonneg (add c0_5 (mul (div (ofNat k) (ofNat n)) c0_4)) = true /\
  (val c0_5 <= val (add c0_5 (mul (div (ofNat k) (ofNat n)) c0_4)) <= val c0_9)%R.
Proof.
  intros Hkn Hn Hlt.
  destruct (ratio_range k n Hkn Hn Hlt) as [Nr Ur].
  set (ratio := div (ofNat k) (ofNat n)) in *.
  pose proof (SF2R_nonneg prec emax ratio Nr) as R0.
  rewrite c0_4_eq, c0_5_eq, c0_9_eq.
  assert (HG4 : repr prec emax 7205759403792794 (-54)) by (apply bounded_repr; reflexivity).
  assert (HG5 : repr prec emax 4503599627370496 (-53)) by (apply bounded_repr; reflexivity).
  assert (HG9 : repr prec emax 8106479329266893 (-53)) by (apply bounded_repr; reflexivity).
  pose proof (F2R_pos 7205759403792794 (-54) ltac:(lia)) as P4.
  destruct (SFmul_nonneg_le prec emax prec_pos ratio 7205759403792794 (-54)
              7205759403792794 (-54)) as [Nm Um]; try reflexivity; try assumption.
  { unfold emax, prec. lia. }
  { unfold val in *. nra. }
  fold (mul ratio (S754_finite false 7205759403792794 (-54))) in Nm, Um.
  set (p := mul ratio (S754_finite false 7205759403792794 (-54))) in *.
  pose proof (SF2R_nonneg prec emax p Nm) as P0.
  destruct (SFadd_nonneg_between prec emax prec_pos (S754_finite false 4503599627370496 (-53)) p
              4503599627370496 (-53) 8106479329266893 (-53)) as [Na [La Ua]];
    try reflexivity; try assumption.
  { unfold emax, prec. lia. }
  { cbn [SF2R cond_Zopp]. split; [lra|].
    apply Rle_trans with (F2R 4503599627370496 (-53) + F2R 7205759403792794 (-54))%R; [lra|].
    rewrite F2R_plus_aligned. apply F2R_le_aligned. reflexivity. }
  fold (add (S754_finite false 4503599627370496 (-53)) p) in Na, La, Ua.
  split; [exact Na|]. unfold val. cbn [SF2R cond_Zopp]. split; assumption.
Qed.

(** *** Sorting by a key, in decreasing order *)

Section SortByKey.

Context {A : Type} (key : A -> number).

Definition by_key_desc (a b : A) : number := sub (key b) (key a).

Definition key_ge (a b : A) : Prop := (val (key b) <= val (key a))%R.

Lemma sort_insert_perm (comparefn : A -> A -> number) x l :
  Permutation (sort_insert comparefn x l) (x :: l).
Proof.
  induction l as [|y l IH]; cbn [sort_insert].
  - apply Permutation_refl.
  - destruct (gtb (comparefn x y) zero).
    + apply perm_trans with (y :: x :: l); [apply perm_skip; exact IH | apply perm_swap].
    + apply Permutation_refl.
Qed.

Lemma Array_sort_perm (comparefn : A -> A -> number) l :
  Permutation (Array_sort comparefn l) l.
Proof.
  induction l as [|x l IH]; cbn [Array_sort fold_right].
  - apply perm_nil.
  - apply perm_trans with (x :: Array_sort comparefn l).
    + apply sort_insert_perm.
    + apply perm_skip. exact IH.
Qed.

Lemma gtb_by_key_desc x y :
  positive (key x) = true -> positive (key y) = true ->
  gtb (by_key_desc x y) zero = true <-> (val (key x) < val (key y))%R.
Proof.
  intros Hx Hy. unfold gtb, by_key_desc. rewrite zero_eq.
  apply (SFsub_pos_sign prec emax prec_pos); assumption.
Qed.

Lemma sort_insert_sorted x l :
  positive (key x) = true ->
  Forall (fun a => positive (key a) = true) l ->
  StronglySorted key_ge l ->
  StronglySorted key_ge (sort_insert by_key_desc x l).
Proof.
  intros Hx Hl Hs. induction Hs as [|y l Hs IH Hy]; cbn [sort_insert].
  - constructor; constructor.
  - inversion Hl as [|? ? Py Pl]; subst.
    destruct (gtb (by_key_desc x y) zero) eqn:E.
    + apply (gtb_by_key_desc x y Hx Py) in E.
      constructor; [apply IH; exact Pl|].
      apply (Permutation_Forall (Permutation_sym (sort_insert_perm by_key_desc x l))).
      constructor; [unfold key_ge; lra | exact Hy].
    + assert (Hge : (val (key y) <= val (key x))%R).
      { destruct (Rle_or_lt (val (key y)) (val (key x))) as [|Hlt]; [assumption|].
        apply (gtb_by_key_desc x y Hx Py) in Hlt. congruence. }
      constructor; [constructor; assumption|].
      constructor; [exact Hge|].
      apply Forall_impl with (2 := Hy). unfold key_ge. intros a Ha. lra.
Qed.

Lemma Array_sort_sorted l :
  Forall (fun a => positive (key a) = true) l ->
  StronglySorted key_ge (Array_sort by_key_desc l).
Proof.
  induction l as [|x l IH]; intros H; cbn [Array_sort fold_right].
  - constructor.
  - inversion H as [|? ? Px Pl]; subst. apply sort_insert_sorted.
    + exact Px.
    + apply (Permutation_Forall (Permutation_sym (Array_sort_perm by_key_desc l))). exact Pl.
    + apply IH. exact Pl.
Qed.

End SortByKey.

End Double.

Import StyleAIEngine.
Import Double.

(* ===================================================================== *)
(** ** Style coherence *)
(* ===================================================================== *)

(** The same outfit, with other style tags. *)
Definition with_style (o : Outfit) (styles : list string) : Outfit :=
  {| outfit_id := outfit_id o; timestamp := timestamp o; photoPaths := photoPaths o;
     tags := {| occasion := occasion (tags o); season := season (tags o);
                style := styles; mood := mood (tags o);
                colors := colors (tags o); garments := garments (tags o);
                formalityLevel := formalityLevel (tags o);
                effortLevel := effortLevel (tags o) |};
     context := context o; ratings := ratings o; notes := notes o;
     aiAnalysis := aiAnalysis o; createdAt := createdAt o;
     updatedAt := updatedAt o |}.

(** [styles] without the tag [t]. *)
Definition without (t : string) (styles : list string) : list string :=
  filter (fun s => negb (String.eqb t s)) styles.

(** The number of pairs of the table with both members among [styles]. *)
Definition conflicting_pairs (styles : list string) : nat :=
  List.length
    (filter (fun p => includes styles (fst p) && includes styles (snd p)) conflicts).

(** The coherence after [c] conflicts: [max(0, min(1, 0.8 - c * 0.2))]. *)
Definition coherence_of (c : nat) : number :=
  Math_max zero (Math_min one (sub c0_8 (mul (ofNat c) c0_2))).

(** [0.8 - 0.2] in double arithmetic: 0.6000000000000001, one unit in the
    last place above the literal [0.6]. *)
Definition d0_6000000000000001 : number := S754_finite false 5404319552844596 (-53).

(** [0.8 - 3 * 0.2] in double arithmetic: 0.19999999999999996, below the
    literal [0.2]. *)
Definition d0_19999999999999996 : number := S754_finite false 7205759403792792 (-55).

Lemma includes_In arr x : includes arr x = true <-> In x arr.
Proof.
  unfold includes. rewrite existsb_exists. split.
  - intros (y & Hy & E). apply String.eqb_eq in E. subst. exact Hy.
  - intros H. exists x. split; [exact H | apply String.eqb_refl].
Qed.

Lemma includes_without_same t styles : includes (without t styles) t = false.
Proof.
  destruct (includes (without t styles) t) eqn:E; [|reflexivity].
  apply includes_In in E. unfold without in E. apply filter_In in E.
  destruct E as [_ E]. rewrite String.eqb_refl in E. discriminate.
Qed.

Lemma includes_without_other t x styles :
  x <> t -> includes (without t styles) x = includes styles x.
Proof.
  intros Hne. apply eq_true_iff_eq. rewrite !includes_In. unfold without.
  rewrite filter_In. split; [tauto|]. intros H. split; [exact H|].
  destruct (String.eqb_spec t x); [congruence | reflexivity].
Qed.

Lemma checkStyleConflicts_count styles :
  checkStyleConflicts styles = conflicting_pairs styles.
Proof.
  unfold checkStyleConflicts, conflicting_pairs, conflicts.
  cbn [fold_left filter fst snd].
  destruct (includes styles "formal" && includes styles "casual");
    destruct (includes styles "minimalist" && includes styles "bohemian");
    destruct (includes styles "edgy" && includes styles "romantic"); reflexivity.
Qed.

Lemma conflicting_pairs_le_3 styles : (conflicting_pairs styles <= 3)%nat.
Proof.
  unfold conflicting_pairs.
  apply Nat.le_trans with (List.length conflicts); [apply filter_length_le | apply Nat.le_refl].
Qed.

Lemma styleCoherence_formula o :
  styleCoherence (analyzeOutfit o) =
  match style (tags o) with
  | [] => c0_5
  | _ :: _ => coherence_of (conflicting_pairs (style (tags o)))
  end.
Proof.
  cbn [analyzeOutfit styleCoherence]. unfold calculateStyleCoherence.
  rewrite checkStyleConflicts_count.
  destruct (style (tags o)); reflexivity.
Qed.

Lemma coherence_of_values :
  coherence_of 0 = c0_8 /\
  coherence_of 1 = d0_6000000000000001 /\
  coherence_of 2 = c0_4 /\
  coherence_of 3 = d0_19999999999999996.
Proof. repeat split; vm_compute; reflexivity. Qed.

(** C1, as stated, fails: with exactly the conflict formal/casual the
    engine returns [0.8 - 0.2 = 0.6000000000000001], which is not at most
    the literal [0.6]. *)
Lemma C1_formal_casual_exceeds_0_6 :
  includes ["formal"; "casual"] "formal" = true /\
  includes ["formal"; "casual"] "casual" = true /\
  styleCoherence (analyzeOutfit (withStyle ["formal"; "casual"]))
    = d0_6000000000000001 /\
  leb (styleCoherence (analyzeOutfit (withStyle ["formal"; "casual"]))) c0_6 = false /\
  gtb (styleCoherence (analyzeOutfit (withStyle ["formal"; "casual"]))) c0_6 = true.
Proof. repeat split; vm_compute; reflexivity. Qed.

(** C1 (amended).  For every outfit, [analyzeOutfit] sets [styleCoherence]
    to 0.5 when [tags.style] is empty, and otherwise to
    [max(0, min(1, 0.8 - c * 0.2))] in double arithmetic, where [c] counts
    the pairs of the table formal/casual, minimalist/bohemian,
    edgy/romantic that are both present.  When both "formal" and "casual"
    are present the result is at most [0.8 - 0.2] (the double
    0.6000000000000001) and strictly below the result for the same outfit
    with "casual", or with "formal", removed. *)
Theorem C1_style_coherence (o : Outfit) :
  let styles := style (tags o) in
  let sc (x : Outfit) := styleCoherence (analyzeOutfit x) in
  (styles = [] -> sc o = c0_5) /\
  (styles <> [] -> sc o = coherence_of (conflicting_pairs styles)) /\
  conflicts = [("formal", "casual"); ("minimalist", "bohemian"); ("edgy", "romantic")] /\
  (includes styles "formal" = true -> includes styles "casual" = true ->
   leb (sc o) (sub c0_8 c0_2) = true /\
   sub c0_8 c0_2 = d0_6000000000000001 /\
   ltb (sc o) (sc (with_style o (without "casual" styles))) = true /\
   ltb (sc o) (sc (with_style o (without "formal" styles))) = true).
Proof.
  intros styles sc. subst sc. cbv beta.
  split; [|split; [|split]].
  - intros E. rewrite styleCoherence_formula. fold styles. rewrite E. reflexivity.
  - intros E. rewrite styleCoherence_formula. fold styles.
    destruct styles; [congruence | reflexivity].
  - reflexivity.
  - intros Hf Hc.
    assert (Hne : styles <> []) by (intros E; rewrite E in Hf; discriminate).
    assert (Hnc : without "casual" styles <> []).
    { intros E. pose proof (includes_without_other "casual" "formal" styles ltac:(discriminate)) as H.
      rewrite E, Hf in H. discriminate. }
    assert (Hnf : without "formal" styles <> []).
    { intros E. pose proof (includes_without_other "formal" "casual" styles ltac:(discriminate)) as H.
      rewrite E, Hc in H. discriminate. }
    rewrite !styleCoherence_formula. cbn [with_style tags style]. fold styles.
    destruct styles as [|s0 l0] eqn:Es; [congruence|]. rewrite <- Es in *.
    destruct (without "casual" styles) as [|s1 l1] eqn:E1; [congruence|]. rewrite <- E1.
    destruct (without "formal" styles) as [|s2 l2] eqn:E2; [congruence|]. rewrite <- E2.
    unfold conflicting_pairs, conflicts. cbn [filter fst snd].
    rewrite !includes_without_same.
    rewrite !includes_without_other by discriminate.
    rewrite Hf, Hc. cbn [andb].
    destruct (includes styles "minimalist" && includes styles "bohemian");
      destruct (includes styles "edgy" && includes styles "romantic");
      repeat split; vm_compute; reflexivity.
Qed.

(** An outfit with both tags, another style tag and a garment list. *)
Lemma C1_style_coherence_witness :
  includes ["classic"; "formal"; "casual"] "formal" = true /\
  includes ["classic"; "formal"; "casual"] "casual" = true /\
  ltb (styleCoherence (analyzeOutfit (withStyle ["classic"; "formal"; "casual"])))
      (styleCoherence (analyzeOutfit (withStyle ["classic"; "formal"]))) = true.
Proof.
  pose proof (C1_style_coherence (withStyle ["classic"; "formal"; "casual"])) as H.
  destruct H as (_ & _ & _ & H).
  destruct (H eq_refl eq_refl) as (_ & _ & Hlt & _).
  split; [reflexivity|]. split; [reflexivity|]. exact Hlt.
Defined.

(** C10, as stated, fails: with all three conflicts the engine returns
    [0.8 - 3 * 0.2 = 0.19999999999999996], which is below 0.2 and is none
    of 0.2, 0.4, 0.6, 0.8. *)
Lemma C10_three_conflicts_below_0_2 :
  let all := ["formal"; "casual"; "minimalist"; "bohemian"; "edgy"; "romantic"] in
  let sc := styleCoherence (analyzeOutfit (withStyle all)) in
  all <> [] /\
  sc = d0_19999999999999996 /\
  geb sc c0_2 = false /\
  sc <> c0_2 /\ sc <> c0_4 /\ sc <> c0_6 /\ sc <> c0_8.
Proof.
  cbv zeta. split; [discriminate|]. split; [vm_compute; reflexivity|].
  split; [vm_compute; reflexivity|].
  repeat split; vm_compute; discriminate.
Qed.

(** C10 (amended).  For every outfit with non-empty [tags.style],
    [styleCoherence] is one of the four doubles [0.8 - c * 0.2] for
    [c = 0, 1, 2, 3], that is 0.8, 0.6000000000000001, 0.4 and
    0.19999999999999996, hence at least 0.19999999999999996; the table
    has exactly 3 pairs, so at most 3 penalties apply and neither bound
    of the clamp to [0, 1] is ever active. *)
Theorem C10_style_coherence_values (o : Outfit) :
  style (tags o) <> [] ->
  let sc := styleCoherence (analyzeOutfit o) in
  let c := checkStyleConflicts (style (tags o)) in
  List.length conflicts = 3 /\
  (c <= 3)%nat /\
  sc = sub c0_8 (mul (ofNat c) c0_2) /\
  (sc = c0_8 \/ sc = d0_6000000000000001 \/ sc = c0_4 \/ sc = d0_19999999999999996) /\
  geb sc d0_19999999999999996 = true /\
  gtb sc zero = true.
Proof.
  intros Hne sc c. subst sc c.
  rewrite styleCoherence_formula, checkStyleConflicts_count.
  destruct (style (tags o)) as [|s l] eqn:E; [congruence|]. rewrite <- E.
  pose proof (conflicting_pairs_le_3 (style (tags o))) as H3.
  split; [reflexivity|]. split; [exact H3|].
  destruct (conflicting_pairs (style (tags o))) as [|[|[|[|n]]]]; try lia;
    repeat split; try (vm_compute; reflexivity).
  - left. vm_compute. reflexivity.
  - right; left. vm_compute. reflexivity.
  - right; right; left. vm_compute. reflexivity.
  - right; right; right. vm_compute. reflexivity.
Qed.

Lemma C10_style_coherence_values_witness :
  styleCoherence (analyzeOutfit
    (withStyle ["formal"; "casual"; "minimalist"; "bohemian"; "edgy"; "romantic"]))
  = sub c0_8 (mul (ofNat 3) c0_2).
Proof.
  pose proof (C10_style_coherence_values
    (withStyle ["formal"; "casual"; "minimalist"; "bohemian"; "edgy"; "romantic"])
    ltac:(discriminate)) as H.
  destruct H as (_ & _ & H & _). exact H.
Defined.

(* ===================================================================== *)
(** ** Colour harmony *)
(* ===================================================================== *)

(** The test of the [filter] callback: [color], in lower case, contains a
    member of [neutrals]. *)
Definition is_neutral (color : string) : bool :=
  existsb (fun neutral => str_includes (toLowerCase color) neutral) neutrals.

Definition neutral_count (colors : list string) : nat :=
  List.length (filter is_neutral colors).

(** [sub] occurs inside [s]. *)
Definition substring_of (sub s : string) : Prop :=
  exists pre post, s = (pre ++ sub ++ post)%string.

Lemma prefix_spec sub : forall s,
  String.prefix sub s = true <-> exists post, s = (sub ++ post)%string.
Proof.
  induction sub as [|c sub IH]; intros s.
  - split; [intros _; exists s; reflexivity | intros _; destruct s; reflexivity].
  - destruct s as [|d s]; cbn [String.prefix].
    + split; [discriminate | intros (post & E); discriminate].
    + destruct (ascii_dec c d) as [->|Hne].
      * rewrite IH. split; intros (post & E); exists post.
        -- cbn. rewrite E. reflexivity.
        -- cbn in E. inversion E. reflexivity.
      * split; [discriminate|]. intros (post & E). cbn in E. inversion E. congruence.
Qed.

Lemma str_includes_spec sub : forall s,
  str_includes s sub = true <-> substring_of sub s.
Proof.
  induction s as [|c s IH].
  - cbn [str_includes]. destruct (String.prefix sub "") eqn:P.
    + split; [intros _ | reflexivity].
      apply prefix_spec in P. destruct P as (post & E). exists "", post. exact E.
    + split; [discriminate|]. intros (pre & post & E).
      destruct pre; [|discriminate].
      assert (String.prefix sub "" = true) by (apply prefix_spec; exists post; exact E).
      congruence.
  - cbn [str_includes]. destruct (String.prefix sub (String c s)) eqn:P.
    + split; [intros _ | reflexivity].
      apply prefix_spec in P. destruct P as (post & E). exists "", post. exact E.
    + rewrite IH. split.
      * intros (pre & post & E). exists (String c pre), post. cbn. rewrite E. reflexivity.
      * intros (pre & post & E). destruct pre as [|d pre].
        -- assert (String.prefix sub (String c s) = true)
             by (apply prefix_spec; exists post; exact E).
           congruence.
        -- cbn in E. inversion E. exists pre, post. reflexivity.
Qed.

Lemma is_neutral_spec color :
  is_neutral color = true <->
  exists neutral, In neutral neutrals /\ substring_of neutral (toLowerCase color).
Proof.
  unfold is_neutral. rewrite existsb_exists.
  split; intros (n & Hn & H); exists n; (split; [exact Hn|]);
    apply str_includes_spec; exact H.
Qed.

Lemma neutral_count_le colors : (neutral_count colors <= List.length colors)%nat.
Proof. apply filter_length_le. Qed.

Lemma colorHarmony_formula colors :
  calculateColorHarmony colors =
  match colors with
  | [] => c0_5
  | [_] => c0_9
  | _ =>
    add c0_5 (mul (div (ofNat (neutral_count colors)) (ofNat (List.length colors))) c0_4)
  end.
Proof. destruct colors as [|a [|b l]]; reflexivity. Qed.

Lemma colorHarmony_range colors :
  (Z.of_nat (List.length colors) < 2 ^ 53)%Z ->
  geb (calculateColorHarmony colors) c0_5 = true /\
  leb (calculateColorHarmony colors) c0_9 = true.
Proof.
  intros Hlen. rewrite colorHarmony_formula.
  destruct colors as [|a [|b l]];
    [split; vm_compute; reflexivity | split; vm_compute; reflexivity |].
  destruct (harmony_range (neutral_count (a :: b :: l)) (List.length (a :: b :: l)))
    as [N [L U]].
  - apply neutral_count_le.
  - cbn. lia.
  - exact Hlen.
  - split.
    + apply geb_val; [exact N | reflexivity | exact L].
    + unfold leb. apply (FloatTheory.SFleb_nonneg prec emax); [exact N | reflexivity | exact U].
Qed.

(** C2.  [colorHarmony] is 0.5 for no colour, 0.9 for exactly one, and
    otherwise [0.5 + (k / n) * 0.4], where [n] is the number of colours and
    [k] the number of those whose lower-case form contains one of "black",
    "white", "gray", "navy", "beige", "brown" as a substring.  Hence
    ["black"; "navy"] gives exactly 0.9, ["red"; "navy"] exactly 0.7, and
    the result always lies in [0.5, 0.9]. *)
Theorem C2_color_harmony (o : Outfit) :
  let cs := colors (tags o) in
  let h := colorHarmony (analyzeOutfit o) in
  neutrals = ["black"; "white"; "gray"; "navy"; "beige"; "brown"] /\
  (forall color, is_neutral color = true <->
     exists neutral, In neutral neutrals /\ substring_of neutral (toLowerCase color)) /\
  (List.length cs = 0 -> h = c0_5) /\
  (List.length cs = 1 -> h = c0_9) /\
  (2 <= List.length cs ->
   h = add c0_5 (mul (div (ofNat (neutral_count cs)) (ofNat (List.length cs))) c0_4)) /\
  (cs = ["black"; "navy"] -> h = c0_9) /\
  (cs = ["red"; "navy"] -> h = c0_7) /\
  ((Z.of_nat (List.length cs) < 2 ^ 53)%Z ->
   geb h c0_5 = true /\ leb h c0_9 = true).
Proof.
  intros cs h. subst h. cbn [analyzeOutfit colorHarmony]. fold cs.
  split; [reflexivity|]. split; [exact is_neutral_spec|].
  rewrite colorHarmony_formula.
  split; [|split; [|split; [|split; [|split]]]].
  - destruct cs as [|a [|b l]]; cbn [List.length]; intros; try lia; reflexivity.
  - destruct cs as [|a [|b l]]; cbn [List.length]; intros; try lia; reflexivity.
  - destruct cs as [|a [|b l]]; cbn [List.length]; intros; try lia; reflexivity.
  - intros ->. vm_compute. reflexivity.
  - intros ->. vm_compute. reflexivity.
  - rewrite <- colorHarmony_formula. apply colorHarmony_range.
Qed.

(** Three colours, two of them neutral ("Navy Blue" through its lower-case
    form): the harmony is [0.5 + (2 / 3) * 0.4] and lies in [0.5, 0.9]. *)
Lemma C2_color_harmony_witness :
  let h := colorHarmony (analyzeOutfit (withColors ["Navy Blue"; "red"; "off-white"])) in
  h = add c0_5 (mul (div (ofNat 2) (ofNat 3)) c0_4) /\
  geb h c0_5 = true /\ leb h c0_9 = true.
Proof.
  pose proof (C2_color_harmony (withColors ["Navy Blue"; "red"; "off-white"])) as H.
  destruct H as (_ & _ & _ & _ & Hf & _ & _ & Hr).
  cbv zeta. split.
  - apply Hf. cbn [withColors mkOutfit mkTags tags colors List.length]. lia.
  - apply Hr. cbn [withColors mkOutfit mkTags tags colors List.length]. lia.
Defined.

(* ===================================================================== *)
(** ** Confidence factors *)
(* ===================================================================== *)

(** What [identifyConfidenceFactors] computes: three independent tests,
    each adding one fixed string; the colour test is met only by a colour
    that is exactly "navy" or exactly "black". *)
Lemma identifyConfidenceFactors_formula (o : Outfit) :
  identifyConfidenceFactors o =
  ((if includes (style (tags o)) "classic" then [msg_classic] else []) ++
   (if existsb (fun color => String.eqb color "navy" || String.eqb color "black")
               (colors (tags o))
    then [msg_dark] else []) ++
   (if includes (occasion (tags o)) "work" then [msg_work] else []))%list.
Proof.
  unfold identifyConfidenceFactors, push.
  replace (existsb (fun color => includes ["navy"; "black"] color) (colors (tags o)))
    with (existsb (fun color => String.eqb color "navy" || String.eqb color "black")
                  (colors (tags o))).
  - destruct (includes (style (tags o)) "classic");
      destruct (existsb _ (colors (tags o)));
      destruct (includes (occasion (tags o)) "work"); reflexivity.
  - induction (colors (tags o)) as [|color cs IH]; [reflexivity|].
    cbn [existsb]. rewrite IH. unfold includes. cbn [existsb].
    rewrite orb_false_r. reflexivity.
Qed.

(** C3: the code at the inputs of the claim.  A colour "Navy" or
    "navy blue" does not receive the dark-colours factor, although the
    colour-harmony helper of the same engine counts both as the neutral
    "navy"; only the exact strings "navy" and "black" do. *)
Theorem C3_dark_factor_needs_exact_match :
  identifyConfidenceFactors (withColors ["Navy"]) = [] /\
  identifyConfidenceFactors (withColors ["navy blue"]) = [] /\
  identifyConfidenceFactors (withColors ["navy"]) = [msg_dark] /\
  confidenceFactors (analyzeOutfit (withColors ["Navy"; "navy blue"])) = Some [] /\
  is_neutral "Navy" = true /\ is_neutral "navy blue" = true /\
  (forall o : Outfit,
     In msg_dark (identifyConfidenceFactors o) <->
     In "navy" (colors (tags o)) \/ In "black" (colors (tags o))).
Proof.
  repeat split; try (vm_compute; reflexivity).
  - rewrite identifyConfidenceFactors_formula. rewrite !in_app_iff.
    intros [H|[H|H]].
    + destruct (includes (style (tags o)) "classic"); [|contradiction].
      destruct H as [H|[]]. discriminate.
    + destruct (existsb _ (colors (tags o))) eqn:E; [|contradiction].
      apply existsb_exists in E. destruct E as (c & Hc & E).
      apply orb_true_iff in E. destruct E as [E|E]; apply String.eqb_eq in E; subst; auto.
    + destruct (includes (occasion (tags o)) "work"); [|contradiction].
      destruct H as [H|[]]. discriminate.
  - rewrite identifyConfidenceFactors_formula. rewrite !in_app_iff.
    intros H. right; left.
    replace (existsb _ (colors (tags o))) with true; [left; reflexivity|].
    symmetry. apply existsb_exists.
    destruct H as [H|H]; [exists "navy" | exists "black"]; (split; [exact H | reflexivity]).
Qed.

(* ===================================================================== *)
(** ** Rating insights *)
(* ===================================================================== *)

(** The notes in check order, one optional note per rule. *)
Definition rating_notes (confidence comfort success : Z) : list string :=
  ((if (8 <=? confidence)%Z then [msg_conf_high]
    else if (confidence <=? 4)%Z then [msg_conf_low] else []) ++
   (if (8 <=? comfort)%Z then [msg_comf_high]
    else if (comfort <=? 4)%Z then [msg_comf_low] else []) ++
   (if (8 <=? success)%Z then [msg_save] else []) ++
   (if (comfort <? confidence)%Z then [msg_tradeoff] else []))%list.

(** C4.  On a rated outfit, [generateRatingInsights] applies the rules
    confidence >= 8, confidence <= 4, comfort >= 8, comfort <= 4,
    success >= 8 and confidence > comfort in this order, each adding its
    fixed note; for the ratings 9, 3, 8 it returns exactly the four notes
    confidence-high, comfort-low, save-this-combination, trade-off. *)
Theorem C4_rating_insights (o : Outfit) (r : OutfitRatings) :
  ratings o = Some r ->
  generateRatingInsights o = rating_notes (confidence r) (comfort r) (success r) /\
  (confidence r = 9%Z -> comfort r = 3%Z -> success r = 8%Z ->
   generateRatingInsights o = [msg_conf_high; msg_comf_low; msg_save; msg_tradeoff]).
Proof.
  intros Hr.
  assert (E : generateRatingInsights o
              = rating_notes (confidence r) (comfort r) (success r)).
  { unfold generateRatingInsights, rating_notes, push. rewrite Hr.
    rewrite !Z.geb_leb, Z.gtb_ltb.
    destruct (8 <=? confidence r)%Z; destruct (confidence r <=? 4)%Z;
      destruct (8 <=? comfort r)%Z; destruct (comfort r <=? 4)%Z;
      destruct (8 <=? success r)%Z; destruct (comfort r <? confidence r)%Z;
      reflexivity. }
  split; [exact E|].
  intros H1 H2 H3. rewrite E, H1, H2, H3. reflexivity.
Qed.

Lemma C4_rating_insights_witness :
  generateRatingInsights (mkOutfit (mkTags [] [] [] []) (Some (mkRatings 9 3 8)))
  = [msg_conf_high; msg_comf_low; msg_save; msg_tradeoff].
Proof.
  exact (proj2 (C4_rating_insights
                  (mkOutfit (mkTags [] [] [] []) (Some (mkRatings 9 3 8)))
                  (mkRatings 9 3 8) eq_refl) eq_refl eq_refl eq_refl).
Defined.

(** At run time too: whatever else the object holds or lacks, an absent
    [ratings] gives the message and no exception. *)
Lemma runtime_no_ratings (j : Runtime.JsOutfit) :
  Runtime.js_ratings j = None ->
  Runtime.generateRatingInsights j = inr [msg_no_ratings].
Proof. intros H. unfold Runtime.generateRatingInsights. rewrite H. reflexivity. Qed.

Lemma runtime_ratings_agree (o : Outfit) :
  Runtime.generateRatingInsights (Runtime.of_outfit o) = inr (generateRatingInsights o).
Proof.
  unfold Runtime.generateRatingInsights, generateRatingInsights.
  cbn [Runtime.of_outfit Runtime.js_ratings]. destruct (ratings o); reflexivity.
Qed.

(** C7.  [generateRatingInsights] reads nothing but [outfit.ratings]: two
    outfits with the same ratings get the same notes.  When the field is
    absent it returns the single no-rating message, and it returns
    normally, also at run time on an object that lacks other properties. *)
Theorem C7_no_ratings (o1 o2 : Outfit) :
  ratings o1 = ratings o2 ->
  generateRatingInsights o1 = generateRatingInsights o2 /\
  Runtime.generateRatingInsights (Runtime.of_outfit o1) = inr (generateRatingInsights o1) /\
  (ratings o1 = None -> generateRatingInsights o1 = [msg_no_ratings]) /\
  (forall j : Runtime.JsOutfit,
     Runtime.js_ratings j = None ->
     Runtime.generateRatingInsights j = inr [msg_no_ratings]).
Proof.
  intros H. split; [|split; [|split]].
  - unfold generateRatingInsights. rewrite H. reflexivity.
  - apply runtime_ratings_agree.
  - intros E. unfold generateRatingInsights. rewrite E. reflexivity.
  - exact runtime_no_ratings.
Qed.

Lemma C7_no_ratings_witness :
  generateRatingInsights emptyOutfit
  = generateRatingInsights (mkOutfit (mkTags ["work"] ["classic"] ["navy"] []) None) /\
  generateRatingInsights emptyOutfit = [msg_no_ratings].
Proof.
  pose proof (C7_no_ratings emptyOutfit
                (mkOutfit (mkTags ["work"] ["classic"] ["navy"] []) None) eq_refl)
    as (H1 & _ & H2 & _).
  split; [exact H1 | exact (H2 eq_refl)].
Defined.

(* ===================================================================== *)
(** ** The whole analysis *)
(* ===================================================================== *)

Lemma runtime_analyzeOutfit (o : Outfit) :
  Runtime.analyzeOutfit (Runtime.of_outfit o) = inr (analyzeOutfit o).
Proof.
  unfold Runtime.analyzeOutfit, Runtime.calculateStyleCoherence,
    Runtime.calculateColorHarmony, Runtime.calculateOccasionFit,
    Runtime.generateImprovements, Runtime.identifyConfidenceFactors.
  cbn [Runtime.of_outfit Runtime.of_tags Runtime.js_tags Runtime.js_style
       Runtime.js_colors Runtime.js_occasion Runtime.js_garments Runtime.deref
       bind ret Monad_either].
  unfold analyzeOutfit, calculateStyleCoherence, calculateOccasionFit,
    generateImprovements, identifyConfidenceFactors.
  destruct (Nat.eqb (List.length (style (tags o))) 0);
    destruct (Nat.eqb (List.length (occasion (tags o))) 0); reflexivity.
Qed.

(** The run-time model does raise: an object whose [style] array is
    missing makes [analyzeOutfit] throw, so returning normally on
    well-formed outfits is a property of the code, not of the model. *)
Lemma runtime_missing_style_throws :
  Runtime.analyzeOutfit
    {| Runtime.js_tags :=
         Some {| Runtime.js_occasion := Some []; Runtime.js_season := Some [];
                 Runtime.js_style := None; Runtime.js_mood := Some "";
                 Runtime.js_colors := Some []; Runtime.js_garments := Some [];
                 Runtime.js_formalityLevel := None;
                 Runtime.js_effortLevel := None |};
       Runtime.js_ratings := None |}
  = inl "TypeError".
Proof. reflexivity. Qed.

(** [x < y] excludes [x >= y], for all doubles, NaN and infinities
    included. *)
Lemma ltb_not_geb (x y : number) : ltb x y = true -> geb x y = false.
Proof.
  unfold ltb, geb, SFltb, SFleb.
  destruct x as [s1|s1| |s1 m1 e1], y as [s2|s2| |s2 m2 e2]; cbn [SFcompare];
    try discriminate; try reflexivity;
    try (destruct s1; discriminate || reflexivity);
    try (destruct s2; discriminate || reflexivity);
    try (destruct s1, s2; discriminate || reflexivity).
  destruct s1, s2; try discriminate; try reflexivity;
    rewrite (Z.compare_antisym e1 e2); destruct (e1 ?= e2)%Z; cbn [CompOpp];
    try discriminate; try reflexivity;
    change (Pos.compare_cont Eq m1 m2) with (Pos.compare m1 m2);
    change (Pos.compare_cont Eq m2 m1) with (Pos.compare m2 m1);
    rewrite (Pos.compare_antisym m1 m2); destruct (Pos.compare m1 m2); cbn [CompOpp];
    discriminate || reflexivity.
Qed.

(** Below 0.6 is not at least 0.8. *)
Lemma below_0_6_not_0_8 (x : number) : ltb x c0_6 = true -> geb x c0_8 = false.
Proof.
  unfold ltb, geb, SFltb, SFleb. rewrite c0_6_eq, c0_8_eq.
  destruct x as [s|s| |s m e]; cbn [SFcompare];
    try discriminate; try reflexivity;
    try (destruct s; discriminate || reflexivity).
  destruct s; [reflexivity|].
  rewrite (Z.compare_antisym e (-53)). destruct (e ?= -53)%Z; cbn [CompOpp];
    try discriminate; try reflexivity.
  rewrite !Pos.compare_cont_spec. cbn [Pos.switch_Eq].
  destruct (Pos.compare_spec m 5404319552844595) as [| Hlt |]; try discriminate.
  intros _.
  destruct (Pos.compare_spec 7205759403792794 m) as [E | Hlt' |]; try reflexivity;
    exfalso.
  - subst m. revert Hlt. vm_compute. discriminate.
  - pose proof (Pos.lt_trans _ _ _ Hlt' Hlt) as H. revert H. vm_compute. discriminate.
Qed.

(** C6.  The summary of [analyzeOutfit] is chosen by the mean of the three
    scores, [(style + colour + occasion) / 3] as the engine computes it:
    the excellent message when the mean is at least 0.8, the
    minor-improvements message when it is at least 0.6 and below 0.8, the
    adjustment message when it is below 0.6. *)
Theorem C6_summary_tiers (o : Outfit) :
  let a := analyzeOutfit o in
  let mean :=
    div (add (add (styleCoherence a) (colorHarmony a)) (occasionAppropriateness a))
        three in
  summary a = generateAnalysisSummary (styleCoherence a) (colorHarmony a)
                                      (occasionAppropriateness a) /\
  (geb mean c0_8 = true -> summary a = msg_excellent) /\
  (geb mean c0_6 = true -> ltb mean c0_8 = true -> summary a = msg_good) /\
  (ltb mean c0_6 = true -> summary a = msg_adjust) /\
  msg_excellent <> msg_good /\ msg_good <> msg_adjust /\ msg_excellent <> msg_adjust.
Proof.
  intros a mean.
  assert (E : summary a =
              if geb mean c0_8 then msg_excellent
              else if geb mean c0_6 then msg_good else msg_adjust) by reflexivity.
  split; [reflexivity|].
  split; [|split; [|split]].
  - intros H. rewrite E, H. reflexivity.
  - intros H6 H8. rewrite E, (ltb_not_geb _ _ H8), H6. reflexivity.
  - intros H6. rewrite E, (below_0_6_not_0_8 _ H6), (ltb_not_geb _ _ H6). reflexivity.
  - repeat split; discriminate.
Qed.

(** One outfit in each tier. *)
Lemma C6_summary_tiers_witness :
  summary (analyzeOutfit (mkOutfit (mkTags ["work"] ["classic"] ["navy"] []) None))
    = msg_excellent /\
  summary (analyzeOutfit (withStyle ["classic"])) = msg_good /\
  summary (analyzeOutfit emptyOutfit) = msg_adjust.
Proof.
  split; [|split].
  - apply (C6_summary_tiers (mkOutfit (mkTags ["work"] ["classic"] ["navy"] []) None)).
    vm_compute. reflexivity.
  - apply (C6_summary_tiers (withStyle ["classic"])); vm_compute; reflexivity.
  - apply (C6_summary_tiers emptyOutfit). vm_compute. reflexivity.
Defined.

(** C8.  [analyzeOutfit] reads nothing but [outfit.tags]: outfits with
    equal tags get equal analyses (scores, summary, improvements and
    factors), in the typed reading and at run time; in particular
    analysing the same outfit again gives the same result. *)
Theorem C8_analysis_depends_on_tags_only (o1 o2 : Outfit) :
  tags o1 = tags o2 ->
  analyzeOutfit o1 = analyzeOutfit o2 /\
  Runtime.analyzeOutfit (Runtime.of_outfit o1)
  = Runtime.analyzeOutfit (Runtime.of_outfit o2).
Proof.
  intros H.
  assert (E : analyzeOutfit o1 = analyzeOutfit o2).
  { unfold analyzeOutfit, calculateStyleCoherence, calculateOccasionFit,
      generateImprovements, identifyConfidenceFactors.
    rewrite H. reflexivity. }
  split; [exact E|]. rewrite !runtime_analyzeOutfit, E. reflexivity.
Qed.

(** Two outfits with the same tags but different ratings and notes. *)
Lemma C8_analysis_depends_on_tags_only_witness :
  analyzeOutfit (mkOutfit (mkTags ["work"] ["formal"; "casual"] ["Navy"; "red"] []) None)
  = analyzeOutfit
      (mkOutfit (mkTags ["work"] ["formal"; "casual"] ["Navy"; "red"] [])
                (Some (mkRatings 9 3 8))).
Proof.
  exact (proj1 (C8_analysis_depends_on_tags_only
    (mkOutfit (mkTags ["work"] ["formal"; "casual"] ["Navy"; "red"] []) None)
    (mkOutfit (mkTags ["work"] ["formal"; "casual"] ["Navy"; "red"] [])
              (Some (mkRatings 9 3 8)))
    eq_refl)).
Defined.

(** C9, as stated, fails: with all tag collections empty the improvement
    list is not empty, because the neutral scores 0.5 are below the 0.6
    threshold of both improvement rules. *)
Lemma C9_empty_tags_have_improvements :
  style (tags emptyOutfit) = [] /\ colors (tags emptyOutfit) = [] /\
  occasion (tags emptyOutfit) = [] /\ garments (tags emptyOutfit) = [] /\
  suggestedImprovements (analyzeOutfit emptyOutfit)
    = Some [msg_accessories; msg_limit_colors] /\
  suggestedImprovements (analyzeOutfit emptyOutfit) <> Some [].
Proof. repeat split; try reflexivity. discriminate. Qed.

(** C9 (amended).  On every well-formed outfit, whichever optional fields
    it has, [analyzeOutfit] returns normally with the typed result.  An
    empty [style], [colors] or [occasion] array gives the neutral score
    0.5 for its own measure.  The lists are not emptied by it: an empty
    [style] array always brings the accessories note and an empty [colors]
    array the colour note (0.5 is below their 0.6 threshold), while the
    factor that rests on an empty array is never added (classic for
    [style], dark colours for [colors], work for [occasion]), and the
    simplify note needs more than 6 garments.  When all three arrays are
    empty the factor list is empty and the improvement list is exactly the
    style note and the colour note, followed by the simplify note when
    there are more than 6 garments. *)
Theorem C9_total_with_neutral_defaults (o : Outfit) :
  let a := analyzeOutfit o in
  Runtime.analyzeOutfit (Runtime.of_outfit o) = inr a /\
  (style (tags o) = [] -> styleCoherence a = c0_5) /\
  (colors (tags o) = [] -> colorHarmony a = c0_5) /\
  (occasion (tags o) = [] -> occasionAppropriateness a = c0_5) /\
  (exists improvements factors,
     suggestedImprovements a = Some improvements /\
     confidenceFactors a = Some factors /\
     (style (tags o) = [] ->
      In msg_accessories improvements /\ ~ In msg_classic factors) /\
     (colors (tags o) = [] ->
      In msg_limit_colors improvements /\ ~ In msg_dark factors) /\
     (occasion (tags o) = [] -> ~ In msg_work factors) /\
     (List.length (garments (tags o)) <= 6 -> ~ In msg_simplify improvements)) /\
  (style (tags o) = [] -> colors (tags o) = [] -> occasion (tags o) = [] ->
   confidenceFactors a = Some [] /\
   suggestedImprovements a =
   Some ([msg_accessories; msg_limit_colors] ++
         (if Nat.ltb 6 (List.length (garments (tags o))) then [msg_simplify] else []))%list).
Proof.
  intros a. subst a. split; [apply runtime_analyzeOutfit|].
  assert (H5 : ltb c0_5 c0_6 = true) by (vm_compute; reflexivity).
  assert (Hlists :
    exists improvements factors,
      suggestedImprovements (analyzeOutfit o) = Some improvements /\
      confidenceFactors (analyzeOutfit o) = Some factors /\
      (style (tags o) = [] ->
       In msg_accessories improvements /\ ~ In msg_classic factors) /\
      (colors (tags o) = [] ->
       In msg_limit_colors improvements /\ ~ In msg_dark factors) /\
      (occasion (tags o) = [] -> ~ In msg_work factors) /\
      (List.length (garments (tags o)) <= 6 -> ~ In msg_simplify improvements)).
  { exists (generateImprovements o (calculateStyleCoherence o)
                                 (calculateColorHarmony (colors (tags o)))),
           (identifyConfidenceFactors o).
    split; [reflexivity|]. split; [reflexivity|].
    rewrite identifyConfidenceFactors_formula.
    unfold generateImprovements, push.
    split; [|split; [|split]].
    - intros E.
      assert (Es : calculateStyleCoherence o = c0_5)
        by (unfold calculateStyleCoherence; rewrite E; reflexivity).
      rewrite Es, H5, E. cbn [includes existsb app]. split.
      + destruct (ltb (calculateColorHarmony (colors (tags o))) c0_6);
          destruct (Nat.ltb 6 (List.length (garments (tags o))));
          cbn [app In]; auto.
      + destruct (existsb _ (colors (tags o)));
          destruct (includes (occasion (tags o)) "work"); cbn [app In];
          intros H; repeat (destruct H as [H|H]; [discriminate H|]); exact H.
    - intros E. rewrite E.
      change (calculateColorHarmony []) with c0_5. rewrite H5.
      cbn [existsb app]. split.
      + destruct (ltb (calculateStyleCoherence o) c0_6);
          destruct (Nat.ltb 6 (List.length (garments (tags o))));
          cbn [app In]; auto.
      + destruct (includes (style (tags o)) "classic");
          destruct (includes (occasion (tags o)) "work"); cbn [app In];
          intros H; repeat (destruct H as [H|H]; [discriminate H|]); exact H.
    - intros E. rewrite E. cbn [includes existsb].
      destruct (includes (style (tags o)) "classic");
        destruct (existsb _ (colors (tags o))); cbn [app In];
        intros H; repeat (destruct H as [H|H]; [discriminate H|]); exact H.
    - intros Hg.
      replace (Nat.ltb 6 (List.length (garments (tags o)))) with false
        by (symmetry; apply Nat.ltb_ge; exact Hg).
      destruct (ltb (calculateStyleCoherence o) c0_6);
        destruct (ltb (calculateColorHarmony (colors (tags o))) c0_6); cbn [app In];
        intros H; repeat (destruct H as [H|H]; [discriminate H|]); exact H. }
  unfold analyzeOutfit, calculateStyleCoherence, calculateOccasionFit,
    generateImprovements, identifyConfidenceFactors in *.
  cbn [styleCoherence colorHarmony occasionAppropriateness confidenceFactors
       suggestedImprovements] in *.
  split; [|split; [|split; [|split; [exact Hlists|]]]].
  - intros ->. reflexivity.
  - intros ->. reflexivity.
  - intros ->. reflexivity.
  - intros -> -> ->. split; [reflexivity|].
    destruct (Nat.ltb 6 (List.length (garments (tags o)))); reflexivity.
Qed.

Lemma C9_total_with_neutral_defaults_witness :
  Runtime.analyzeOutfit (Runtime.of_outfit emptyOutfit) = inr (analyzeOutfit emptyOutfit) /\
  confidenceFactors (analyzeOutfit emptyOutfit) = Some [] /\
  suggestedImprovements (analyzeOutfit emptyOutfit)
  = Some [msg_accessories; msg_limit_colors].
Proof.
  pose proof (C9_total_with_neutral_defaults emptyOutfit) as (H1 & _ & _ & _ & _ & H5).
  split; [exact H1|]. exact (H5 eq_refl eq_refl eq_refl).
Defined.

(* ===================================================================== *)
(** ** Recommendations *)
(* ===================================================================== *)

(** One recommendation: six reads of [Math.random], one of [Date.now]. *)
Lemma generateSingleRecommendation_run context approach w :
  runState (generateSingleRecommendation context approach) w =
  ({| rec_id := {| rec_ms := clock_src w (clock_reads w);
                   rec_salt := random_src w (1 + random_reads w) |};
      score := add (mul (random_src w (random_reads w)) c0_3) c0_7;
      reasoning := generateRecommendationReasoning approach context;
      weatherScore := add (mul (random_src w (2 + random_reads w)) c0_3) c0_7;
      occasionScore := add (mul (random_src w (3 + random_reads w)) c0_3) c0_7;
      personalScore := add (mul (random_src w (4 + random_reads w)) c0_3) c0_7;
      confidenceScore := add (mul (random_src w (5 + random_reads w)) c0_3) c0_7 |},
   {| random_src := random_src w; random_reads := 6 + random_reads w;
      clock_src := clock_src w; clock_reads := 1 + clock_reads w |}).
Proof. reflexivity. Qed.

(** The score of a recommendation is [r * 0.3 + 0.7] for a draw [r]. *)
Definition scored_from (src : nat -> number) (r : OutfitRecommendation) : Prop :=
  exists k, score r = add (mul (src k) c0_3) c0_7.

Lemma recommend_each_run context pending : forall recommendations w,
  exists new,
    fst (runState (recommend_each context pending recommendations) w)
    = (recommendations ++ new)%list /\
    map reasoning new
    = map (fun approach => generateRecommendationReasoning approach context) pending /\
    Forall (scored_from (random_src w)) new.
Proof.
  induction pending as [|approach pending IH]; intros recommendations w.
  - exists []. cbn. rewrite app_nil_r. auto.
  - cbn [recommend_each]. 
    change (runState (bind (generateSingleRecommendation context approach)
                           (fun rec => recommend_each context pending
                                                      (push recommendations rec))) w)
      with (let (rec, w') := runState (generateSingleRecommendation context approach) w in
            runState (recommend_each context pending (push recommendations rec)) w').
    rewrite generateSingleRecommendation_run.
    match goal with
    | |- context [recommend_each context pending (push recommendations ?r)] =>
      set (rec := r)
    end.
    match goal with
    | |- context [runState _ ?w1] => set (w' := w1)
    end.
    destruct (IH (push recommendations rec) w') as (new & E & Hr & Hs).
    exists (rec :: new). split; [|split].
    + rewrite E. unfold push. rewrite <- app_assoc. reflexivity.
    + cbn [map]. rewrite Hr. reflexivity.
    + constructor; [exists (random_reads w); reflexivity | exact Hs].
Qed.

Lemma generateRecommendationReasoning_any context approach :
  generateRecommendationReasoning approach context
  = generateRecommendationReasoning approach empty_context.
Proof. reflexivity. Qed.

Lemma runState_bind {A B} (c : IO A) (f : A -> IO B) (w : World) :
  runState (bind c f) w = let (a, w') := runState c w in runState (f a) w'.
Proof. reflexivity. Qed.

Lemma runState_ret {A} (a : A) (w : World) : runState (ret a : IO A) w = (a, w).
Proof. reflexivity. Qed.

(** The context object is handed down but never read. *)
Lemma generateRecommendations_ignores_context context :
  generateRecommendations context = generateRecommendations empty_context.
Proof. reflexivity. Qed.

Lemma generateRecommendations_run context w :
  exists generated,
    fst (runState (generateRecommendations context) w)
    = Array_sort (fun a b => sub (score b) (score a)) generated /\
    map reasoning generated
    = map (fun approach => generateRecommendationReasoning approach context) approaches /\
    Forall (scored_from (random_src w)) generated.
Proof.
  destruct (recommend_each_run context approaches [] w) as (new & E & Hr & Hs).
  exists new. split; [|split; [exact Hr | exact Hs]].
  unfold generateRecommendations. rewrite runState_bind.
  destruct (runState (recommend_each context approaches []) w) as [recs w'].
  cbn [fst] in E. rewrite runState_ret, E. reflexivity.
Qed.

Lemma StronglySorted_impl_In {A} (P Q : A -> A -> Prop) l :
  (forall a b, In a l -> In b l -> P a b -> Q a b) ->
  StronglySorted P l -> StronglySorted Q l.
Proof.
  intros H Hs. induction Hs as [|a l Hs IH Ha]; constructor.
  - apply IH. intros x y Hx Hy. apply H; right; assumption.
  - rewrite Forall_forall in *. intros b Hb.
    apply H; [left; reflexivity | right; exact Hb | apply Ha; exact Hb].
Qed.

(** The three reasoning strings of each strategy, in the order of the
    strategies, as the source lists them. *)
Definition strategy_reasoning : list (string * list string) :=
  [ ("high_confidence_historical",
     [ "Based on your highest-rated outfits";
       "Proven confidence booster";
       "Similar weather conditions performed well" ]);
    ("weather_optimized",
     [ "Perfect for current weather conditions";
       "Breathable fabrics for comfort";
       "Appropriate layering options" ]);
    ("occasion_perfect",
     [ "Ideal for the planned occasion";
       "Meets dress code requirements";
       "Professional yet approachable" ]);
    ("comfort_focused",
     [ "Maximum comfort for all-day wear";
       "Soft, stretchy fabrics";
       "Easy movement and flexibility" ]);
    ("style_exploration",
     [ "Try something new within your style range";
       "Subtle variation on your usual look";
       "Low-risk style experiment" ]) ].

(** C5.  Whatever the context (the empty object, any [limit]),
    [generateRecommendations] returns exactly 5 recommendations, one per
    strategy of the fixed list: the reasoning lists returned are, up to
    their order, the five triples of fixed strings that the source gives
    for high_confidence_historical, weather_optimized, occasion_perfect,
    comfort_focused and style_exploration, each strategy having the triple
    of its own name and none the generic fallback.  As soon as
    [Math.random] returns doubles in [0, 1) the list is sorted by
    decreasing [score]. *)
Theorem C5_recommendations (context : RecommendationContext) (w : World) :
  let recs := fst (runState (generateRecommendations context) w) in
  List.length recs = 5 /\
  generateRecommendations context = generateRecommendations empty_context /\
  approaches = ["high_confidence_historical"; "weather_optimized"; "occasion_perfect";
                "comfort_focused"; "style_exploration"] /\
  Permutation (map reasoning recs)
    (map (fun approach => generateRecommendationReasoning approach context) approaches) /\
  map (fun approach => (approach, generateRecommendationReasoning approach context))
      approaches
    = strategy_reasoning /\
  Permutation (map reasoning recs) (map snd strategy_reasoning) /\
  NoDup (map snd strategy_reasoning) /\
  ~ In ["General recommendation based on your preferences"] (map reasoning recs) /\
  map (fun approach => lookup reasoningMap approach) approaches
    = map (fun entry => Some (snd entry)) reasoningMap /\
  Forall (fun r => 3 <= List.length (reasoning r)) recs /\
  ((forall i, unit_double (random_src w i) = true) ->
   StronglySorted (fun a b => geb (score a) (score b) = true) recs).
Proof.
  intros recs. subst recs.
  destruct (generateRecommendations_run context w) as (generated & -> & Hr & Hs).
  pose proof (Array_sort_perm (fun a b => sub (score b) (score a)) generated) as Hp.
  assert (Hlen : List.length generated = 5).
  { rewrite <- (length_map reasoning), Hr, length_map. reflexivity. }
  assert (Hfixed : map (fun approach => generateRecommendationReasoning approach context)
                       approaches
                   = map snd strategy_reasoning) by reflexivity.
  assert (Hperm : Permutation
                    (map reasoning
                       (Array_sort (fun a b => sub (score b) (score a)) generated))
                    (map snd strategy_reasoning)).
  { rewrite <- Hfixed, <- Hr. apply Permutation_map. exact Hp. }
  split; [rewrite (Permutation_length Hp); exact Hlen|].
  split; [apply generateRecommendations_ignores_context|].
  split; [reflexivity|].
  split; [rewrite <- Hr; apply Permutation_map; exact Hp|].
  split; [reflexivity|].
  split; [exact Hperm|].
  split.
  { unfold strategy_reasoning. cbn [map snd].
    repeat (constructor; [cbn [In]; intros H;
                          repeat (destruct H as [H|H]; [discriminate H|]); exact H|]).
    constructor. }
  split.
  { intros H. apply (Permutation_in _ Hperm) in H.
    unfold strategy_reasoning in H. cbn [map snd In] in H.
    repeat (destruct H as [H|H]; [discriminate H|]). exact H. }
  split; [reflexivity|].
  split.
  - apply (Permutation_Forall (Permutation_sym Hp)).
    assert (H3 : Forall (fun l => 3 <= List.length l) (map reasoning generated)).
    { rewrite Hr. vm_compute. repeat constructor. }
    rewrite Forall_map in H3. exact H3.
  - intros Hunit.
    assert (Hpos : Forall (fun r => positive (score r) = true) generated).
    { apply Forall_impl with (2 := Hs). intros r (k & ->).
      apply random_score_range. apply Hunit. }
    pose proof (Array_sort_sorted score generated Hpos) as Hsorted.
    apply StronglySorted_impl_In with (2 := Hsorted).
    intros a b Ha Hb Hab.
    assert (Hpos' : Forall (fun r => positive (score r) = true)
                           (Array_sort (by_key_desc score) generated))
      by (apply (Permutation_Forall (Permutation_sym Hp)); exact Hpos).
    rewrite Forall_forall in Hpos'.
    apply geb_val; [apply positive_nonneg, Hpos', Ha | apply positive_nonneg, Hpos', Hb | exact Hab].
Qed.

(** A world whose random source cycles through 0, 0.25, 0.5, 0.75. *)
Definition world1 : World :=
  {| random_src := fun i => div (ofNat (Nat.modulo i 4)) (ofZ 4); random_reads := 0;
     clock_src := fun i => (1700000000000 + Z.of_nat i)%Z; clock_reads := 0 |}.

Lemma world1_unit i : unit_double (random_src world1 i) = true.
Proof.
  cbn [world1 random_src].
  pose proof (Nat.mod_upper_bound i 4 ltac:(discriminate)) as H.
  destruct (Nat.modulo i 4) as [|[|[|[|n]]]];
    [vm_compute; reflexivity | vm_compute; reflexivity | vm_compute; reflexivity
     | vm_compute; reflexivity | exfalso; lia].
Qed.

Lemma C5_recommendations_witness :
  StronglySorted (fun a b => geb (score a) (score b) = true)
    (fst (runState (generateRecommendations empty_context) world1)) /\
  map score (fst (runState (generateRecommendations empty_context) world1))
  = [add (mul (lit 1 2) c0_3) c0_7; add (mul (lit 1 2) c0_3) c0_7;
     c0_7; c0_7; c0_7] /\
  Permutation
    (map reasoning (fst (runState (generateRecommendations empty_context) world1)))
    (map snd strategy_reasoning).
Proof.
  pose proof (C5_recommendations empty_context world1)
    as (_ & _ & _ & _ & _ & Hperm & _ & _ & _ & _ & Hsorted).
  split; [exact (Hsorted world1_unit)|].
  split; [vm_compute; reflexivity | exact Hperm].
Defined.

(* ===================================================================== *)
(** * Further properties of the engine, the server and the database *)
(* ===================================================================== *)

(* ===================================================================== *)
(** ** Rounding between two doubles *)
(* ===================================================================== *)

Module FloatBounds.

Import FloatTheory.
Local Open Scope Z_scope.

Lemma F2R_mult m1 e1 m2 e2 : (F2R m1 e1 * F2R m2 e2)%R = F2R (m1 * m2) (e1 + e2).
Proof. unfold F2R. rewrite mult_IZR, bpow_add. ring. Qed.

Lemma F2R_inj m1 m2 e : F2R m1 e = F2R m2 e -> m1 = m2.
Proof.
  intros H.
  assert (m1 <= m2) by (apply (F2R_le_inv _ _ e); rewrite H; apply Rle_refl).
  assert (m2 <= m1) by (apply (F2R_le_inv _ _ e); rewrite H; apply Rle_refl).
  lia.
Qed.

Section Between.

Variables prec emax : Z.
Hypothesis prec_pos : 0 < prec.
Hypothesis prec_lt_emax : prec < emax.

Local Abbreviation fexp := (SpecFloat.fexp prec emax).
Local Abbreviation emin := (SpecFloat.emin prec emax).

(** Two doubles that are not negative and stand for the same real number
    are the same double. *)
Lemma SF2R_inj x y :
  nonneg_double prec emax x = true -> nonneg_double prec emax y = true ->
  SF2R x = SF2R y -> x = y.
Proof.
  destruct x as [[]| | |[] m1 e1], y as [[]| | |[] m2 e2]; try discriminate;
    cbn [nonneg_double SF2R cond_Zopp]; intros H1 H2 E; try reflexivity.
  - pose proof (F2R_pos (Zpos m2) e2 ltac:(lia)). lra.
  - pose proof (F2R_pos (Zpos m1) e1 ltac:(lia)). lra.
  - apply (bounded_canonical prec emax) in H1, H2.
    destruct H1 as [C1 _], H2 as [C2 _].
    destruct (Z.lt_trichotomy e1 e2) as [Hlt|[->|Hgt]].
    + pose proof (canonical_exp_lt prec emax m1 e1 m2 e2 C1 C2 Hlt). lra.
    + apply F2R_inj in E. congruence.
    + pose proof (canonical_exp_lt prec emax m2 e2 m1 e1 C2 C1 Hgt). lra.
Qed.

(** A product by a double whose mantissa has all its digits. *)
Theorem SFmul_nonneg_between x m2 e2 mL eL mU eU :
  nonneg_double prec emax x = true ->
  bounded prec emax m2 e2 = true -> Zdigits2 (Zpos m2) = prec ->
  repr prec emax mL eL -> repr prec emax mU eU -> eU <= emax - prec ->
  (F2R mL eL <= SF2R x * F2R (Zpos m2) e2 <= F2R mU eU)%R ->
  nonneg_double prec emax (SFmul prec emax x (S754_finite false m2 e2)) = true /\
  (F2R mL eL <= SF2R (SFmul prec emax x (S754_finite false m2 e2)) <= F2R mU eU)%R.
Proof.
  intros Hx Hy Hd HL HU HeU [Hlo Hhi].
  pose proof (F2R_pos mL eL (proj1 HL)) as HLpos.
  destruct x as [[]| | |[] m1 e1]; try discriminate; cbn [SFmul xorb].
  - cbn [SF2R] in Hlo. lra.
  - cbn [SF2R cond_Zopp] in Hlo, Hhi.
    rewrite F2R_mult, <- Pos2Z.inj_mul in Hlo, Hhi.
    destruct (binary_round_aux_bounds prec emax prec_pos false (Zpos (m1 * m2)) (e1 + e2)
                loc_Exact (F2R (Zpos (m1 * m2)) (e1 + e2)))
      as (m & e & Hr & Hm & Hc & Hup & Hdn); try lia.
    + pose proof (Zdigits2_bounds (Zpos m1) ltac:(lia)) as [A1 _].
      pose proof (Zdigits2_bounds (Zpos m2) ltac:(lia)) as [A2 _].
      pose proof (Zdigits2_pos (Zpos m1) ltac:(lia)) as P1.
      assert (Hdd : Zdigits2 (Zpos m1) + prec - 1 <= Zdigits2 (Zpos (m1 * m2))).
      { destruct (Z_le_gt_dec (Zdigits2 (Zpos m1) + prec - 1) (Zdigits2 (Zpos (m1 * m2))))
          as [|Hgt]; [assumption|exfalso].
        pose proof (Zdigits2_bounds (Zpos (m1 * m2)) ltac:(lia)) as [_ B].
        assert (2 ^ Zdigits2 (Zpos (m1 * m2)) <= 2 ^ (Zdigits2 (Zpos m1) - 1 + (prec - 1)))
          by (apply Z.pow_le_mono_r; lia).
        rewrite Z.pow_add_r in H by lia. rewrite Hd in A2.
        rewrite Pos2Z.inj_mul in B, H.
        assert (2 ^ (Zdigits2 (Zpos m1) - 1) * 2 ^ (prec - 1) <= Zpos m1 * Zpos m2).
        { apply Z.mul_le_mono_nonneg; try assumption; apply Z.pow_nonneg; lia. }
        lia. }
      unfold SpecFloat.fexp. lia.
    + reflexivity.
    + rewrite Hr.
      destruct (pack_nonneg_le prec emax m e mU eU Hm Hc HU HeU (Hup _ _ HU Hhi)) as [N V].
      rewrite V. split; [exact N|]. split; [apply Hdn | apply Hup]; assumption.
Qed.

(** A quotient of two positive doubles, away from underflow. *)
Theorem SFdiv_pos_between m1 e1 m2 e2 mL eL mU eU :
  Zdigits2 (Zpos m1) <= prec ->
  emin <= Zdigits2 (Zpos m1) + e1 - (Zdigits2 (Zpos m2) + e2) - prec ->
  repr prec emax mL eL -> repr prec emax mU eU -> eU <= emax - prec ->
  (F2R mL eL <= F2R (Zpos m1) e1 / F2R (Zpos m2) e2 <= F2R mU eU)%R ->
  let q := SFdiv prec emax (S754_finite false m1 e1) (S754_finite false m2 e2) in
  nonneg_double prec emax q = true /\ (F2R mL eL <= SF2R q <= F2R mU eU)%R.
Proof.
  intros Hd1 Hnu HL HU HeU [Hlo Hhi] q. subst q. cbn [SFdiv xorb].
  unfold SFdiv_core_binary.
  set (d1 := Zdigits2 (Zpos m1)) in *. set (d2 := Zdigits2 (Zpos m2)) in *.
  pose proof (Zdigits2_bounds (Zpos m1) ltac:(lia)) as [A1 B1].
  pose proof (Zdigits2_bounds (Zpos m2) ltac:(lia)) as [A2 B2].
  pose proof (Zdigits2_pos (Zpos m1) ltac:(lia)) as P1.
  pose proof (Zdigits2_pos (Zpos m2) ltac:(lia)) as P2.
  fold d1 d2 in A1, B1, A2, B2, P1, P2.
  assert (He' : Z.min (fexp (d1 + e1 - (d2 + e2))) (e1 - e2) = d1 + e1 - (d2 + e2) - prec)
    by (unfold SpecFloat.fexp; lia).
  rewrite He'. set (e' := d1 + e1 - (d2 + e2) - prec).
  assert (Hs : e1 - e2 - e' = prec + d2 - d1) by (unfold e'; lia).
  rewrite Hs.
  destruct (prec + d2 - d1) as [|s|s] eqn:Es; try lia.
  rewrite Z.shiftl_mul_pow2 by lia. rewrite <- Es.
  set (m' := Zpos m1 * 2 ^ (prec + d2 - d1)).
  pose proof (Z_div_mod_eq_full m' (Zpos m2)) as Hdm.
  pose proof (Z.mod_pos_bound m' (Zpos m2) ltac:(lia)) as Hr.
  unfold Z.div, Z.modulo in Hdm, Hr.
  destruct (Z.div_eucl m' (Zpos m2)) as [qq r].
  assert (Hpw : 0 < 2 ^ (prec + d2 - d1)) by (apply Z.pow_pos_nonneg; lia).
  assert (Hm'lo : 2 ^ (prec - 1) * 2 ^ d2 <= m').
  { unfold m'. rewrite <- Z.pow_add_r by lia.
    replace (prec - 1 + d2) with ((d1 - 1) + (prec + d2 - d1)) by lia.
    rewrite Z.pow_add_r by lia. nia. }
  assert (Hpp : 0 < 2 ^ (prec - 1)) by (apply Z.pow_pos_nonneg; lia).
  assert (Hq : 2 ^ (prec - 1) <= qq) by nia.
  set (v := (F2R (Zpos m1) e1 / F2R (Zpos m2) e2)%R) in *.
  assert (Hv : v = ((IZR qq + IZR r / IZR (Zpos m2)) * bpow e')%R).
  { unfold v, F2R.
    assert (IZR (Zpos m2) <> 0)%R by (apply not_0_IZR; lia).
    pose proof (bpow_pos e2). pose proof (bpow_pos e').
    replace (bpow e1) with (bpow (prec + d2 - d1) * bpow e' * bpow e2)%R
      by (rewrite <- !bpow_add; f_equal; unfold e'; lia).
    rewrite (bpow_IZR (prec + d2 - d1)) by lia.
    apply (f_equal IZR) in Hdm. rewrite plus_IZR, mult_IZR in Hdm.
    unfold m' in Hdm. rewrite mult_IZR in Hdm.
    field_simplify_eq; [|split; lra]. rewrite Hdm. ring. }
  assert (Hbr : bracket v qq e' (new_location (Zpos m2) r)).
  { unfold bracket. rewrite new_location_inexact.
    assert (0 < IZR (Zpos m2))%R by (apply IZR_lt; lia).
    pose proof (bpow_pos e').
    destruct (Z.eqb_spec r 0) as [->|Hr0]; cbn [negb].
    - rewrite Hv. unfold F2R, Rdiv. ring.
    - rewrite Hv, F2R_succ. unfold F2R.
      assert (0 < IZR r / IZR (Zpos m2) < 1)%R.
      { assert (0 < IZR r)%R by (apply IZR_lt; lia).
        assert (IZR r < IZR (Zpos m2))%R by (apply IZR_lt; lia).
        split; [apply Rdiv_lt_0_compat; assumption|].
        apply Rmult_lt_reg_r with (IZR (Zpos m2)); [assumption|].
        unfold Rdiv. rewrite Rmult_assoc, Rinv_l by lra. lra. }
      split; nra. }
  destruct (binary_round_aux_bounds prec emax prec_pos false qq e'
              (new_location (Zpos m2) r) v)
    as (m & e & Hres & Hm & Hc & Hup & Hdn); try assumption; try lia.
  - pose proof (digits_ge_prec prec prec_pos qq Hq). unfold SpecFloat.fexp. lia.
  - rewrite Hres.
    destruct (pack_nonneg_le prec emax m e mU eU Hm Hc HU HeU (Hup _ _ HU Hhi)) as [N V].
    rewrite V. split; [exact N|]. split; [apply Hdn | apply Hup]; assumption.
Qed.

End Between.

End FloatBounds.

(* ===================================================================== *)
(** ** Intervals of doubles *)
(* ===================================================================== *)

Module Interval.

Import FloatTheory.
Import FloatBounds.
Local Open Scope Z_scope.

(** The positive double with mantissa [m] and exponent [e]. *)
Definition dy (m : BinNums.positive) (e : Z) : number := S754_finite false m e.

(** A positive double whose mantissa has all 53 digits. *)
Definition normal (x : number) : bool :=
  match x with
  | S754_finite false m e => bounded prec emax m e && (Zdigits2 (Zpos m) =? prec)
  | _ => false
  end.

Lemma val_dy m e : val (dy m e) = F2R (Zpos m) e.
Proof. reflexivity. Qed.

Lemma positive_dy x :
  positive x = true -> exists m e, x = dy m e /\ bounded prec emax m e = true.
Proof.
  destruct x as [| | |[] m e]; try discriminate. intros H. exists m, e. auto.
Qed.

Lemma positive_val x : positive x = true -> (0 < val x)%R.
Proof.
  intros H. destruct (positive_dy x H) as (m & e & -> & _).
  rewrite val_dy. apply F2R_pos. lia.
Qed.

Lemma nonneg_val x : nonneg x = true -> (0 <= val x)%R.
Proof. apply (SF2R_nonneg prec emax). Qed.

Lemma val_inj x y : nonneg x = true -> nonneg y = true -> val x = val y -> x = y.
Proof. apply SF2R_inj. Qed.

Lemma leb_val a b :
  nonneg a = true -> nonneg b = true -> (leb a b = true <-> (val a <= val b)%R).
Proof. intros Ha Hb. unfold leb. apply (SFleb_nonneg prec emax); assumption. Qed.

Lemma val_zero : val zero = 0%R.
Proof. reflexivity. Qed.

Lemma add_between x y lo hi :
  nonneg x = true -> nonneg y = true -> positive lo = true -> positive hi = true ->
  (val lo <= val x + val y <= val hi)%R ->
  positive (add x y) = true /\ (val lo <= val (add x y) <= val hi)%R.
Proof.
  intros Hx Hy Hlo Hhi Hb.
  pose proof (positive_val lo Hlo) as Plo.
  destruct (positive_dy lo Hlo) as (mL & eL & -> & BL).
  destruct (positive_dy hi Hhi) as (mU & eU & -> & BU).
  rewrite !val_dy in *.
  destruct (SFadd_nonneg_between prec emax prec_pos x y (Zpos mL) eL (Zpos mU) eU)
    as [N B]; try assumption.
  - apply bounded_repr; assumption.
  - apply bounded_repr; assumption.
  - apply (bounded_canonical prec emax mU eU BU).
  - split; [|exact B]. apply nonneg_positive; [exact N|]. unfold val, add. lra.
Qed.

Lemma mul_between x c lo hi :
  nonneg x = true -> normal c = true -> positive lo = true -> positive hi = true ->
  (val lo <= val x * val c <= val hi)%R ->
  positive (mul x c) = true /\ (val lo <= val (mul x c) <= val hi)%R.
Proof.
  intros Hx Hc Hlo Hhi Hb.
  pose proof (positive_val lo Hlo) as Plo.
  destruct (positive_dy lo Hlo) as (mL & eL & -> & BL).
  destruct (positive_dy hi Hhi) as (mU & eU & -> & BU).
  destruct c as [| | |[] m2 e2]; try discriminate.
  cbn [normal] in Hc. apply andb_true_iff in Hc. destruct Hc as [B2 D2].
  apply Z.eqb_eq in D2.
  rewrite !val_dy in *.
  destruct (SFmul_nonneg_between prec emax prec_pos x m2 e2 (Zpos mL) eL (Zpos mU) eU)
    as [N B]; try assumption.
  - apply bounded_repr; assumption.
  - apply bounded_repr; assumption.
  - apply (bounded_canonical prec emax mU eU BU).
  - split; [|exact B]. apply nonneg_positive; [exact N|]. unfold val, mul. lra.
Qed.

Lemma div_between x y lo hi :
  positive x = true -> positive y = true ->
  positive lo = true -> positive hi = true ->
  (bpow (-1021) <= val lo)%R ->
  (val lo <= val x / val y <= val hi)%R ->
  positive (div x y) = true /\ (val lo <= val (div x y) <= val hi)%R.
Proof.
  intros Hx Hy Hlo Hhi Hnu Hb.
  pose proof (positive_val lo Hlo) as Plo.
  destruct (positive_dy lo Hlo) as (mL & eL & -> & BL).
  destruct (positive_dy hi Hhi) as (mU & eU & -> & BU).
  destruct (positive_dy x Hx) as (m1 & e1 & -> & B1).
  destruct (positive_dy y Hy) as (m2 & e2 & -> & B2).
  rewrite !val_dy in *.
  pose proof (bounded_canonical prec emax m1 e1 B1) as [C1 _].
  pose proof (F2R_digits (Zpos m1) e1 ltac:(lia)) as [_ U1].
  pose proof (F2R_digits (Zpos m2) e2 ltac:(lia)) as [L2 _].
  pose proof (F2R_pos (Zpos m2) e2 ltac:(lia)) as P2.
  pose proof (bpow_pos (Zdigits2 (Zpos m2) + e2 - 1)) as Pb.
  assert (Hq : (F2R (Zpos m1) e1 / F2R (Zpos m2) e2
                < bpow (Zdigits2 (Zpos m1) + e1 - (Zdigits2 (Zpos m2) + e2) + 1))%R).
  { apply Rmult_lt_reg_r with (F2R (Zpos m2) e2); [exact P2|].
    unfold Rdiv. rewrite Rmult_assoc, Rinv_l, Rmult_1_r by lra.
    apply Rlt_le_trans with (1 := U1).
    replace (Zdigits2 (Zpos m1) + e1)
      with ((Zdigits2 (Zpos m1) + e1 - (Zdigits2 (Zpos m2) + e2) + 1)
            + (Zdigits2 (Zpos m2) + e2 - 1)) at 1 by lia.
    rewrite bpow_add.
    apply Rmult_le_compat_l; [left; apply bpow_pos | exact L2]. }
  assert (Hd : -1021 < Zdigits2 (Zpos m1) + e1 - (Zdigits2 (Zpos m2) + e2) + 1).
  { apply bpow_lt_inv. lra. }
  destruct (SFdiv_pos_between prec emax prec_pos m1 e1 m2 e2 (Zpos mL) eL (Zpos mU) eU)
    as [N B]; try assumption.
  - unfold fexp, emin, emax, prec in *. lia.
  - unfold emin, emax, prec. lia.
  - apply bounded_repr; assumption.
  - apply bounded_repr; assumption.
  - apply (bounded_canonical prec emax mU eU BU).
  - split; [|exact B]. apply nonneg_positive; [exact N|]. unfold val, div, dy. lra.
Qed.

(** Comparing the values of given doubles comes down to comparing
    integers. *)
Lemma dy_le m1 e1 m2 e2 :
  (Zpos m1 * 2 ^ (e1 - Z.min e1 e2) <=? Zpos m2 * 2 ^ (e2 - Z.min e1 e2)) = true ->
  (val (dy m1 e1) <= val (dy m2 e2))%R.
Proof. rewrite !val_dy. apply F2R_le_aligned. Qed.

Lemma dy_lt m1 e1 m2 e2 :
  (Zpos m1 * 2 ^ (e1 - Z.min e1 e2) <? Zpos m2 * 2 ^ (e2 - Z.min e1 e2)) = true ->
  (val (dy m1 e1) < val (dy m2 e2))%R.
Proof.
  intros H. apply Z.ltb_lt in H. rewrite !val_dy.
  rewrite (F2R_on_grid (Zpos m1) e1 (Z.min e1 e2)),
          (F2R_on_grid (Zpos m2) e2 (Z.min e1 e2)) by lia.
  apply F2R_lt. exact H.
Qed.

Lemma dy_add_le m1 e1 m2 e2 m3 e3 :
  (let e := Z.min (Z.min e1 e2) e3 in
   Zpos m1 * 2 ^ (e1 - e) + Zpos m2 * 2 ^ (e2 - e) <=? Zpos m3 * 2 ^ (e3 - e)) = true ->
  (val (dy m1 e1) + val (dy m2 e2) <= val (dy m3 e3))%R.
Proof.
  cbv zeta. intros H. apply Z.leb_le in H. rewrite !val_dy.
  set (e := Z.min (Z.min e1 e2) e3) in *.
  rewrite (F2R_on_grid (Zpos m1) e1 e), (F2R_on_grid (Zpos m2) e2 e),
          (F2R_on_grid (Zpos m3) e3 e) by lia.
  unfold F2R. rewrite <- Rmult_plus_distr_r, <- plus_IZR.
  apply Rmult_le_compat_r; [left; apply bpow_pos | apply IZR_le; exact H].
Qed.

Lemma dy_le_add m1 e1 m2 e2 m3 e3 :
  (let e := Z.min (Z.min e1 e2) e3 in
   Zpos m3 * 2 ^ (e3 - e) <=? Zpos m1 * 2 ^ (e1 - e) + Zpos m2 * 2 ^ (e2 - e)) = true ->
  (val (dy m3 e3) <= val (dy m1 e1) + val (dy m2 e2))%R.
Proof.
  cbv zeta. intros H. apply Z.leb_le in H. rewrite !val_dy.
  set (e := Z.min (Z.min e1 e2) e3) in *.
  rewrite (F2R_on_grid (Zpos m1) e1 e), (F2R_on_grid (Zpos m2) e2 e),
          (F2R_on_grid (Zpos m3) e3 e) by lia.
  unfold F2R. rewrite <- Rmult_plus_distr_r, <- plus_IZR.
  apply Rmult_le_compat_r; [left; apply bpow_pos | apply IZR_le; exact H].
Qed.

Lemma dy_mul_le m1 e1 m2 e2 m3 e3 :
  (let e := Z.min (e1 + e2) e3 in
   Zpos m1 * Zpos m2 * 2 ^ (e1 + e2 - e) <=? Zpos m3 * 2 ^ (e3 - e)) = true ->
  (val (dy m1 e1) * val (dy m2 e2) <= val (dy m3 e3))%R.
Proof.
  cbv zeta. intros H. rewrite !val_dy, F2R_mult. apply F2R_le_aligned. exact H.
Qed.

Lemma dy_le_mul m1 e1 m2 e2 m3 e3 :
  (let e := Z.min (e1 + e2) e3 in
   Zpos m3 * 2 ^ (e3 - e) <=? Zpos m1 * Zpos m2 * 2 ^ (e1 + e2 - e)) = true ->
  (val (dy m3 e3) <= val (dy m1 e1) * val (dy m2 e2))%R.
Proof.
  cbv zeta. intros H. rewrite !val_dy, F2R_mult. apply F2R_le_aligned.
  rewrite Z.min_comm. exact H.
Qed.

(** The value of a double as a fraction. *)
Lemma val_dy_frac m e : e <= 0 -> val (dy m e) = (IZR (Zpos m) / IZR (2 ^ (- e)))%R.
Proof.
  intros He. rewrite val_dy. unfold F2R.
  assert (H : (bpow e * bpow (- e) = 1)%R).
  { rewrite <- bpow_add. replace (e + - e) with 0 by lia. apply bpow_0. }
  rewrite <- bpow_IZR by lia.
  pose proof (bpow_pos (- e)).
  field_simplify_eq; [|lra]. rewrite Rmult_assoc, H. ring.
Qed.

End Interval.

Import FloatTheory.
Import FloatBounds.
Import Interval.

(* ===================================================================== *)
(** ** The scores of an analysis, for every outfit *)
(* ===================================================================== *)

(** The colour harmony of [n >= 2] colours, [k] of them neutral. *)
Definition harmony (k n : nat) : number :=
  add c0_5 (mul (div (ofNat k) (ofNat n)) c0_4).

(** A JavaScript array holds fewer than [2^32] elements. *)
Definition array_length_ok {A} (arr : list A) : Prop :=
  (Z.of_nat (List.length arr) < 2 ^ 32)%Z.

Lemma colorHarmony_harmony colors :
  (2 <= List.length colors)%nat ->
  calculateColorHarmony colors = harmony (neutral_count colors) (List.length colors).
Proof.
  intros H. rewrite colorHarmony_formula.
  destruct colors as [|a [|b l]]; cbn [List.length] in H; try lia. reflexivity.
Qed.

Lemma val_three : val three = 3%R.
Proof.
  change three with (dy 6755399441055744 (-51)). rewrite val_dy_frac by lia.
  change (2 ^ (- -51))%Z with 2251799813685248%Z.
  apply Rmult_eq_reg_r with (IZR 2251799813685248); [|apply not_0_IZR; lia].
  unfold Rdiv. rewrite Rmult_assoc, Rinv_l by (apply not_0_IZR; lia).
  rewrite Rmult_1_r, <- mult_IZR. apply f_equal. reflexivity.
Qed.

Lemma val_c0_5 : val c0_5 = (1 / 2)%R.
Proof.
  rewrite c0_5_eq. change (S754_finite false 4503599627370496 (-53))
    with (dy 4503599627370496 (-53)).
  rewrite val_dy_frac by lia. change (2 ^ (- -53))%Z with (2 * 4503599627370496)%Z.
  rewrite mult_IZR. field.
Qed.

Lemma ofNat_positive n :
  (0 < n)%nat -> (Z.of_nat n < 2 ^ 53)%Z ->
  positive (ofNat n) = true /\ val (ofNat n) = IZR (Z.of_nat n).
Proof.
  intros H0 H1. destruct (ofNat_exact n H0 H1) as (m & e & -> & B & V).
  split; [exact B | exact V].
Qed.

Lemma harmony_no_neutral n :
  (0 < n)%nat -> (Z.of_nat n < 2 ^ 53)%Z -> harmony 0 n = c0_5.
Proof.
  intros H0 H1. unfold harmony.
  destruct (ofNat_exact n H0 H1) as (m & e & -> & _ & _). reflexivity.
Qed.

Lemma frac_le (a b c d : Z) :
  (0 < b)%Z -> (0 < d)%Z -> (a * d <= c * b)%Z -> (IZR a / IZR b <= IZR c / IZR d)%R.
Proof.
  intros Hb Hd H.
  assert (0 < IZR b)%R by (apply IZR_lt; lia).
  assert (0 < IZR d)%R by (apply IZR_lt; lia).
  apply Rmult_le_reg_r with (IZR b * IZR d)%R; [apply Rmult_lt_0_compat; assumption|].
  replace (IZR a / IZR b * (IZR b * IZR d))%R with (IZR a * IZR d)%R by (field; lra).
  replace (IZR c / IZR d * (IZR b * IZR d))%R with (IZR c * IZR b)%R by (field; lra).
  rewrite <- !mult_IZR. apply IZR_le. exact H.
Qed.

(** The three roundings of [0.5 + (k / n) * 0.4], each between two
    doubles. *)
Lemma harmony_between k n rlo rhi mlo mhi alo ahi :
  (0 < k)%nat -> (0 < n)%nat ->
  (Z.of_nat k < 2 ^ 53)%Z -> (Z.of_nat n < 2 ^ 53)%Z ->
  positive rlo = true -> positive rhi = true ->
  positive mlo = true -> positive mhi = true ->
  positive alo = true -> positive ahi = true ->
  (bpow (-1021) <= val rlo)%R ->
  (val rlo <= IZR (Z.of_nat k) / IZR (Z.of_nat n) <= val rhi)%R ->
  (val mlo <= val rlo * val c0_4)%R -> (val rhi * val c0_4 <= val mhi)%R ->
  (val alo <= val c0_5 + val mlo)%R -> (val c0_5 + val mhi <= val ahi)%R ->
  positive (harmony k n) = true /\ (val alo <= val (harmony k n) <= val ahi)%R.
Proof.
  intros Hk Hn Hk53 Hn53 Prlo Prhi Pmlo Pmhi Palo Pahi Hnu Hr Hm1 Hm2 Ha1 Ha2.
  destruct (ofNat_positive k Hk Hk53) as [Pk Vk].
  destruct (ofNat_positive n Hn Hn53) as [Pn Vn].
  unfold harmony.
  destruct (div_between (ofNat k) (ofNat n) rlo rhi) as [Pr Br]; try assumption.
  { rewrite Vk, Vn. exact Hr. }
  set (ratio := div (ofNat k) (ofNat n)) in *.
  assert (P4 : (0 < val c0_4)%R) by (apply positive_val; reflexivity).
  pose proof (positive_val rlo Prlo) as P0.
  destruct (mul_between ratio c0_4 mlo mhi) as [Pm Bm]; try assumption.
  { apply positive_nonneg; exact Pr. }
  { reflexivity. }
  { split.
    - apply Rle_trans with (1 := Hm1). apply Rmult_le_compat_r; lra.
    - apply Rle_trans with (2 := Hm2). apply Rmult_le_compat_r; lra. }
  set (p := mul ratio c0_4) in *.
  destruct (add_between c0_5 p alo ahi) as [Pa Ba]; try assumption.
  { reflexivity. }
  { apply positive_nonneg; exact Pm. }
  { lra. }
  split; assumption.
Qed.

(** At least one colour in four is neutral: the harmony reaches 0.6. *)
Lemma harmony_quarter k n :
  (0 < n)%nat -> (k <= n)%nat -> (n <= 4 * k)%nat -> (Z.of_nat n < 2 ^ 53)%Z ->
  positive (harmony k n) = true /\ (val c0_6 <= val (harmony k n))%R.
Proof.
  intros Hn Hkn H4 H53.
  destruct (harmony_between k n (dy 4503599627370496 (-54)) (dy 4503599627370496 (-52))
              (dy 7205759403792794 (-56)) c0_4 c0_6 c0_9) as [P [L _]];
    try reflexivity; try lia.
  - rewrite val_dy. change 4503599627370496%Z with (1 * 2 ^ 52)%Z.
    rewrite F2R_shift by lia. rewrite F2R_1. apply bpow_le. lia.
  - rewrite !val_dy_frac by lia. split.
    + change (2 ^ (- -54))%Z with (4 * 4503599627370496)%Z. apply frac_le; lia.
    + change (2 ^ (- -52))%Z with 4503599627370496%Z. apply frac_le; lia.
  - rewrite c0_4_eq. apply dy_le_mul. vm_compute. reflexivity.
  - rewrite c0_4_eq. apply dy_mul_le. vm_compute. reflexivity.
  - rewrite c0_5_eq, c0_6_eq. apply dy_le_add. vm_compute. reflexivity.
  - rewrite c0_5_eq, c0_4_eq, c0_9_eq. apply dy_add_le. vm_compute. reflexivity.
  - split; assumption.
Qed.

(** Evaluate the powers of two of a goal. *)
Ltac eval_pow :=
  repeat match goal with
         | |- context [(2 ^ ?e)%Z] =>
           let v := eval vm_compute in (2 ^ e)%Z in change (2 ^ e)%Z with v
         end.

Lemma bpow_le_dy m e : (-1021 <= e)%Z -> (bpow (-1021) <= val (dy m e))%R.
Proof.
  intros He. rewrite val_dy.
  apply Rle_trans with (bpow e); [apply bpow_le; exact He|].
  rewrite <- F2R_1. apply F2R_le. lia.
Qed.

(** Fewer than one colour in four is neutral: the harmony stays away
    from 0.6, by more than rounding can make up for. *)
Lemma harmony_below_quarter k n :
  (0 < k)%nat -> (4 * k < n)%nat -> (Z.of_nat n < 2 ^ 32)%Z ->
  positive (harmony k n) = true /\
  (val (dy 4503599627894784 (-53)) <= val (harmony k n)
   <= val (dy 5404319552836403 (-53)))%R.
Proof.
  intros Hk H4 H32.
  apply (harmony_between k n (dy 4503599627370496 (-84)) (dy 9007199252643840 (-55))
           (dy 4503599627370496 (-86)) (dy 7205759402744218 (-56)));
    try reflexivity; try lia.
  - apply bpow_le_dy. lia.
  - rewrite !val_dy_frac by lia. eval_pow. split; apply frac_le; lia.
  - rewrite c0_4_eq. apply dy_le_mul. vm_compute. reflexivity.
  - rewrite c0_4_eq. apply dy_mul_le. vm_compute. reflexivity.
  - rewrite c0_5_eq. apply dy_le_add. vm_compute. reflexivity.
  - rewrite c0_5_eq. apply dy_add_le. vm_compute. reflexivity.
Qed.

(** Every colour is neutral: exactly 0.9. *)
Lemma harmony_all n :
  (0 < n)%nat -> (Z.of_nat n < 2 ^ 53)%Z -> harmony n n = c0_9.
Proof.
  intros Hn H53.
  destruct (harmony_between n n (dy 4503599627370496 (-52)) (dy 4503599627370496 (-52))
              c0_4 c0_4 c0_9 c0_9) as [P [L U]];
    try reflexivity; try lia.
  - apply bpow_le_dy. lia.
  - rewrite !val_dy_frac by lia. eval_pow. split; apply frac_le; lia.
  - rewrite c0_4_eq. apply dy_le_mul. vm_compute. reflexivity.
  - rewrite c0_4_eq. apply dy_mul_le. vm_compute. reflexivity.
  - rewrite c0_5_eq, c0_4_eq, c0_9_eq. apply dy_le_add. vm_compute. reflexivity.
  - rewrite c0_5_eq, c0_4_eq, c0_9_eq. apply dy_add_le. vm_compute. reflexivity.
  - apply val_inj; [apply positive_nonneg; exact P | reflexivity | lra].
Qed.

(** Some colour is neutral and some is not: strictly between 0.5 and
    0.9. *)
Lemma harmony_mixed k n :
  (0 < k)%nat -> (k < n)%nat -> (Z.of_nat n < 2 ^ 32)%Z ->
  positive (harmony k n) = true /\
  (val (dy 4503599627894784 (-53)) <= val (harmony k n)
   <= val (dy 8106479329258701 (-53)))%R.
Proof.
  intros Hk Hkn H32.
  apply (harmony_between k n (dy 4503599627370496 (-84)) (dy 9007199252643840 (-53))
           (dy 4503599627370496 (-86)) (dy 7205759402744218 (-54)));
    try reflexivity; try lia.
  - apply bpow_le_dy. lia.
  - rewrite !val_dy_frac by lia. eval_pow. split; apply frac_le; lia.
  - rewrite c0_4_eq. apply dy_le_mul. vm_compute. reflexivity.
  - rewrite c0_4_eq. apply dy_mul_le. vm_compute. reflexivity.
  - rewrite c0_5_eq. apply dy_le_add. vm_compute. reflexivity.
  - rewrite c0_5_eq. apply dy_add_le. vm_compute. reflexivity.
Qed.

Lemma colorHarmony_val colors :
  (Z.of_nat (List.length colors) < 2 ^ 53)%Z ->
  positive (calculateColorHarmony colors) = true /\
  (val c0_5 <= val (calculateColorHarmony colors) <= val c0_9)%R.
Proof.
  intros Hlen. rewrite colorHarmony_formula.
  destruct colors as [|a [|b l]].
  - split; [reflexivity|]. split; [apply Rle_refl|].
    rewrite c0_5_eq, c0_9_eq. apply dy_le. vm_compute. reflexivity.
  - split; [reflexivity|]. split; [|apply Rle_refl].
    rewrite c0_5_eq, c0_9_eq. apply dy_le. vm_compute. reflexivity.
  - destruct (harmony_range (neutral_count (a :: b :: l)) (List.length (a :: b :: l)))
      as [N [L U]].
    + apply neutral_count_le.
    + cbn [List.length]. lia.
    + exact Hlen.
    + split; [|split; assumption].
      apply nonneg_positive; [exact N|].
      apply Rlt_le_trans with (2 := L). apply positive_val. reflexivity.
Qed.

Lemma styleCoherence_cases o :
  (style (tags o) = [] /\ styleCoherence (analyzeOutfit o) = c0_5) \/
  (style (tags o) <> [] /\
   ((conflicting_pairs (style (tags o)) = 0%nat /\
     styleCoherence (analyzeOutfit o) = c0_8) \/
    (conflicting_pairs (style (tags o)) = 1%nat /\
     styleCoherence (analyzeOutfit o) = d0_6000000000000001) \/
    (conflicting_pairs (style (tags o)) = 2%nat /\
     styleCoherence (analyzeOutfit o) = c0_4) \/
    (conflicting_pairs (style (tags o)) = 3%nat /\
     styleCoherence (analyzeOutfit o) = d0_19999999999999996))).
Proof.
  rewrite styleCoherence_formula.
  destruct (style (tags o)) as [|s l] eqn:E; [left; auto|right].
  split; [discriminate|].
  pose proof (conflicting_pairs_le_3 (s :: l)) as H3.
  destruct coherence_of_values as (V0 & V1 & V2 & V3).
  destruct (conflicting_pairs (s :: l)) as [|[|[|[|c]]]]; try lia; auto 6.
Qed.

Lemma occasionFit_cases o :
  (occasion (tags o) = [] /\ occasionAppropriateness (analyzeOutfit o) = c0_5) \/
  (occasion (tags o) <> [] /\ occasionAppropriateness (analyzeOutfit o) = c0_8).
Proof.
  cbn [analyzeOutfit occasionAppropriateness]. unfold calculateOccasionFit.
  destruct (occasion (tags o)) as [|x l]; [left; auto|right].
  split; [discriminate | reflexivity].
Qed.

(** The improvement notes, one optional note per rule. *)
Lemma suggestedImprovements_formula o :
  suggestedImprovements (analyzeOutfit o) =
  Some ((if ltb (styleCoherence (analyzeOutfit o)) c0_6 then [msg_accessories] else []) ++
        (if ltb (colorHarmony (analyzeOutfit o)) c0_6 then [msg_limit_colors] else []) ++
        (if Nat.ltb 6 (List.length (garments (tags o))) then [msg_simplify] else []))%list.
Proof.
  cbn [analyzeOutfit suggestedImprovements styleCoherence colorHarmony].
  unfold generateImprovements, push.
  destruct (ltb (calculateStyleCoherence o) c0_6);
    destruct (ltb (calculateColorHarmony (colors (tags o))) c0_6);
    destruct (Nat.ltb 6 (List.length (garments (tags o)))); reflexivity.
Qed.

Lemma improvement_notes_In (b1 b2 b3 : bool) :
  let l := ((if b1 then [msg_accessories] else []) ++
            (if b2 then [msg_limit_colors] else []) ++
            (if b3 then [msg_simplify] else []))%list in
  (In msg_accessories l <-> b1 = true) /\
  (In msg_limit_colors l <-> b2 = true) /\
  (In msg_simplify l <-> b3 = true).
Proof.
  destruct b1, b2, b3; cbn [app In]; repeat split; intros H;
    try discriminate H; auto 6;
    repeat (destruct H as [H|H]; try discriminate H); try contradiction.
Qed.

(** X1.  The three scores of an analysis are finite doubles between 0 and
    1, as the type [AIAnalysis] announces ("0-1"): this holds for every
    outfit whose colour array has a length a double holds exactly. *)
Theorem X1_scores_between_0_and_1 (o : Outfit) :
  (Z.of_nat (List.length (colors (tags o))) < 2 ^ 53)%Z ->
  let a := analyzeOutfit o in
  Forall (fun x => nonneg x = true /\ geb x zero = true /\ leb x one = true)
         [styleCoherence a; colorHarmony a; occasionAppropriateness a].
Proof.
  intros Hlen a. subst a.
  constructor; [|constructor; [|constructor; [|constructor]]].
  - destruct (styleCoherence_cases o)
      as [[_ ->]|[_ [[_ ->]|[[_ ->]|[[_ ->]|[_ ->]]]]]];
      repeat split; vm_compute; reflexivity.
  - cbn [analyzeOutfit colorHarmony].
    destruct (colorHarmony_val (colors (tags o)) Hlen) as [P [L U]].
    pose proof (positive_nonneg _ P) as N.
    split; [exact N|]. split.
    + apply geb_val; [exact N | reflexivity|].
      rewrite val_zero. apply nonneg_val. exact N.
    + apply leb_val; [exact N | reflexivity|].
      apply Rle_trans with (1 := U). rewrite c0_9_eq, one_eq.
      apply dy_le. vm_compute. reflexivity.
  - destruct (occasionFit_cases o) as [[_ ->]|[_ ->]];
      repeat split; vm_compute; reflexivity.
Qed.

Lemma X1_scores_between_0_and_1_witness :
  Forall (fun x => nonneg x = true /\ geb x zero = true /\ leb x one = true)
         [styleCoherence (analyzeOutfit (withColors ["Navy Blue"; "red"; "off-white"]));
          colorHarmony (analyzeOutfit (withColors ["Navy Blue"; "red"; "off-white"]));
          occasionAppropriateness
            (analyzeOutfit (withColors ["Navy Blue"; "red"; "off-white"]))].
Proof.
  apply (X1_scores_between_0_and_1 (withColors ["Navy Blue"; "red"; "off-white"])).
  cbn [withColors mkOutfit mkTags tags colors List.length]. lia.
Defined.

(** X2.  The note about accessories is suggested exactly when the outfit
    has no style tag or at least two of the three conflicting pairs: a
    single conflict scores [0.8 - 0.2], which in double arithmetic is above
    the threshold 0.6 of the rule, and so raises no note. *)
Theorem X2_accessory_note (o : Outfit) :
  exists improvements,
    suggestedImprovements (analyzeOutfit o) = Some improvements /\
    (In msg_accessories improvements <->
     style (tags o) = [] \/ (2 <= conflicting_pairs (style (tags o)))%nat).
Proof.
  rewrite suggestedImprovements_formula. eexists. split; [reflexivity|].
  rewrite (proj1 (improvement_notes_In _ _ _)).
  destruct (styleCoherence_cases o)
    as [[E ->]|[E [[C ->]|[[C ->]|[[C ->]|[C ->]]]]]]; rewrite ?C.
  - split; [auto | intros _; vm_compute; reflexivity].
  - split; [vm_compute; discriminate | intros [H|H]; [contradiction | lia]].
  - split; [vm_compute; discriminate | intros [H|H]; [contradiction | lia]].
  - split; [intros _; right; lia | intros _; vm_compute; reflexivity].
  - split; [intros _; right; lia | intros _; vm_compute; reflexivity].
Qed.

Lemma colour_note_rule colors :
  array_length_ok colors ->
  (ltb (calculateColorHarmony colors) c0_6 = true <->
   colors = [] \/
   ((2 <= List.length colors)%nat /\
    (4 * neutral_count colors < List.length colors)%nat)).
Proof.
  unfold array_length_ok. intros Hlen.
  assert (H5 : ltb c0_5 c0_6 = true) by (vm_compute; reflexivity).
  assert (H9 : ltb c0_9 c0_6 = false) by (vm_compute; reflexivity).
  destruct colors as [|a [|b l]].
  - rewrite colorHarmony_formula. split; [auto | intros _; exact H5].
  - rewrite colorHarmony_formula, H9. split; [discriminate|].
    intros [H|[H _]]; [discriminate | cbn [List.length] in H; lia].
  - rewrite colorHarmony_harmony by (cbn [List.length]; lia).
    pose proof (neutral_count_le (a :: b :: l)) as Hk.
    set (k := neutral_count (a :: b :: l)) in *.
    set (n := List.length (a :: b :: l)) in *.
    assert (Hn : (2 <= n)%nat) by (unfold n; cbn [List.length]; lia).
    destruct (Nat.lt_ge_cases (4 * k) n) as [Hlt|Hge].
    + split; [intros _; right; split; assumption | intros _].
      destruct (Nat.eq_dec k 0) as [->|Hk0].
      * rewrite harmony_no_neutral by lia. vm_compute. reflexivity.
      * destruct (harmony_below_quarter k n) as [P [_ U]]; try lia.
        apply ltb_val; [apply positive_nonneg; exact P | reflexivity|].
        apply Rle_lt_trans with (1 := U). rewrite c0_6_eq.
        apply dy_lt. vm_compute. reflexivity.
    + split; [|intros [H|[_ H]]; [discriminate | lia]].
      intros H. exfalso.
      destruct (harmony_quarter k n) as [P L]; try lia.
      apply ltb_val in H; [lra | apply positive_nonneg; exact P | reflexivity].
Qed.

(** X3.  The note "Try limiting to 2-3 main colors" is suggested exactly
    when the outfit has no colour, or at least two colours of which fewer
    than one in four is neutral.  The number of colours itself plays no
    part: two colours that are not neutral raise the note, twenty neutral
    ones do not. *)
Theorem X3_colour_note (o : Outfit) :
  array_length_ok (colors (tags o)) ->
  exists improvements,
    suggestedImprovements (analyzeOutfit o) = Some improvements /\
    (In msg_limit_colors improvements <->
     colors (tags o) = [] \/
     ((2 <= List.length (colors (tags o)))%nat /\
      (4 * neutral_count (colors (tags o)) < List.length (colors (tags o)))%nat)).
Proof.
  intros Hlen. rewrite suggestedImprovements_formula. eexists. split; [reflexivity|].
  rewrite (proj1 (proj2 (improvement_notes_In _ _ _))).
  cbn [analyzeOutfit colorHarmony]. apply colour_note_rule. exact Hlen.
Qed.

Lemma X3_colour_note_witness :
  exists improvements,
    suggestedImprovements (analyzeOutfit (withColors ["red"; "green"]))
    = Some improvements /\
    In msg_limit_colors improvements.
Proof.
  destruct (X3_colour_note (withColors ["red"; "green"])) as (l & E & H).
  - unfold array_length_ok.
    cbn [withColors mkOutfit mkTags tags colors List.length]. lia.
  - exists l. split; [exact E|]. apply H. right.
    split; [cbn [withColors mkOutfit mkTags tags colors List.length]; lia|].
    vm_compute. lia.
Defined.

(** X4.  The colour harmony reaches its maximum 0.9 exactly when there is
    a single colour (neutral or not) or when every one of two or more
    colours is neutral, and its minimum 0.5 exactly when there is no
    colour or when none of two or more colours is neutral. *)
Theorem X4_colour_harmony_extremes (o : Outfit) :
  array_length_ok (colors (tags o)) ->
  let cs := colors (tags o) in
  let h := colorHarmony (analyzeOutfit o) in
  (h = c0_9 <->
   List.length cs = 1%nat \/
   ((2 <= List.length cs)%nat /\ neutral_count cs = List.length cs)) /\
  (h = c0_5 <->
   cs = [] \/ ((2 <= List.length cs)%nat /\ neutral_count cs = 0%nat)).
Proof.
  intros Hlen cs h. subst h. unfold array_length_ok in Hlen. fold cs in Hlen.
  cbn [analyzeOutfit colorHarmony]. fold cs.
  assert (Hne : c0_9 <> c0_5) by (rewrite c0_9_eq, c0_5_eq; discriminate).
  destruct cs as [|a [|b l]] eqn:E.
  - rewrite colorHarmony_formula. split.
    + split; [intros H; symmetry in H; contradiction|].
      cbn [List.length]. intros [H|[H _]]; [discriminate | lia].
    + split; auto.
  - rewrite colorHarmony_formula. split.
    + split; [intros _; left; reflexivity | reflexivity].
    + split; [intros H; contradiction|].
      cbn [List.length]. intros [H|[H _]]; [discriminate | lia].
  - rewrite colorHarmony_harmony by (cbn [List.length]; lia).
    pose proof (neutral_count_le (a :: b :: l)) as Hk.
    set (k := neutral_count (a :: b :: l)) in *.
    set (n := List.length (a :: b :: l)) in *.
    assert (Hn : (2 <= n)%nat) by (unfold n; cbn [List.length]; lia).
    destruct (Nat.eq_dec k 0) as [K0|K0]; [|destruct (Nat.eq_dec k n) as [Kn|Kn]].
    + rewrite K0, harmony_no_neutral by lia. split.
      * split; [intros H; symmetry in H; contradiction | intros [H|[_ H]]; lia].
      * split; [intros _; right; split; [exact Hn | reflexivity] | reflexivity].
    + rewrite Kn, harmony_all by lia. split.
      * split; [intros _; right; split; [exact Hn | reflexivity] | reflexivity].
      * split; [intros H; contradiction | intros [H|[_ H]]; [discriminate | lia]].
    + destruct (harmony_mixed k n) as [P [L U]]; try lia.
      assert (L5 : (val c0_5 < val (dy 4503599627894784 (-53)))%R)
        by (rewrite c0_5_eq; apply dy_lt; vm_compute; reflexivity).
      assert (U9 : (val (dy 8106479329258701 (-53)) < val c0_9)%R)
        by (rewrite c0_9_eq; apply dy_lt; vm_compute; reflexivity).
      split.
      * split; [intros H; rewrite H in U; lra | intros [H|[_ H]]; lia].
      * split; [intros H; rewrite H in L; lra | intros [H|[_ H]]; [discriminate | lia]].
Qed.

Lemma X4_colour_harmony_extremes_witness :
  colorHarmony (analyzeOutfit (withColors ["Charcoal Gray"; "off-white"; "NAVY"])) = c0_9 /\
  colorHarmony (analyzeOutfit (withColors ["red"; "green"])) = c0_5.
Proof.
  split.
  - apply (X4_colour_harmony_extremes (withColors ["Charcoal Gray"; "off-white"; "NAVY"])).
    + unfold array_length_ok.
      cbn [withColors mkOutfit mkTags tags colors List.length]. lia.
    + right. split; [cbn [withColors mkOutfit mkTags tags colors List.length]; lia|].
      vm_compute. reflexivity.
  - apply (X4_colour_harmony_extremes (withColors ["red"; "green"])).
    + unfold array_length_ok.
      cbn [withColors mkOutfit mkTags tags colors List.length]. lia.
    + right. split; [cbn [withColors mkOutfit mkTags tags colors List.length]; lia|].
      vm_compute. reflexivity.
Defined.

(* ===================================================================== *)
(** ** The summary, from the tags *)
(* ===================================================================== *)

(** [(style + color + occasion) / 3] *)
Definition mean3 (s c o : number) : number := div (add (add s c) o) three.

Lemma summary_formula o :
  let a := analyzeOutfit o in
  let overall := mean3 (styleCoherence a) (colorHarmony a) (occasionAppropriateness a) in
  summary a = if geb overall c0_8 then msg_excellent
              else if geb overall c0_6 then msg_good else msg_adjust.
Proof. reflexivity. Qed.

(** The three roundings of the mean, each between two doubles. *)
Lemma mean3_between s c o a1lo a1hi a2lo a2hi qlo qhi :
  nonneg s = true -> nonneg c = true -> nonneg o = true ->
  positive a1lo = true -> positive a1hi = true ->
  positive a2lo = true -> positive a2hi = true ->
  positive qlo = true -> positive qhi = true ->
  (bpow (-1021) <= val qlo)%R ->
  (val a1lo <= val s + val c <= val a1hi)%R ->
  (val a2lo <= val a1lo + val o)%R -> (val a1hi + val o <= val a2hi)%R ->
  (val qlo * val three <= val a2lo)%R -> (val a2hi <= val qhi * val three)%R ->
  positive (mean3 s c o) = true /\ (val qlo <= val (mean3 s c o) <= val qhi)%R.
Proof.
  intros Ns Nc No P1 P2 P3 P4 P5 P6 Hnu H1 H2 H3 H4 H5. unfold mean3.
  destruct (add_between s c a1lo a1hi) as [Pa Ba]; try assumption.
  set (a1 := add s c) in *.
  destruct (add_between a1 o a2lo a2hi) as [Pb Bb]; try assumption.
  { apply positive_nonneg; exact Pa. }
  { lra. }
  set (a2 := add a1 o) in *.
  apply div_between; try assumption; try reflexivity.
  rewrite val_three in *. lra.
Qed.

Lemma mean3_upper s c o shi chi ohi a1hi a2hi qhi :
  nonneg s = true -> nonneg c = true -> nonneg o = true ->
  positive a1hi = true -> positive a2hi = true -> positive qhi = true ->
  (val s <= val shi)%R -> (val c0_5 <= val c <= val chi)%R ->
  (val c0_5 <= val o <= val ohi)%R ->
  (val shi + val chi <= val a1hi)%R -> (val a1hi + val ohi <= val a2hi)%R ->
  (val a2hi <= val qhi * val three)%R ->
  positive (mean3 s c o) = true /\ (val (mean3 s c o) <= val qhi)%R.
Proof.
  intros Ns Nc No P1 P2 P3 Hs Hc Ho H1 H2 H3.
  pose proof (nonneg_val s Ns) as S0.
  destruct (mean3_between s c o c0_5 a1hi one a2hi (dy 4503599627370496 (-54)) qhi)
    as [P [_ U]]; try assumption; try reflexivity.
  - apply bpow_le_dy. lia.
  - lra.
  - apply Rle_trans with (val c0_5 + val c0_5)%R; [|lra].
    rewrite c0_5_eq, one_eq. apply dy_le_add. vm_compute. reflexivity.
  - lra.
  - rewrite one_eq. change three with (dy 6755399441055744 (-51)).
    apply dy_mul_le. vm_compute. reflexivity.
  - split; assumption.
Qed.

Lemma mean3_lower s c o slo a1lo a2lo qlo :
  nonneg s = true -> nonneg c = true -> nonneg o = true ->
  positive a1lo = true -> positive a2lo = true -> positive qlo = true ->
  (bpow (-1021) <= val qlo)%R ->
  (val slo <= val s <= val one)%R -> (val c0_5 <= val c <= val one)%R ->
  (val c0_5 <= val o <= val one)%R ->
  (val a1lo <= val slo + val c0_5)%R -> (val a2lo <= val a1lo + val c0_5)%R ->
  (val qlo * val three <= val a2lo)%R ->
  positive (mean3 s c o) = true /\ (val qlo <= val (mean3 s c o))%R.
Proof.
  intros Ns Nc No P1 P2 P3 Hnu Hs Hc Ho H1 H2 H3.
  destruct (mean3_between s c o a1lo (dy 4503599627370496 (-51)) a2lo
              (dy 6755399441055744 (-51)) qlo one)
    as [P [L _]]; try assumption; try reflexivity.
  - split; [lra|].
    apply Rle_trans with (val one + val one)%R; [lra|].
    rewrite one_eq. apply dy_add_le. vm_compute. reflexivity.
  - lra.
  - apply Rle_trans with (val (dy 4503599627370496 (-51)) + val one)%R; [lra|].
    rewrite one_eq. apply dy_add_le. vm_compute. reflexivity.
  - rewrite one_eq. change three with (dy 6755399441055744 (-51)).
    apply dy_le_mul. vm_compute. reflexivity.
  - split; assumption.
Qed.

(** The scores of an analysis as doubles with their bounds. *)
Lemma styleCoherence_val o :
  nonneg (styleCoherence (analyzeOutfit o)) = true /\
  (val (styleCoherence (analyzeOutfit o)) <= val c0_8)%R /\
  ((style (tags o) = [] \/ (1 <= conflicting_pairs (style (tags o)))%nat) ->
   (val (styleCoherence (analyzeOutfit o)) <= val (dy 5629499534213120 (-53)))%R).
Proof.
  assert (D : forall m e m' e', S754_finite false m e = dy m e /\ dy m' e' = dy m' e')
    by (intros; split; reflexivity).
  destruct (styleCoherence_cases o)
    as [[E ->]|[E [[C ->]|[[C ->]|[[C ->]|[C ->]]]]]];
    (split; [reflexivity|]); (split; [|intros H]);
    rewrite ?c0_5_eq, ?c0_8_eq, ?c0_4_eq; unfold d0_6000000000000001, d0_19999999999999996;
    try (apply dy_le; vm_compute; reflexivity).
  exfalso. destruct H as [H|H]; [contradiction | lia].
Qed.

Lemma occasionFit_val o :
  nonneg (occasionAppropriateness (analyzeOutfit o)) = true /\
  (val c0_5 <= val (occasionAppropriateness (analyzeOutfit o)) <= val c0_8)%R.
Proof.
  destruct (occasionFit_cases o) as [[_ ->]|[_ ->]];
    (split; [reflexivity|]); rewrite c0_5_eq, c0_8_eq;
    split; apply dy_le; vm_compute; reflexivity.
Qed.

Lemma not_excellent o :
  geb (mean3 (styleCoherence (analyzeOutfit o)) (colorHarmony (analyzeOutfit o))
             (occasionAppropriateness (analyzeOutfit o))) c0_8 = false ->
  summary (analyzeOutfit o) <> msg_excellent.
Proof.
  intros H. rewrite summary_formula. cbv zeta. rewrite H.
  destruct (geb _ c0_6); discriminate.
Qed.

Lemma geb_false_of_lt x y :
  nonneg x = true -> nonneg y = true -> (val x < val y)%R -> geb x y = false.
Proof.
  intros Nx Ny H. destruct (geb x y) eqn:E; [|reflexivity].
  apply geb_val in E; [lra | assumption | assumption].
Qed.

(** X5.  An analysis is summarised as excellent only if the outfit has
    style tags without any conflicting pair, an occasion and at least one
    colour: as soon as one of the three scores is a neutral 0.5 or carries
    a conflict penalty, the mean of the three stays below 0.8. *)
Theorem X5_excellent_needs_all_tags (o : Outfit) :
  (Z.of_nat (List.length (colors (tags o))) < 2 ^ 53)%Z ->
  summary (analyzeOutfit o) = msg_excellent ->
  style (tags o) <> [] /\ conflicting_pairs (style (tags o)) = 0%nat /\
  occasion (tags o) <> [] /\ colors (tags o) <> [].
Proof.
  intros Hlen Hex.
  destruct (styleCoherence_val o) as (Ns & Us & Us').
  destruct (occasionFit_val o) as (No & Bo).
  assert (Hc := colorHarmony_val (colors (tags o)) Hlen).
  change (calculateColorHarmony (colors (tags o)))
    with (colorHarmony (analyzeOutfit o)) in Hc.
  destruct Hc as (Pc & Bc). pose proof (positive_nonneg _ Pc) as Nc.
  assert (Q1 : (val (dy 7177611906121728 (-53)) < val c0_8)%R)
    by (rewrite c0_8_eq; apply dy_lt; vm_compute; reflexivity).
  assert (Q2 : (val (dy 6755399441055744 (-53)) < val c0_8)%R)
    by (rewrite c0_8_eq; apply dy_lt; vm_compute; reflexivity).
  assert (Hstyle : ~ (style (tags o) = [] \/ (1 <= conflicting_pairs (style (tags o)))%nat)).
  { intros H. apply (not_excellent o); [|exact Hex].
    destruct (mean3_upper _ _ _ (dy 5629499534213120 (-53)) c0_9 c0_8
                (dy 7036874417766400 (-52)) (dy 5348024557502464 (-51))
                (dy 7177611906121728 (-53)) Ns Nc No) as [P U];
      try reflexivity; try assumption; try (apply Us'; exact H).
    - rewrite c0_9_eq. apply dy_add_le. vm_compute. reflexivity.
    - rewrite c0_8_eq. apply dy_add_le. vm_compute. reflexivity.
    - change three with (dy 6755399441055744 (-51)). apply dy_le_mul.
      vm_compute. reflexivity.
    - apply geb_false_of_lt; [apply positive_nonneg; exact P | reflexivity | lra]. }
  assert (Hocc : occasion (tags o) <> []).
  { intros H. apply (not_excellent o); [|exact Hex].
    destruct (occasionFit_cases o) as [[_ Eo]|[Eo _]]; [|contradiction].
    rewrite Eo in *.
    destruct (mean3_upper _ _ _ c0_8 c0_9 c0_5
                (dy 7881299347898368 (-52)) (dy 5066549580791808 (-51))
                (dy 6755399441055744 (-53)) Ns Nc No) as [P U];
      try reflexivity; try assumption.
    - split; apply Rle_refl.
    - rewrite c0_8_eq, c0_9_eq. apply dy_add_le. vm_compute. reflexivity.
    - rewrite c0_5_eq. apply dy_add_le. vm_compute. reflexivity.
    - change three with (dy 6755399441055744 (-51)). apply dy_le_mul.
      vm_compute. reflexivity.
    - apply geb_false_of_lt; [apply positive_nonneg; exact P | reflexivity | lra]. }
  assert (Hcol : colors (tags o) <> []).
  { intros H. apply (not_excellent o); [|exact Hex].
    assert (Ec : colorHarmony (analyzeOutfit o) = c0_5).
    { cbn [analyzeOutfit colorHarmony]. rewrite H. reflexivity. }
    rewrite Ec in *.
    destruct (mean3_upper _ _ _ c0_8 c0_5 c0_8
                (dy 5910974510923776 (-52)) (dy 4785074604081152 (-51))
                (dy 6755399441055744 (-53)) Ns Nc No) as [P U];
      try reflexivity; try assumption.
    - split; apply Rle_refl.
    - rewrite c0_8_eq, c0_5_eq. apply dy_add_le. vm_compute. reflexivity.
    - rewrite c0_8_eq. apply dy_add_le. vm_compute. reflexivity.
    - change three with (dy 6755399441055744 (-51)). apply dy_le_mul.
      vm_compute. reflexivity.
    - apply geb_false_of_lt; [apply positive_nonneg; exact P | reflexivity | lra]. }
  split; [|split; [|split; assumption]].
  - intros H. apply Hstyle. left. exact H.
  - destruct (conflicting_pairs (style (tags o))); [reflexivity|].
    exfalso. apply Hstyle. right. lia.
Qed.

Lemma X5_excellent_needs_all_tags_witness :
  summary (analyzeOutfit (mkOutfit (mkTags ["work"] ["classic"] ["navy"] []) None))
  = msg_excellent /\
  conflicting_pairs ["classic"] = 0%nat.
Proof.
  assert (E : summary (analyzeOutfit
                         (mkOutfit (mkTags ["work"] ["classic"] ["navy"] []) None))
              = msg_excellent) by (vm_compute; reflexivity).
  split; [exact E|].
  apply (X5_excellent_needs_all_tags
           (mkOutfit (mkTags ["work"] ["classic"] ["navy"] []) None)).
  - cbn [mkOutfit mkTags tags colors List.length]. lia.
  - exact E.
Defined.

(** X6.  An outfit whose style tags hold no conflicting pair is never
    told to adjust: its summary is the excellent or the good one,
    whatever its colours and occasion.  An outfit with all three
    conflicting pairs and no occasion is always told to adjust. *)
Theorem X6_summary_floor_and_ceiling (o : Outfit) :
  (Z.of_nat (List.length (colors (tags o))) < 2 ^ 53)%Z ->
  (style (tags o) <> [] -> conflicting_pairs (style (tags o)) = 0%nat ->
   summary (analyzeOutfit o) = msg_excellent \/ summary (analyzeOutfit o) = msg_good) /\
  (conflicting_pairs (style (tags o)) = 3%nat -> occasion (tags o) = [] ->
   summary (analyzeOutfit o) = msg_adjust).
Proof.
  intros Hlen.
  destruct (styleCoherence_val o) as (Ns & Us & _).
  destruct (occasionFit_val o) as (No & Bo).
  assert (Hc := colorHarmony_val (colors (tags o)) Hlen).
  change (calculateColorHarmony (colors (tags o)))
    with (colorHarmony (analyzeOutfit o)) in Hc.
  destruct Hc as (Pc & Bc). pose proof (positive_nonneg _ Pc) as Nc.
  assert (U9 : (val c0_9 <= val one)%R)
    by (rewrite c0_9_eq, one_eq; apply dy_le; vm_compute; reflexivity).
  assert (U8 : (val c0_8 <= val one)%R)
    by (rewrite c0_8_eq, one_eq; apply dy_le; vm_compute; reflexivity).
  split.
  - intros Hne Hz. rewrite summary_formula. cbv zeta.
    destruct (geb _ c0_8); [left; reflexivity | right].
    destruct (styleCoherence_cases o)
      as [[E _]|[_ [[_ Es]|[[C _]|[[C _]|[C _]]]]]]; try contradiction; try lia.
    rewrite Es in *.
    destruct (mean3_lower _ _ _ c0_8 (dy 5854679515581645 (-52))
                (dy 8106479329266893 (-52)) c0_6 Ns Nc No) as [P L];
      try reflexivity; try assumption.
    + rewrite c0_6_eq. apply bpow_le_dy. lia.
    + split; [apply Rle_refl | exact U8].
    + lra.
    + lra.
    + rewrite c0_8_eq, c0_5_eq. apply dy_le_add. vm_compute. reflexivity.
    + rewrite c0_5_eq. apply dy_le_add. vm_compute. reflexivity.
    + rewrite c0_6_eq. change three with (dy 6755399441055744 (-51)).
      apply dy_mul_le. vm_compute. reflexivity.
    + assert (G : geb (mean3 c0_8 (colorHarmony (analyzeOutfit o))
                         (occasionAppropriateness (analyzeOutfit o))) c0_6 = true).
      { apply geb_val; [apply positive_nonneg; exact P | reflexivity | exact L]. }
      rewrite G. reflexivity.
  - intros H3 Hocc. rewrite summary_formula. cbv zeta.
    destruct (styleCoherence_cases o)
      as [[E _]|[_ [[C _]|[[C _]|[[C _]|[_ Es]]]]]]; try lia.
    { rewrite E in H3. discriminate H3. }
    destruct (occasionFit_cases o) as [[_ Eo]|[Eo _]]; [|contradiction].
    rewrite Es, Eo in *.
    destruct (mean3_upper _ _ _ d0_19999999999999996 c0_9 c0_5
                (dy 5348024557502464 (-52)) (dy 7599824371187712 (-52))
                (dy 5066549580791808 (-53)) Ns Nc No) as [P U];
      try reflexivity; try assumption.
    + split; apply Rle_refl.
    + unfold d0_19999999999999996. rewrite c0_9_eq. apply dy_add_le.
      vm_compute. reflexivity.
    + rewrite c0_5_eq. apply dy_add_le. vm_compute. reflexivity.
    + change three with (dy 6755399441055744 (-51)). apply dy_le_mul.
      vm_compute. reflexivity.
    + assert (Q : (val (dy 5066549580791808 (-53)) < val c0_6)%R)
        by (rewrite c0_6_eq; apply dy_lt; vm_compute; reflexivity).
      assert (Q' : (val c0_6 < val c0_8)%R)
        by (rewrite c0_6_eq, c0_8_eq; apply dy_lt; vm_compute; reflexivity).
      rewrite !geb_false_of_lt;
        [reflexivity | apply positive_nonneg; exact P | reflexivity | lra
         | apply positive_nonneg; exact P | reflexivity | lra].
Qed.

Lemma X6_summary_floor_and_ceiling_witness :
  (summary (analyzeOutfit (withStyle ["classic"])) = msg_excellent \/
   summary (analyzeOutfit (withStyle ["classic"])) = msg_good) /\
  summary (analyzeOutfit
             (withStyle ["formal"; "casual"; "minimalist"; "bohemian"; "edgy"; "romantic"]))
  = msg_adjust.
Proof.
  split.
  - apply (X6_summary_floor_and_ceiling (withStyle ["classic"])).
    + cbn [withStyle mkOutfit mkTags tags colors List.length]. lia.
    + discriminate.
    + vm_compute. reflexivity.
  - apply (X6_summary_floor_and_ceiling
             (withStyle ["formal"; "casual"; "minimalist"; "bohemian"; "edgy"; "romantic"])).
    + cbn [withStyle mkOutfit mkTags tags colors List.length]. lia.
    + vm_compute. reflexivity.
    + reflexivity.
Defined.

(* ===================================================================== *)
(** ** Recommendations: what is drawn, and what comes out *)
(* ===================================================================== *)

(** The recommendation that [generateSingleRecommendation] builds when
    [r] draws and [c] clock reads have been made before it. *)
Definition recommendation_at (w : World) (r c : nat) (context : RecommendationContext)
  (approach : string) : OutfitRecommendation :=
  {| rec_id := {| rec_ms := clock_src w c; rec_salt := random_src w (1 + r) |};
     score := add (mul (random_src w r) c0_3) c0_7;
     reasoning := generateRecommendationReasoning approach context;
     weatherScore := add (mul (random_src w (2 + r)) c0_3) c0_7;
     occasionScore := add (mul (random_src w (3 + r)) c0_3) c0_7;
     personalScore := add (mul (random_src w (4 + r)) c0_3) c0_7;
     confidenceScore := add (mul (random_src w (5 + r)) c0_3) c0_7 |}.

(** The recommendations of the loop, in the order of the strategies. *)
Fixpoint generated_from (w : World) (r c : nat) (context : RecommendationContext)
  (pending : list string) : list OutfitRecommendation :=
  match pending with
  | [] => []
  | approach :: pending' =>
    recommendation_at w r c context approach
      :: generated_from w (6 + r) (1 + c) context pending'
  end.

(** The world after [draws] reads of [Math.random] and [ticks] of
    [Date.now]. *)
Definition after_reads (w : World) (draws ticks : nat) : World :=
  {| random_src := random_src w; random_reads := draws + random_reads w;
     clock_src := clock_src w; clock_reads := ticks + clock_reads w |}.

Lemma after_reads_eq w r c r' c' :
  r = r' -> c = c' ->
  {| random_src := random_src w; random_reads := r;
     clock_src := clock_src w; clock_reads := c |}
  = {| random_src := random_src w; random_reads := r';
       clock_src := clock_src w; clock_reads := c' |}.
Proof. intros -> ->. reflexivity. Qed.

Lemma generated_from_sources w w' context pending : forall r c,
  random_src w = random_src w' -> clock_src w = clock_src w' ->
  generated_from w r c context pending = generated_from w' r c context pending.
Proof.
  induction pending as [|approach pending IH]; intros r c Hr Hc; cbn [generated_from].
  - reflexivity.
  - rewrite (IH _ _ Hr Hc). unfold recommendation_at. rewrite Hr, Hc. reflexivity.
Qed.

Lemma recommend_each_trace context pending : forall recommendations w,
  runState (recommend_each context pending recommendations) w =
  ((recommendations
      ++ generated_from w (random_reads w) (clock_reads w) context pending)%list,
   after_reads w (6 * List.length pending) (List.length pending)).
Proof.
  induction pending as [|approach pending IH]; intros recommendations w.
  - cbn [recommend_each generated_from List.length]. rewrite runState_ret, app_nil_r.
    destruct w; reflexivity.
  - cbn [recommend_each generated_from]. rewrite runState_bind.
    rewrite generateSingleRecommendation_run. rewrite IH.
    cbn [random_reads clock_reads].
    unfold push. rewrite <- app_assoc. cbn [app].
    f_equal.
    + f_equal. f_equal. apply generated_from_sources; reflexivity.
    + unfold after_reads. cbn [random_src random_reads clock_src clock_reads].
      apply after_reads_eq; cbn [List.length]; lia.
Qed.

Lemma generateRecommendations_trace context w :
  runState (generateRecommendations context) w =
  (Array_sort (by_key_desc score)
     (generated_from w (random_reads w) (clock_reads w) context approaches),
   after_reads w 30 5).
Proof.
  unfold generateRecommendations. rewrite runState_bind, recommend_each_trace.
  rewrite runState_ret. reflexivity.
Qed.

(** A score lies in the range the code announces, "0.7 to 1.0". *)
Definition in_score_range (x : number) : Prop :=
  geb x c0_7 = true /\ leb x one = true.

Definition scores_in_range (r : OutfitRecommendation) : Prop :=
  in_score_range (score r) /\ in_score_range (weatherScore r) /\
  in_score_range (occasionScore r) /\ in_score_range (personalScore r) /\
  in_score_range (confidenceScore r).

Lemma drawn_score_in_range x :
  unit_double x = true -> in_score_range (add (mul x c0_3) c0_7).
Proof.
  intros H. destruct (random_score_range x H) as [P [L U]].
  pose proof (positive_nonneg _ P) as N. split.
  - apply geb_val; [exact N | reflexivity | exact L].
  - apply leb_val; [exact N | reflexivity | rewrite val_one; exact U].
Qed.

Lemma generated_from_scores w context pending : forall r c,
  (forall i, unit_double (random_src w i) = true) ->
  Forall (fun x => scores_in_range x /\ positive (score x) = true)
         (generated_from w r c context pending).
Proof.
  induction pending as [|approach pending IH]; intros r c Hu; cbn [generated_from].
  - constructor.
  - constructor; [|apply IH; exact Hu].
    split.
    + unfold scores_in_range, recommendation_at.
      cbn [score weatherScore occasionScore personalScore confidenceScore].
      refine (conj _ (conj _ (conj _ (conj _ _))));
        apply drawn_score_in_range; apply Hu.
    + apply random_score_range. apply Hu.
Qed.

(** X7.  As long as [Math.random] returns doubles in [0, 1), the score
    and the four sub-scores of every recommendation returned lie between
    0.7 and 1.0, the range the code announces for them. *)
Theorem X7_recommendation_scores_in_range
  (context : RecommendationContext) (w : World) :
  (forall i, unit_double (random_src w i) = true) ->
  Forall scores_in_range (fst (runState (generateRecommendations context) w)).
Proof.
  intros Hu. rewrite generateRecommendations_trace. cbn [fst].
  apply (Permutation_Forall (Permutation_sym (Array_sort_perm _ _))).
  apply Forall_impl with (2 := generated_from_scores w context approaches _ _ Hu).
  intros r [H _]. exact H.
Qed.

Lemma X7_recommendation_scores_in_range_witness :
  Forall scores_in_range (fst (runState (generateRecommendations empty_context) world1)).
Proof.
  apply (X7_recommendation_scores_in_range empty_context world1).
  exact world1_unit.
Defined.

(** X8.  One call of [generateRecommendations] reads [Math.random]
    exactly 30 times and [Date.now] exactly 5 times.  The recommendation
    of the [i]-th strategy is built from the six draws [6i .. 6i+5]
    (score, identifier, weather, occasion, personal and confidence score,
    in this order) and from the [i]-th clock value; the list returned is a
    rearrangement of these five. *)
Theorem X8_recommendations_draws (context : RecommendationContext) (w : World) :
  let (recs, w') := runState (generateRecommendations context) w in
  random_reads w' = 30 + random_reads w /\
  clock_reads w' = 5 + clock_reads w /\
  random_src w' = random_src w /\ clock_src w' = clock_src w /\
  Permutation recs
    (map (fun i => recommendation_at w (6 * i + random_reads w) (i + clock_reads w)
                     context (nth i approaches ""))
         [0; 1; 2; 3; 4]).
Proof.
  rewrite generateRecommendations_trace.
  split; [reflexivity|]. split; [reflexivity|].
  split; [reflexivity|]. split; [reflexivity|].
  apply Array_sort_perm.
Qed.

Lemma Array_sort_sorted_id {A} (key : A -> number) (l : list A) :
  Forall (fun a => positive (key a) = true) l ->
  StronglySorted (key_ge key) l ->
  Array_sort (by_key_desc key) l = l.
Proof.
  intros Hp Hs. induction Hs as [|x l Hs IH Hx]; [reflexivity|].
  inversion Hp as [|? ? Px Pl]; subst.
  cbn [Array_sort fold_right]. fold (Array_sort (by_key_desc key) l).
  rewrite (IH Pl). destruct l as [|y l']; [reflexivity|].
  cbn [sort_insert].
  inversion Hx as [|? ? Hxy _]; subst. inversion Pl as [|? ? Py _]; subst.
  destruct (gtb (by_key_desc key x y) zero) eqn:E; [|reflexivity].
  apply (gtb_by_key_desc key x y Px Py) in E. unfold key_ge in Hxy. lra.
Qed.

(** X9.  Ties keep the order of the strategies: when no strategy scores
    strictly less than a later one (in particular when all five scores are
    equal), the recommendations are returned in the fixed order of the
    strategies, the sort leaving the list as it was generated. *)
Theorem X9_ties_keep_strategy_order (context : RecommendationContext) (w : World) :
  (forall i, unit_double (random_src w i) = true) ->
  (forall i j, (i <= j < 5)%nat ->
     leb (add (mul (random_src w (6 * j + random_reads w)) c0_3) c0_7)
         (add (mul (random_src w (6 * i + random_reads w)) c0_3) c0_7) = true) ->
  map reasoning (fst (runState (generateRecommendations context) w))
  = map (fun approach => generateRecommendationReasoning approach context) approaches.
Proof.
  intros Hu Hle. rewrite generateRecommendations_trace. cbn [fst].
  assert (Hs : forall i, positive (add (mul (random_src w i) c0_3) c0_7) = true)
    by (intros i; apply random_score_range, Hu).
  assert (Hv : forall i j, (i <= j < 5)%nat ->
            (val (add (mul (random_src w (6 * j + random_reads w)) c0_3) c0_7)
             <= val (add (mul (random_src w (6 * i + random_reads w)) c0_3) c0_7))%R).
  { intros i j Hij. apply leb_val; [apply positive_nonneg, Hs | apply positive_nonneg, Hs|].
    apply Hle. exact Hij. }
  rewrite Array_sort_sorted_id.
  - reflexivity.
  - apply Forall_impl with (2 := generated_from_scores w context approaches _ _ Hu).
    intros r [_ H]. exact H.
  - unfold approaches. cbn [generated_from].
    pose proof (Hv 0%nat 1%nat ltac:(lia)) as H01.
    pose proof (Hv 0%nat 2%nat ltac:(lia)) as H02.
    pose proof (Hv 0%nat 3%nat ltac:(lia)) as H03.
    pose proof (Hv 0%nat 4%nat ltac:(lia)) as H04.
    pose proof (Hv 1%nat 2%nat ltac:(lia)) as H12.
    pose proof (Hv 1%nat 3%nat ltac:(lia)) as H13.
    pose proof (Hv 1%nat 4%nat ltac:(lia)) as H14.
    pose proof (Hv 2%nat 3%nat ltac:(lia)) as H23.
    pose proof (Hv 2%nat 4%nat ltac:(lia)) as H24.
    pose proof (Hv 3%nat 4%nat ltac:(lia)) as H34.
    cbn [Nat.mul Nat.add] in *.
    repeat match goal with
           | |- StronglySorted _ _ => constructor
           | |- Forall _ _ => constructor
           | |- key_ge _ _ _ => unfold key_ge, recommendation_at; cbn [score]; assumption
           end.
Qed.

(** A world in which every draw is 0.5. *)
Definition world_even : World :=
  {| random_src := fun _ => c0_5; random_reads := 0;
     clock_src := fun i => (1700000000000 + Z.of_nat i)%Z; clock_reads := 0 |}.

Lemma X9_ties_keep_strategy_order_witness :
  map reasoning (fst (runState (generateRecommendations empty_context) world_even))
  = map (fun approach => generateRecommendationReasoning approach empty_context) approaches.
Proof.
  apply (X9_ties_keep_strategy_order empty_context world_even).
  - intros i. vm_compute. reflexivity.
  - intros i j _. cbn [world_even random_src]. vm_compute. reflexivity.
Defined.

(* ===================================================================== *)
(** ** What the handlers print *)
(* ===================================================================== *)

Import StyleMCPServer.

(** [Math.round] returns the integer [n] with [n <= x + 1/2 < n + 1]. *)
Lemma Math_round_spec x n :
  Math_round x = Some n -> (IZR n <= val x + 1 / 2 < IZR n + 1)%R.
Proof.
  destruct x as [s|s| |s m e]; try discriminate; unfold Math_round.
  - intros H. injection H as <-. unfold val. cbn [SF2R]. lra.
  - cbv zeta. set (z := cond_Zopp s (Zpos m)).
    intros H.
    assert (E0 : (if (0 <=? e)%Z then z * 2 ^ e
                  else (2 * z + 2 ^ (- e)) / 2 ^ (1 - e))%Z = n) by congruence.
    clear H. rewrite <- E0. clear E0. unfold val. cbn [SF2R]. fold z.
    destruct (Z.leb_spec 0 e) as [He|He].
    + unfold F2R. rewrite mult_IZR, <- bpow_IZR by lia. lra.
    + assert (HD : (0 < 2 ^ (- e))%Z) by (apply Z.pow_pos_nonneg; lia).
      replace (2 ^ (1 - e))%Z with (2 * 2 ^ (- e))%Z
        by (replace (1 - e)%Z with (Z.succ (- e)) by lia;
            rewrite Z.pow_succ_r by lia; reflexivity).
      set (D := (2 ^ (- e))%Z) in *.
      pose proof (Z_div_mod_eq_full (2 * z + D) (2 * D)) as Hdm.
      pose proof (Z.mod_pos_bound (2 * z + D) (2 * D) ltac:(lia)) as Hr.
      set (q := ((2 * z + D) / (2 * D))%Z) in *.
      set (r := ((2 * z + D) mod (2 * D))%Z) in *.
      assert (Hv : F2R z e = (IZR z / IZR D)%R).
      { unfold F2R, D. rewrite <- bpow_IZR by lia.
        assert (Hb : (bpow e * bpow (- e) = 1)%R).
        { rewrite <- bpow_add. replace (e + - e)%Z with 0%Z by lia. apply bpow_0. }
        pose proof (bpow_pos (- e)).
        field_simplify_eq; [|lra]. rewrite Rmult_assoc, Hb. ring. }
      rewrite Hv.
      assert (PD : (0 < IZR D)%R) by (apply IZR_lt; lia).
      assert (E : (IZR z / IZR D + 1 / 2 = IZR q + IZR r / (2 * IZR D))%R).
      { apply (f_equal IZR) in Hdm.
        rewrite !plus_IZR, !mult_IZR in Hdm.
        field_simplify_eq; [|lra]. lra. }
      rewrite E.
      assert (R0 : (0 <= IZR r)%R) by (apply IZR_le; lia).
      assert (R1 : (IZR r < 2 * IZR D)%R)
        by (rewrite <- mult_IZR; apply IZR_lt; lia).
      assert (0 <= IZR r / (2 * IZR D) < 1)%R.
      { split.
        - apply Rmult_le_pos; [exact R0|]. left. apply Rinv_0_lt_compat. lra.
        - apply Rmult_lt_reg_r with (2 * IZR D)%R; [lra|].
          unfold Rdiv. rewrite Rmult_assoc, Rinv_l by lra. lra. }
      lra.
Qed.

Lemma val_hundred : val (ofZ 100) = 100%R.
Proof.
  change (ofZ 100) with (dy 7036874417766400 (-46)). rewrite val_dy_frac by lia.
  change (2 ^ (- -46))%Z with 70368744177664%Z.
  change 7036874417766400%Z with (100 * 70368744177664)%Z.
  rewrite mult_IZR. field.
Qed.

(** A percentage, from bounds on the product before rounding. *)
Lemma percent_between x lo hi (p q : Z) :
  nonneg x = true -> positive lo = true -> positive hi = true ->
  (val lo <= val x * 100 <= val hi)%R ->
  (IZR p - 1 / 2 <= val lo)%R -> (val hi < IZR q + 1 / 2)%R ->
  exists n, percent x = Some n /\ (p <= n <= q)%Z.
Proof.
  intros Nx Plo Phi Hb Hp Hq. unfold percent.
  destruct (mul_between x (ofZ 100) lo hi) as [P B]; try assumption.
  { reflexivity. }
  { rewrite val_hundred. exact Hb. }
  set (y := mul x (ofZ 100)) in *.
  destruct (positive_dy y P) as (m & e & Ey & _).
  destruct (Math_round y) as [n|] eqn:En; [|rewrite Ey in En; discriminate En].
  exists n. split; [reflexivity|].
  apply Math_round_spec in En.
  split.
  - assert (H : (IZR (p - 1) < IZR n)%R) by (rewrite minus_IZR; lra).
    apply lt_IZR in H. lia.
  - assert (H : (IZR n < IZR (q + 1))%R) by (rewrite plus_IZR; lra).
    apply lt_IZR in H. lia.
Qed.

Lemma percent_values :
  percent c0_5 = Some 50%Z /\ percent c0_8 = Some 80%Z /\
  percent d0_6000000000000001 = Some 60%Z /\ percent c0_4 = Some 40%Z /\
  percent d0_19999999999999996 = Some 20%Z.
Proof. repeat split; vm_compute; reflexivity. Qed.

(** X10.  The reply to [log_outfit] shows whole percentages in which the
    rounding artefacts of the scores have disappeared: style coherence is
    shown as 50 without style tags and as [80 - 20 c] with [c] conflicting
    pairs, occasion fit as 50 or 80, and colour harmony as a whole number
    from 50 to 90. *)
Theorem X10_displayed_analysis (o : Outfit) :
  (Z.of_nat (List.length (colors (tags o))) < 2 ^ 53)%Z ->
  let shown := analysisBlock (analyzeOutfit o) in
  shown_styleCoherence shown
  = Some (match style (tags o) with
          | [] => 50
          | _ :: _ => 80 - 20 * Z.of_nat (conflicting_pairs (style (tags o)))
          end)%Z /\
  shown_occasionFit shown
  = Some (match occasion (tags o) with [] => 50 | _ :: _ => 80 end)%Z /\
  (exists p, shown_colorHarmony shown = Some p /\ (50 <= p <= 90)%Z) /\
  shown_summary shown = summary (analyzeOutfit o).
Proof.
  intros Hlen shown. subst shown.
  unfold analysisBlock.
  cbn [shown_styleCoherence shown_colorHarmony shown_occasionFit shown_summary].
  destruct percent_values as (V5 & V8 & V6 & V4 & V2).
  split; [|split; [|split; [|reflexivity]]].
  - destruct (styleCoherence_cases o)
      as [[E ->]|[E [[C ->]|[[C ->]|[[C ->]|[C ->]]]]]].
    + rewrite E. exact V5.
    + rewrite C. destruct (style (tags o)); [contradiction | assumption].
    + rewrite C. destruct (style (tags o)); [contradiction | assumption].
    + rewrite C. destruct (style (tags o)); [contradiction | assumption].
    + rewrite C. destruct (style (tags o)); [contradiction | assumption].
  - destruct (occasionFit_cases o) as [[E ->]|[E ->]].
    + rewrite E. exact V5.
    + destruct (occasion (tags o)); [contradiction | assumption].
  - cbn [analyzeOutfit colorHarmony].
    destruct (colorHarmony_val (colors (tags o)) Hlen) as [P [L U]].
    apply (percent_between _ (dy 7036874417766400 (-47)) (dy 6350779162034176 (-46)));
      try reflexivity.
    + apply positive_nonneg. exact P.
    + assert (L5 : (val (dy 7036874417766400 (-47)) <= val c0_5 * val (ofZ 100))%R).
      { rewrite c0_5_eq. change (ofZ 100) with (dy 7036874417766400 (-46)).
        apply dy_le_mul. vm_compute. reflexivity. }
      assert (U9 : (val c0_9 * val (ofZ 100) <= val (dy 6350779162034176 (-46)))%R).
      { rewrite c0_9_eq. change (ofZ 100) with (dy 7036874417766400 (-46)).
        apply dy_mul_le. vm_compute. reflexivity. }
      rewrite val_hundred in L5, U9. lra.
    + rewrite val_dy_frac by lia. eval_pow.
      change 7036874417766400%Z with (50 * 140737488355328)%Z.
      rewrite mult_IZR. unfold Rdiv. rewrite Rmult_assoc, Rinv_r by (apply not_0_IZR; lia).
      lra.
    + rewrite val_dy_frac by lia. eval_pow.
      apply Rmult_lt_reg_r with (IZR 70368744177664); [apply IZR_lt; lia|].
      unfold Rdiv. rewrite Rmult_assoc, Rinv_l by (apply not_0_IZR; lia).
      rewrite Rmult_1_r.
      replace ((90 + 1 * / 2) * IZR 70368744177664)%R with (IZR 6368371348078592)
        by (change 6368371348078592%Z with (181 * 35184372088832)%Z;
            change 70368744177664%Z with (2 * 35184372088832)%Z;
            rewrite !mult_IZR; field).
      apply IZR_lt. reflexivity.
Qed.

Lemma X10_displayed_analysis_witness :
  shown_styleCoherence
    (analysisBlock (analyzeOutfit
       (mkOutfit (mkTags ["work"] ["formal"; "casual"] ["Navy"; "red"] []) None)))
  = Some 60%Z.
Proof.
  apply (X10_displayed_analysis
           (mkOutfit (mkTags ["work"] ["formal"; "casual"] ["Navy"; "red"] []) None)).
  cbn [mkOutfit mkTags tags colors List.length]. lia.
Defined.

Lemma generated_from_Forall (P : OutfitRecommendation -> Prop) w context pending :
  (forall r c approach, In approach pending ->
     P (recommendation_at w r c context approach)) ->
  forall r c, Forall P (generated_from w r c context pending).
Proof.
  induction pending as [|approach pending IH]; intros H r c; cbn [generated_from].
  - constructor.
  - constructor.
    + apply H. left. reflexivity.
    + apply IH. intros r' c' a Ha. apply H. right. exact Ha.
Qed.

(** A percentage that is shown as a whole number from 70 to 100. *)
Definition shown_70_100 (v : option Z) : Prop :=
  exists p, v = Some p /\ (70 <= p <= 100)%Z.

Lemma percent_drawn_score x :
  unit_double x = true -> shown_70_100 (percent (add (mul x c0_3) c0_7)).
Proof.
  intros H. destruct (random_score_range x H) as [P [L U]].
  apply (percent_between _ (dy 4890627720347648 (-46)) (ofZ 100)); try reflexivity.
  - apply positive_nonneg. exact P.
  - assert (L7 : (val (dy 4890627720347648 (-46)) <= val c0_7 * val (ofZ 100))%R).
    { rewrite c0_7_eq. change (ofZ 100) with (dy 7036874417766400 (-46)).
      apply dy_le_mul. vm_compute. reflexivity. }
    rewrite val_hundred in *. lra.
  - rewrite val_dy_frac by lia. eval_pow.
    apply Rmult_le_reg_r with (IZR 70368744177664); [apply IZR_lt; lia|].
    unfold Rdiv. rewrite (Rmult_assoc (IZR 4890627720347648)), Rinv_l
      by (apply not_0_IZR; lia).
    rewrite Rmult_1_r.
    replace ((70 - 1 * / 2) * IZR 70368744177664)%R with (IZR 4890627720347648)
      by (change 4890627720347648%Z with (139 * 35184372088832)%Z;
          change 70368744177664%Z with (2 * 35184372088832)%Z;
          rewrite !mult_IZR; field).
    apply Rle_refl.
  - rewrite val_hundred. lra.
Qed.

(** What an entry of the reply shows. *)
Definition entry_well_formed (e : RecommendationEntry) : Prop :=
  entry_title e <> None /\ List.length (entry_reasons e) = 2%nat /\
  shown_70_100 (entry_score e) /\ shown_70_100 (entry_weather e) /\
  shown_70_100 (entry_personal e).

Lemma formatRecommendation_well_formed w r c context approach index :
  (forall i, unit_double (random_src w i) = true) ->
  In approach approaches ->
  entry_well_formed
    (formatRecommendation (recommendation_at w r c context approach) index).
Proof.
  intros Hu Ha. unfold entry_well_formed, formatRecommendation, recommendation_at.
  cbn [entry_title entry_reasons entry_score entry_weather entry_personal
       reasoning score weatherScore personalScore].
  split; [|split; [|split; [|split]]]; try (apply percent_drawn_score; apply Hu).
  - unfold approaches in Ha. cbn [In] in Ha.
    destruct Ha as [<-|[<-|[<-|[<-|[<-|[]]]]]]; vm_compute; discriminate.
  - unfold approaches in Ha. cbn [In] in Ha.
    destruct Ha as [<-|[<-|[<-|[<-|[<-|[]]]]]]; reflexivity.
Qed.

(** X11.  Whatever the arguments (a [limit] included), and as long as
    [Math.random] returns doubles in [0, 1), the reply to
    [get_outfit_recommendations] lists exactly five entries, numbered 1 to
    5, one per strategy: [slice(0, 5)] never cuts anything.  Every entry
    has a title and two further reasons, and its three percentages are
    whole numbers from 70 to 100. *)
Theorem X11_displayed_recommendations (args : RecommendationContext) (w : World) :
  (forall i, unit_double (random_src w i) = true) ->
  let entries := fst (runState (handleGetRecommendations args) w) in
  map entry_number entries = [1; 2; 3; 4; 5]%nat /\
  Forall entry_well_formed entries /\
  Permutation (map entry_title entries)
    (map (fun approach => nth_error (generateRecommendationReasoning approach args) 0)
         approaches).
Proof.
  intros Hu entries. subst entries. unfold handleGetRecommendations.
  rewrite runState_bind, generateRecommendations_trace. cbv zeta.
  rewrite runState_ret. cbn [fst].
  set (gen := generated_from w (random_reads w) (clock_reads w) args approaches).
  pose proof (Array_sort_perm (by_key_desc score) gen) as Hp.
  assert (Hok : Forall (fun x => forall index,
                          entry_well_formed (formatRecommendation x index)) gen).
  { apply generated_from_Forall. intros r c approach Ha index.
    apply formatRecommendation_well_formed; assumption. }
  apply (Permutation_Forall (Permutation_sym Hp)) in Hok.
  assert (Hlen : List.length (Array_sort (by_key_desc score) gen) = 5%nat)
    by (rewrite (Permutation_length Hp); reflexivity).
  assert (Ht : map (fun x => nth_error (reasoning x) 0) gen
               = map (fun approach =>
                        nth_error (generateRecommendationReasoning approach args) 0)
                     approaches) by reflexivity.
  rewrite <- Ht. clear Ht.
  apply (Permutation_map (fun x => nth_error (reasoning x) 0)) in Hp.
  revert Hp Hok Hlen. generalize (Array_sort (by_key_desc score) gen).
  intros recs Hp Hok Hlen.
  destruct recs as [|r1 [|r2 [|r3 [|r4 [|r5 [|r6 l]]]]]]; try discriminate Hlen.
  unfold slice, Array_map.
  cbn [Nat.sub skipn firstn map_from map entry_number formatRecommendation Nat.add].
  split; [reflexivity|]. split.
  - inversion Hok as [|? ? H1 Hok1]; subst. inversion Hok1 as [|? ? H2 Hok2]; subst.
    inversion Hok2 as [|? ? H3 Hok3]; subst. inversion Hok3 as [|? ? H4 Hok4]; subst.
    inversion Hok4 as [|? ? H5 _]; subst.
    constructor; [exact (H1 _)|]. constructor; [exact (H2 _)|].
    constructor; [exact (H3 _)|]. constructor; [exact (H4 _)|].
    constructor; [exact (H5 _)|]. constructor.
  - exact Hp.
Qed.

Lemma X11_displayed_recommendations_witness :
  map entry_number (fst (runState (handleGetRecommendations empty_context) world1))
  = [1; 2; 3; 4; 5]%nat /\
  Forall entry_well_formed
    (fst (runState (handleGetRecommendations empty_context) world1)).
Proof.
  destruct (X11_displayed_recommendations empty_context world1 world1_unit)
    as (H1 & H2 & _).
  split; assumption.
Defined.

(** The ratings a user may give: whole numbers from 1 to 10. *)
Definition rating_scale : list Z := map Z.of_nat (seq 1 10).

Definition average_shown (a b c : Z) : option Z :=
  Math_round (div (add (add (ofZ a) (ofZ b)) (ofZ c)) three).

Definition average_ok (a b c : Z) : bool :=
  match average_shown a b c with
  | Some n => (1 <=? n)%Z && (n <=? 10)%Z && (Z.abs (3 * n - (a + b + c)) <=? 1)%Z
  | None => false
  end.

Lemma rating_scale_In a : (1 <= a <= 10)%Z -> In a rating_scale.
Proof.
  intros H. unfold rating_scale. apply in_map_iff.
  exists (Z.to_nat a). split; [lia|]. apply in_seq. lia.
Qed.

Lemma average_ok_all :
  forallb (fun a => forallb (fun b => forallb (average_ok a b) rating_scale)
                            rating_scale) rating_scale = true.
Proof. vm_compute. reflexivity. Qed.

(** X12.  For an outfit rated on the scale 1 to 10, the search result
    shows as its rating a whole number from 1 to 10, the one nearest to
    the mean of confidence, comfort and success (at a distance of at most
    one third); an outfit without ratings shows "Not rated". *)
Theorem X12_average_rating (o : Outfit) :
  (ratings o = None -> avgRating o = inl "Not rated") /\
  (forall r, ratings o = Some r ->
     (1 <= confidence r <= 10)%Z -> (1 <= comfort r <= 10)%Z ->
     (1 <= success r <= 10)%Z ->
     exists n, avgRating o = inr (Some n) /\ (1 <= n <= 10)%Z /\
               (Z.abs (3 * n - (confidence r + comfort r + success r)) <= 1)%Z).
Proof.
  unfold avgRating. split.
  - intros ->. reflexivity.
  - intros r -> Ha Hb Hc.
    pose proof average_ok_all as H.
    rewrite forallb_forall in H. specialize (H _ (rating_scale_In _ Ha)).
    rewrite forallb_forall in H. specialize (H _ (rating_scale_In _ Hb)).
    rewrite forallb_forall in H. specialize (H _ (rating_scale_In _ Hc)).
    unfold average_ok, average_shown in H.
    destruct (Math_round _) as [n|]; [|discriminate H].
    apply andb_true_iff in H. destruct H as [H H3].
    apply andb_true_iff in H. destruct H as [H1 H2].
    exists n. split; [reflexivity|]. lia.
Qed.

Lemma X12_average_rating_witness :
  exists n, avgRating (mkOutfit (mkTags [] [] [] []) (Some (mkRatings 9 3 8)))
            = inr (Some n) /\ (1 <= n <= 10)%Z /\ (Z.abs (3 * n - (9 + 3 + 8)) <= 1)%Z.
Proof.
  apply (proj2 (X12_average_rating
                  (mkOutfit (mkTags [] [] [] []) (Some (mkRatings 9 3 8))))
               (mkRatings 9 3 8) eq_refl);
    cbn [mkRatings confidence comfort success]; lia.
Defined.

(* ===================================================================== *)
(** ** Style patterns *)
(* ===================================================================== *)

(** The values the type [StylePattern] allows for [patternType] and for
    [timeFrame], and those the tool's schema allows for [analysis_type]
    and [time_period]. *)
Definition declared_pattern_types : list string :=
  [ "confidence"; "comfort"; "success"; "style_evolution" ].

Definition declared_time_frames : list string :=
  [ "week"; "month"; "season"; "year" ].

Definition schema_analysis_types : list string :=
  [ "confidence_trends"; "comfort_patterns"; "style_evolution"; "wardrobe_gaps";
    "color_preferences"; "occasion_analysis" ].

(** X13.  [analyzeStylePatterns] copies [analysis_type] and [time_period]
    into the result; when the value is absent or the empty string the
    pattern type is "confidence_trends" and the time frame is "month".
    The two insights (colour preferences, increasing, 0.75, medium;
    formality level, stable, 0.6, high) and the three recommendations are
    the same for all criteria.  For the values the tool's schema allows,
    the time frame is always one the result type declares, but the
    pattern type is one the type declares only when the analysis type is
    "style_evolution": the default "confidence_trends" is not. *)
Theorem X13_style_pattern_fields (criteria : PatternCriteria) :
  let result := analyzeStylePatterns criteria in
  (patternType result <> "" /\ timeFrame result <> "") /\
  (forall s, analysis_type criteria = Some s -> s <> "" -> patternType result = s) /\
  (forall s, time_period criteria = Some s -> s <> "" -> timeFrame result = s) /\
  (analysis_type criteria = None \/ analysis_type criteria = Some "" ->
   patternType result = "confidence_trends") /\
  (time_period criteria = None \/ time_period criteria = Some "" ->
   timeFrame result = "month") /\
  insights result = insights (analyzeStylePatterns
                                {| time_period := None; analysis_type := None;
                                   focus_category := None |}) /\
  pattern_recommendations result
  = pattern_recommendations (analyzeStylePatterns
                               {| time_period := None; analysis_type := None;
                                  focus_category := None |}) /\
  map (fun i => (insight_category i, insight_trend i, insight_significance i))
      (insights result)
  = [ ("Color Preferences", "increasing", "medium");
      ("Formality Level", "stable", "high") ] /\
  map insight_description (insights result)
  = [ "Growing preference for neutral tones";
      "Consistent smart-casual style preference" ] /\
  map insight_value (insights result) = [lit 75 100; lit 6 10] /\
  pattern_recommendations result
  = [ "Try incorporating one bold color per outfit";
      "Experiment with textured neutrals for visual interest";
      "Consider investing in quality basics" ] /\
  ((time_period criteria = None \/
    exists s, time_period criteria = Some s /\ In s declared_time_frames) ->
   In (timeFrame result) declared_time_frames) /\
  ((analysis_type criteria = None \/
    exists s, analysis_type criteria = Some s /\ In s schema_analysis_types) ->
   (In (patternType result) declared_pattern_types <->
    analysis_type criteria = Some "style_evolution")).
Proof.
  intros result. subst result. unfold analyzeStylePatterns.
  cbn [patternType timeFrame insights pattern_recommendations].
  split; [|split; [|split; [|split; [|split]]]].
  - unfold or_default. split.
    + destruct (analysis_type criteria) as [s|]; [|discriminate].
      destruct (String.eqb_spec s ""); [discriminate | assumption].
    + destruct (time_period criteria) as [s|]; [|discriminate].
      destruct (String.eqb_spec s ""); [discriminate | assumption].
  - intros s -> Hs. unfold or_default.
    destruct (String.eqb_spec s ""); [contradiction | reflexivity].
  - intros s -> Hs. unfold or_default.
    destruct (String.eqb_spec s ""); [contradiction | reflexivity].
  - intros [->| ->]; reflexivity.
  - intros [->| ->]; reflexivity.
  - split; [reflexivity|]. split; [reflexivity|]. split; [reflexivity|].
    split; [reflexivity|]. split; [reflexivity|]. split; [reflexivity|].
    split.
    + intros [->|(s & -> & Hs)].
      * cbn. auto.
      * unfold declared_time_frames in *. cbn [In] in Hs.
        destruct Hs as [<-|[<-|[<-|[<-|[]]]]]; cbn; auto.
    + intros [->|(s & -> & Hs)].
      * cbn. split; [|discriminate].
        intros H. repeat (destruct H as [H|H]; try discriminate H). contradiction.
      * unfold schema_analysis_types in Hs. cbn [In] in Hs.
        destruct Hs as [<-|[<-|[<-|[<-|[<-|[<-|[]]]]]]]; cbn;
          (split; [|try discriminate; auto]);
          intros H; try reflexivity;
          repeat (destruct H as [H|H]; try discriminate H); contradiction.
Qed.

Lemma X13_style_pattern_fields_witness :
  patternType (analyzeStylePatterns
                 {| time_period := None; analysis_type := Some "";
                    focus_category := None |}) = "confidence_trends" /\
  timeFrame (analyzeStylePatterns
               {| time_period := None; analysis_type := Some "";
                  focus_category := None |}) = "month" /\
  In (patternType (analyzeStylePatterns
                     {| time_period := Some "week"; analysis_type := Some "style_evolution";
                        focus_category := None |}))
     declared_pattern_types /\
  ~ In (patternType (analyzeStylePatterns
                       {| time_period := None; analysis_type := None;
                          focus_category := None |}))
       declared_pattern_types.
Proof.
  split; [|split; [|split]].
  - apply (X13_style_pattern_fields
             {| time_period := None; analysis_type := Some ""; focus_category := None |}).
    right. reflexivity.
  - apply (X13_style_pattern_fields
             {| time_period := None; analysis_type := Some ""; focus_category := None |}).
    left. reflexivity.
  - apply (X13_style_pattern_fields
             {| time_period := Some "week"; analysis_type := Some "style_evolution";
                focus_category := None |}).
    + right. eexists. split; [reflexivity|]. cbn. auto.
    + reflexivity.
  - intros H.
    apply (X13_style_pattern_fields
             {| time_period := None; analysis_type := None; focus_category := None |})
      in H.
    + discriminate H.
    + left. reflexivity.
Defined.

(* ===================================================================== *)
(** ** Rating insights, as a whole *)
(* ===================================================================== *)

Lemma generateRatingInsights_notes (o : Outfit) (r : OutfitRatings) :
  ratings o = Some r ->
  generateRatingInsights o = rating_notes (confidence r) (comfort r) (success r).
Proof.
  intros Hr. unfold generateRatingInsights, rating_notes, push. rewrite Hr.
  rewrite !Z.geb_leb, Z.gtb_ltb.
  destruct (8 <=? confidence r)%Z; destruct (confidence r <=? 4)%Z;
    destruct (8 <=? comfort r)%Z; destruct (comfort r <=? 4)%Z;
    destruct (8 <=? success r)%Z; destruct (comfort r <? confidence r)%Z;
    reflexivity.
Qed.

(** Comparisons of doubles that are not negative, by cases. *)
Lemma geb_cases a b :
  nonneg a = true -> nonneg b = true ->
  (geb a b = true /\ (val b <= val a)%R) \/ (geb a b = false /\ (val a < val b)%R).
Proof.
  intros Na Nb. destruct (geb a b) eqn:E.
  - left. split; [reflexivity|]. apply geb_val in E; assumption.
  - right. split; [reflexivity|].
    destruct (Rle_or_lt (val b) (val a)) as [H|H]; [|exact H].
    apply (geb_val a b Na Nb) in H. congruence.
Qed.

Lemma leb_cases a b :
  nonneg a = true -> nonneg b = true ->
  (leb a b = true /\ (val a <= val b)%R) \/ (leb a b = false /\ (val b < val a)%R).
Proof. intros Na Nb. exact (geb_cases b a Nb Na). Qed.

Lemma gtb_cases a b :
  nonneg a = true -> nonneg b = true ->
  (gtb a b = true /\ (val b < val a)%R) \/ (gtb a b = false /\ (val a <= val b)%R).
Proof.
  intros Na Nb. change (gtb a b) with (ltb b a). destruct (ltb b a) eqn:E.
  - left. split; [reflexivity|]. apply ltb_val in E; assumption.
  - right. split; [reflexivity|].
    destruct (Rle_or_lt (val a) (val b)) as [H|H]; [exact H|].
    apply (ltb_val b a Nb Na) in H. congruence.
Qed.

(** A whole number from 0 to [2^53] is a double. *)
Lemma ofZ_val z :
  (0 <= z < 2 ^ 53)%Z -> nonneg (ofZ z) = true /\ val (ofZ z) = IZR z.
Proof.
  intros [H0 H1]. destruct (Z.eq_dec z 0) as [->|Hz].
  - split; reflexivity.
  - destruct (ofZ_exact prec emax prec_pos prec_lt_emax z) as (m & e & E & B & V).
    { unfold prec. lia. }
    unfold ofZ. rewrite E. split; [exact B | exact V].
Qed.

Lemma val_eight : val (ofZ 8) = 8%R.
Proof. apply (ofZ_val 8). lia. Qed.

Lemma val_four : val (ofZ 4) = 4%R.
Proof. apply (ofZ_val 4). lia. Qed.

(** On whole-number ratings the two readings of [generateRatingInsights]
    give the same notes. *)
Lemma number_ratings_agree (o : Outfit) :
  (forall r, ratings o = Some r ->
     (0 <= confidence r < 2 ^ 53)%Z /\ (0 <= comfort r < 2 ^ 53)%Z /\
     (0 <= success r < 2 ^ 53)%Z) ->
  NumberRatings.generateRatingInsights (NumberRatings.of_outfit o)
  = generateRatingInsights o.
Proof.
  intros H. unfold NumberRatings.generateRatingInsights, generateRatingInsights.
  unfold NumberRatings.of_outfit. cbn [NumberRatings.rated].
  destruct (ratings o) as [r|]; [|reflexivity].
  destruct (H r eq_refl) as (Hc & Hf & Hs).
  cbn [option_map NumberRatings.of_ratings NumberRatings.rated_confidence
       NumberRatings.rated_comfort NumberRatings.rated_success].
  destruct (ofZ_val _ Hc) as [Nc Vc], (ofZ_val _ Hf) as [Nf Vf],
    (ofZ_val _ Hs) as [Ns Vs].
  assert (N8 : nonneg (ofZ 8) = true) by reflexivity.
  assert (N4 : nonneg (ofZ 4) = true) by reflexivity.
  pose proof val_eight as V8. pose proof val_four as V4.
  assert (G : forall z, nonneg (ofZ z) = true -> val (ofZ z) = IZR z ->
                        geb (ofZ z) (ofZ 8) = (z >=? 8)%Z).
  { intros z Nz Vz. rewrite Z.geb_leb.
    destruct (geb_cases (ofZ z) (ofZ 8) Nz N8) as [[-> L]|[-> L]];
      rewrite Vz, V8 in L; symmetry.
    - apply Z.leb_le. apply le_IZR. exact L.
    - apply Z.leb_gt. apply lt_IZR. exact L. }
  assert (L : forall z, nonneg (ofZ z) = true -> val (ofZ z) = IZR z ->
                        leb (ofZ z) (ofZ 4) = (z <=? 4)%Z).
  { intros z Nz Vz.
    destruct (leb_cases (ofZ z) (ofZ 4) Nz N4) as [[-> L]|[-> L]];
      rewrite Vz, V4 in L; symmetry.
    - apply Z.leb_le. apply le_IZR. exact L.
    - apply Z.leb_gt. apply lt_IZR. exact L. }
  assert (T : gtb (ofZ (confidence r)) (ofZ (comfort r))
              = (confidence r >? comfort r)%Z).
  { rewrite Z.gtb_ltb.
    destruct (gtb_cases _ _ Nc Nf) as [[-> L']|[-> L']]; rewrite Vc, Vf in L'; symmetry.
    - apply Z.ltb_lt. apply lt_IZR. exact L'.
    - apply Z.ltb_ge. apply le_IZR. exact L'. }
  rewrite !G, !L, T by assumption. reflexivity.
Qed.

(** X14.  For ratings that are doubles from 0 upwards, whole or
    fractional, a rated outfit gets at most four insights, never both
    notes about confidence nor both notes about comfort.  It gets none at
    all exactly when confidence and comfort are both strictly between 4
    and 8, success is below 8 and confidence does not exceed comfort (for
    whole numbers: confidence and comfort from 5 to 7); so the ratings
    4.5, 4.5 and 1 give no note.  The note "Very comfortable" and the note
    about trading comfort for style appear together exactly when comfort
    is at least 8 and confidence higher still. *)
Theorem X14_rating_insights_shape
  (outfit : NumberRatings.RatedOutfit) (r : NumberRatings.Ratings) :
  NumberRatings.rated outfit = Some r ->
  nonneg (NumberRatings.rated_confidence r) = true ->
  nonneg (NumberRatings.rated_comfort r) = true ->
  nonneg (NumberRatings.rated_success r) = true ->
  let notes := NumberRatings.generateRatingInsights outfit in
  let confidence := val (NumberRatings.rated_confidence r) in
  let comfort := val (NumberRatings.rated_comfort r) in
  let success := val (NumberRatings.rated_success r) in
  (List.length notes <= 4)%nat /\
  ~ (In msg_conf_high notes /\ In msg_conf_low notes) /\
  ~ (In msg_comf_high notes /\ In msg_comf_low notes) /\
  (notes = [] <->
   (4 < confidence < 8)%R /\ (4 < comfort < 8)%R /\
   (success < 8)%R /\ (confidence <= comfort)%R) /\
  (In msg_comf_high notes /\ In msg_tradeoff notes <->
   (8 <= comfort < confidence)%R).
Proof.
  intros Hr Nc Nf Ns notes confidence comfort success.
  subst notes confidence comfort success.
  unfold NumberRatings.generateRatingInsights. rewrite Hr. cbv zeta.
  assert (N8 : nonneg (ofZ 8) = true) by reflexivity.
  assert (N4 : nonneg (ofZ 4) = true) by reflexivity.
  pose proof val_eight as V8. pose proof val_four as V4.
  set (c := NumberRatings.rated_confidence r) in *.
  set (f := NumberRatings.rated_comfort r) in *.
  set (s := NumberRatings.rated_success r) in *.
  destruct (geb_cases c (ofZ 8) Nc N8) as [[E1 A1]|[E1 A1]];
    destruct (leb_cases c (ofZ 4) Nc N4) as [[E2 A2]|[E2 A2]];
    destruct (geb_cases f (ofZ 8) Nf N8) as [[E3 A3]|[E3 A3]];
    destruct (leb_cases f (ofZ 4) Nf N4) as [[E4 A4]|[E4 A4]];
    destruct (geb_cases s (ofZ 8) Ns N8) as [[E5 A5]|[E5 A5]];
    destruct (gtb_cases c f Nc Nf) as [[E6 A6]|[E6 A6]];
    rewrite V8 in A1, A3, A5; rewrite V4 in A2, A4;
    try (exfalso; lra);
    rewrite ?E1, ?E2, ?E3, ?E4, ?E5, ?E6; unfold push; cbn [app In List.length];
    (split; [lia|]);
    (split; [intros [H1 H2];
             repeat (destruct H1 as [H1|H1]; try discriminate H1);
             repeat (destruct H2 as [H2|H2]; try discriminate H2); contradiction|]);
    (split; [intros [H1 H2];
             repeat (destruct H1 as [H1|H1]; try discriminate H1);
             repeat (destruct H2 as [H2|H2]; try discriminate H2); contradiction|]);
    (split; [split; [try discriminate; intros _; lra | intros; try reflexivity; lra]|]);
    (split; [intros [H1 H2]; try lra;
             repeat (destruct H1 as [H1|H1]; try discriminate H1);
             repeat (destruct H2 as [H2|H2]; try discriminate H2); contradiction
            | intros; try lra; split; auto 8]).
Qed.

(** The ratings 4.5, 4.5 and 1, and the ratings 10, 8 and 5. *)
Definition ratings_4_5 : NumberRatings.Ratings :=
  {| NumberRatings.rated_confidence := lit 9 2;
     NumberRatings.rated_comfort := lit 9 2;
     NumberRatings.rated_success := ofZ 1 |}.

Definition ratings_10_8_5 : NumberRatings.Ratings :=
  {| NumberRatings.rated_confidence := ofZ 10;
     NumberRatings.rated_comfort := ofZ 8;
     NumberRatings.rated_success := ofZ 5 |}.

Lemma nonneg_lit_9_2 : nonneg (lit 9 2) = true.
Proof. vm_compute. reflexivity. Qed.

Lemma val_lit_9_2_between : (4 < val (lit 9 2) < 8)%R.
Proof.
  rewrite <- val_four, <- val_eight.
  change (lit 9 2) with (dy 5066549580791808 (-50)).
  change (ofZ 4) with (dy 4503599627370496 (-50)).
  change (ofZ 8) with (dy 4503599627370496 (-49)).
  split; apply dy_lt; vm_compute; reflexivity.
Qed.

Lemma X14_rating_insights_shape_witness :
  NumberRatings.generateRatingInsights {| NumberRatings.rated := Some ratings_4_5 |} = [] /\
  In msg_comf_high
     (NumberRatings.generateRatingInsights
        {| NumberRatings.rated := Some ratings_10_8_5 |}) /\
  In msg_tradeoff
     (NumberRatings.generateRatingInsights
        {| NumberRatings.rated := Some ratings_10_8_5 |}).
Proof.
  pose proof val_lit_9_2_between as B.
  pose proof (X14_rating_insights_shape
                {| NumberRatings.rated := Some ratings_4_5 |} ratings_4_5 eq_refl
                nonneg_lit_9_2 nonneg_lit_9_2 (proj1 (ofZ_val 1 ltac:(lia))))
    as (_ & _ & _ & Hempty & _).
  pose proof (X14_rating_insights_shape
                {| NumberRatings.rated := Some ratings_10_8_5 |} ratings_10_8_5 eq_refl
                (proj1 (ofZ_val 10 ltac:(lia))) (proj1 (ofZ_val 8 ltac:(lia)))
                (proj1 (ofZ_val 5 ltac:(lia))))
    as (_ & _ & _ & _ & Hboth).
  split.
  - apply Hempty.
    unfold ratings_4_5, NumberRatings.rated_confidence, NumberRatings.rated_comfort,
      NumberRatings.rated_success.
    rewrite (proj2 (ofZ_val 1 ltac:(lia))). lra.
  - apply Hboth.
    unfold ratings_10_8_5, NumberRatings.rated_confidence, NumberRatings.rated_comfort,
      NumberRatings.rated_success.
    rewrite (proj2 (ofZ_val 8 ltac:(lia))), (proj2 (ofZ_val 10 ltac:(lia))). lra.
Defined.

(* ===================================================================== *)
(** ** Rating an outfit, through the table *)
(* ===================================================================== *)

Section RatingFlow.

Import OutfitDatabase.

Context {Columns : Type}.

Implicit Types (table : list (OutfitRow Columns)) (args : RateOutfitArgs).

(** The rating columns that [updateOutfitRatings] writes from [args]. *)
Definition rated_row (args : RateOutfitArgs) (now : Z) (row : OutfitRow Columns)
  : OutfitRow Columns :=
  {| row_id := row_id row;
     row_columns := row_columns row;
     confidence_rating := arg_confidence args;
     comfort_rating := arg_comfort args;
     success_rating := arg_success args;
     repeat_likelihood := None;
     ratings_feedback := Some (None, None);
     updated_at := now |}.

Lemma updateOutfitRatings_rows id args now table :
  updateOutfitRatings id args now table
  = map (fun row => if String.eqb (row_id row) id then rated_row args now row else row)
        table.
Proof. reflexivity. Qed.

Lemma find_id_map id (f : OutfitRow Columns -> OutfitRow Columns) table :
  (forall row, row_id (f row) = row_id row) ->
  find (fun row => String.eqb (row_id row) id)
       (map (fun row => if String.eqb (row_id row) id then f row else row) table)
  = option_map f (find (fun row => String.eqb (row_id row) id) table).
Proof.
  intros Hf. induction table as [|row table IH]; [reflexivity|].
  cbn [map find]. destruct (String.eqb (row_id row) id) eqn:E.
  - rewrite Hf, E. reflexivity.
  - rewrite E. exact IH.
Qed.

Lemma find_id_none id table :
  (forall row, In row table -> row_id row <> id) ->
  find (fun row => String.eqb (row_id row) id) table = None.
Proof.
  intros H. induction table as [|row table IH]; [reflexivity|].
  cbn [find]. destruct (String.eqb_spec (row_id row) id) as [E|E].
  - exfalso. apply (H row); [left; reflexivity | exact E].
  - apply IH. intros r Hr. apply H. right. exact Hr.
Qed.

Lemma find_id_some id table :
  (exists row, In row table /\ row_id row = id) ->
  exists row, find (fun row => String.eqb (row_id row) id) table = Some row /\
              In row table /\ row_id row = id.
Proof.
  intros (row0 & Hin & Hid). induction table as [|row table IH]; [contradiction|].
  cbn [find]. destruct (String.eqb_spec (row_id row) id) as [E|E].
  - exists row. split; [reflexivity|]. split; [left; reflexivity | exact E].
  - destruct Hin as [->|Hin]; [contradiction|].
    destruct (IH Hin) as (r & Hf & Hr & Hi). exists r. auto with datatypes.
Qed.

Lemma update_unknown id args now table :
  (forall row, In row table -> row_id row <> id) ->
  updateOutfitRatings id args now table = table.
Proof.
  intros H. rewrite updateOutfitRatings_rows.
  induction table as [|row table IH]; [reflexivity|].
  cbn [map]. destruct (String.eqb_spec (row_id row) id) as [E|E].
  - exfalso. apply (H row); [left; reflexivity | exact E].
  - f_equal. apply IH. intros r Hr. apply H. right. exact Hr.
Qed.

(** The ratings read back after [rate_outfit]. *)
Definition ratings_read_back (args : RateOutfitArgs) : option StoredRatings :=
  match arg_confidence args with
  | Some confidence =>
    if (confidence =? 0)%Z then None
    else Some {| stored_confidence := confidence;
                 stored_comfort := arg_comfort args;
                 stored_success := arg_success args;
                 stored_repeatLikelihood := None;
                 stored_receivedCompliments := None;
                 stored_feltAppropriate := None |}
  | None => None
  end.

Lemma handleRateOutfit_known args now table :
  (exists row, In row table /\ row_id row = arg_outfit_id args) ->
  exists outfit : StoredOutfit Columns,
    fst (handleRateOutfit args now table) = inr (generateRatingInsights outfit) /\
    stored_id outfit = arg_outfit_id args /\
    stored_ratings outfit = ratings_read_back args.
Proof.
  intros H. destruct (find_id_some _ _ H) as (row & Hf & _ & Hid).
  unfold handleRateOutfit, getOutfit. cbv zeta.
  rewrite updateOutfitRatings_rows, find_id_map by reflexivity.
  rewrite Hf. cbn [option_map fst].
  exists (rowToOutfit (rated_row args now row)).
  split; [reflexivity|]. split; [exact Hid|].
  unfold rowToOutfit, rated_row, ratings_read_back. cbn.
  destruct (arg_confidence args) as [c|]; [|reflexivity].
  destruct (c =? 0)%Z; reflexivity.
Qed.

End RatingFlow.

(** X15.  [rate_outfit] fails with "Outfit with ID ... not found" exactly
    when no row of the table has the given id, and then leaves the table
    as it was; when a row has the id, it returns a list of insights. *)
Theorem X15_rating_unknown_outfit {Columns : Type}
  (args : OutfitDatabase.RateOutfitArgs) (now : Z)
  (table : list (OutfitDatabase.OutfitRow Columns)) :
  let id := OutfitDatabase.arg_outfit_id args in
  ((forall row, In row table -> OutfitDatabase.row_id row <> id) ->
   OutfitDatabase.handleRateOutfit args now table
   = (inl ("Outfit with ID " ++ id ++ " not found"), table)) /\
  ((exists row, In row table /\ OutfitDatabase.row_id row = id) ->
   exists insights,
     fst (OutfitDatabase.handleRateOutfit args now table) = inr insights).
Proof.
  intros id. split.
  - intros H. unfold OutfitDatabase.handleRateOutfit, OutfitDatabase.getOutfit.
    cbv zeta. fold id. rewrite (update_unknown id args now table H).
    rewrite (find_id_none id table H). reflexivity.
  - intros H. destruct (handleRateOutfit_known args now table H) as (outfit & E & _).
    eexists. exact E.
Qed.

(** A table of two outfits, the first of which was rated before. *)
Definition table1 : list (OutfitDatabase.OutfitRow unit) :=
  [ {| OutfitDatabase.row_id := "a1"; OutfitDatabase.row_columns := tt;
       OutfitDatabase.confidence_rating := Some 5%Z;
       OutfitDatabase.comfort_rating := Some 5%Z;
       OutfitDatabase.success_rating := Some 5%Z;
       OutfitDatabase.repeat_likelihood := Some 5%Z;
       OutfitDatabase.ratings_feedback := None;
       OutfitDatabase.updated_at := 1700000000000%Z |};
    {| OutfitDatabase.row_id := "b2"; OutfitDatabase.row_columns := tt;
       OutfitDatabase.confidence_rating := None;
       OutfitDatabase.comfort_rating := None;
       OutfitDatabase.success_rating := None;
       OutfitDatabase.repeat_likelihood := None;
       OutfitDatabase.ratings_feedback := None;
       OutfitDatabase.updated_at := 1700000000000%Z |} ].

Definition rate (id : string) (confidence comfort success repeat : option Z)
  : OutfitDatabase.RateOutfitArgs :=
  {| OutfitDatabase.arg_outfit_id := id;
     OutfitDatabase.arg_confidence := confidence;
     OutfitDatabase.arg_comfort := comfort;
     OutfitDatabase.arg_success := success;
     OutfitDatabase.arg_repeat_likelihood := repeat;
     OutfitDatabase.arg_received_compliments := Some true;
     OutfitDatabase.arg_felt_appropriate := Some true;
     OutfitDatabase.arg_feedback_notes := None |}.

Lemma X15_rating_unknown_outfit_witness :
  OutfitDatabase.handleRateOutfit (rate "zz" (Some 9%Z) (Some 3%Z) (Some 8%Z) None)
    1700000000001%Z table1
  = (inl "Outfit with ID zz not found", table1).
Proof.
  apply (X15_rating_unknown_outfit
           (rate "zz" (Some 9%Z) (Some 3%Z) (Some 8%Z) None) 1700000000001%Z table1).
  intros row [<-|[<-|[]]]; discriminate.
Defined.

Lemma stored_insights_typed {Columns : Type}
  (outfit : OutfitDatabase.StoredOutfit Columns) (o : Outfit) (r : OutfitRatings) :
  ratings o = Some r ->
  OutfitDatabase.stored_ratings outfit
  = Some {| OutfitDatabase.stored_confidence := confidence r;
            OutfitDatabase.stored_comfort := Some (comfort r);
            OutfitDatabase.stored_success := Some (success r);
            OutfitDatabase.stored_repeatLikelihood := None;
            OutfitDatabase.stored_receivedCompliments := None;
            OutfitDatabase.stored_feltAppropriate := None |} ->
  OutfitDatabase.generateRatingInsights outfit = generateRatingInsights o.
Proof.
  intros Hr Hs. unfold OutfitDatabase.generateRatingInsights, generateRatingInsights.
  rewrite Hr, Hs. reflexivity.
Qed.

(** X16.  Rating a known outfit with confidence, comfort and success
    (confidence not 0) and reading it back gives the outfit the insights
    that the engine computes for these three ratings: the table stores
    them and returns them unchanged. *)
Theorem X16_rating_round_trip {Columns : Type}
  (args : OutfitDatabase.RateOutfitArgs) (now : Z)
  (table : list (OutfitDatabase.OutfitRow Columns)) (o : Outfit) (r : OutfitRatings) :
  (exists row, In row table /\
               OutfitDatabase.row_id row = OutfitDatabase.arg_outfit_id args) ->
  ratings o = Some r ->
  OutfitDatabase.arg_confidence args = Some (confidence r) -> confidence r <> 0%Z ->
  OutfitDatabase.arg_comfort args = Some (comfort r) ->
  OutfitDatabase.arg_success args = Some (success r) ->
  fst (OutfitDatabase.handleRateOutfit args now table) = inr (generateRatingInsights o).
Proof.
  intros Hrow Hr Hc Hc0 Hf Hs.
  destruct (handleRateOutfit_known args now table Hrow) as (outfit & E & _ & Er).
  rewrite E. f_equal. apply (stored_insights_typed outfit o r Hr).
  rewrite Er. unfold ratings_read_back. rewrite Hc, Hf, Hs.
  destruct (Z.eqb_spec (confidence r) 0); [contradiction | reflexivity].
Qed.

Lemma X16_rating_round_trip_witness :
  fst (OutfitDatabase.handleRateOutfit
         (rate "b2" (Some 9%Z) (Some 3%Z) (Some 8%Z) (Some 7%Z)) 1700000000001%Z table1)
  = inr [msg_conf_high; msg_comf_low; msg_save; msg_tradeoff].
Proof.
  apply (X16_rating_round_trip
           (rate "b2" (Some 9%Z) (Some 3%Z) (Some 8%Z) (Some 7%Z)) 1700000000001%Z table1
           (mkOutfit (mkTags [] [] [] []) (Some (mkRatings 9 3 8))) (mkRatings 9 3 8)).
  - eexists. split; [right; left; reflexivity | reflexivity].
  - reflexivity.
  - reflexivity.
  - discriminate.
  - reflexivity.
  - reflexivity.
Defined.





(* ===================================================================== *)
(** ** Searching by season *)
(* ===================================================================== *)

Lemma JSON_stringify_bracket arr :
  exists rest, OutfitDatabase.JSON_stringify arr = String "[" rest.
Proof. unfold OutfitDatabase.JSON_stringify. eexists. reflexivity. Qed.

Lemma getCurrentSeason_values month :
  In (OutfitDatabase.getCurrentSeason month) ["spring"; "summer"; "fall"; "winter"].
Proof.
  unfold OutfitDatabase.getCurrentSeason.
  destruct (Nat.leb 2 month && Nat.leb month 4);
    [|destruct (Nat.leb 5 month && Nat.leb month 7);
      [|destruct (Nat.leb 8 month && Nat.leb month 10)]]; cbn; auto.
Qed.

(** X19.  A search by season never finds an outfit that [createOutfit]
    stored: the column [season] holds the JSON text of an array, which
    begins with a bracket (["summer"] is stored as the text [["summer"]]
    with its quotes), while the query compares it for equality with the
    bare season name.  Without a season criterion the condition is not
    applied. *)
Theorem X19_season_search_never_matches
  (season : option (string + list string)) (month : nat) (criterion : string) :
  In criterion ["spring"; "summer"; "fall"; "winter"] ->
  OutfitDatabase.searchOutfits_season (Some criterion)
    (OutfitDatabase.createOutfit_season_column season month) = false /\
  OutfitDatabase.searchOutfits_season None
    (OutfitDatabase.createOutfit_season_column season month) = true /\
  (season = None ->
   In (OutfitDatabase.getCurrentSeason month) ["spring"; "summer"; "fall"; "winter"] /\
   OutfitDatabase.createOutfit_season season month
   = [OutfitDatabase.getCurrentSeason month]).
Proof.
  intros Hc. split; [|split; [reflexivity|]].
  - unfold OutfitDatabase.createOutfit_season_column.
    destruct (JSON_stringify_bracket (OutfitDatabase.createOutfit_season season month))
      as (rest & ->).
    cbn [In] in Hc. destruct Hc as [<-|[<-|[<-|[<-|[]]]]]; reflexivity.
  - intros ->. split; [apply getCurrentSeason_values | reflexivity].
Qed.

Lemma X19_season_search_never_matches_witness :
  OutfitDatabase.createOutfit_season_column (Some (inl "summer")) 6
  = ("[" ++ OutfitDatabase.double_quote ++ "summer" ++ OutfitDatabase.double_quote ++ "]")
  /\
  OutfitDatabase.searchOutfits_season (Some "summer")
    (OutfitDatabase.createOutfit_season_column (Some (inl "summer")) 6) = false.
Proof.
  split; [reflexivity|].
  apply (X19_season_search_never_matches (Some (inl "summer")) 6 "summer").
  cbn. auto.
Defined.

(* ===================================================================== *)
(** ** When [analyzeOutfit] raises *)
(* ===================================================================== *)

